(** * Session-recording segmentation: a shallow embedding

    This development embeds the helpers of
    [posthog/session_recordings/session_recording_data.py] and states the
    properties of the recording "playlist" they compute.

    Conventions of the embedding.
    - A Python [datetime] is an integer count of milliseconds since the
      epoch.  Every datetime the module builds is
      [parse_snapshot_timestamp ts] for an integer millisecond timestamp,
      possibly moved by [timedelta(milliseconds=1)], so all of them are whole
      milliseconds.  [parse_snapshot_timestamp] is exact on the timestamps
      from 0 up to 2^33 seconds ([exact_timestamp]); beyond them the float
      division by 1000 rounds and the range of [datetime] ends, which is not
      modelled: the theorems stating that a function returns, or which
      exception it raises, assume [exact_timestamp] of the timestamps.  An
      instant is therefore a whole millisecond, and a segment
      [start_time, end_time] holds the instants from its start to its end,
      both included.
    - A [timedelta] is an integer count of milliseconds.
    - A Python dict that is only looked up by key ([event["data"]]) is a
      [gmap]; a dict whose iteration order is observable (the per-window
      mappings, which are walked and stably sorted) is an association list in
      insertion order.
    - Exceptions are values of [result]. *)

From Stdlib Require Import ZArith List Bool Lia Permutation Sorted.
From stdpp Require Import base gmap strings list.

Import ListNotations.
Open Scope string_scope.
Open Scope list_scope.
Open Scope Z_scope.

Set Warnings "-register-all".

(** ** Exceptions *)

Inductive exn : Type := KeyError | IndexError | ValueError | UnicodeError.

Inductive result (A : Type) : Type :=
| Ok (a : A)
| Raise (e : exn).

Arguments Ok {A} a.
Arguments Raise {A} e.

Definition rbind {A B : Type} (r : result A) (k : A -> result B) : result B :=
  match r with
  | Ok a => k a
  | Raise e => Raise e
  end.

Notation "'let?' x ':=' r 'in' k" := (rbind r (fun x => k))
  (at level 10, x name, r at level 100, k at level 200).

(** ** Data model *)

Abbreviation WindowId := string.

(** Milliseconds since the epoch. *)
Abbreviation datetime := Z.

(** Values found in a raw rrweb event's [data].  [VOther] stands for every
    value whose [type] is neither [str], [int] nor [dict] (floats, booleans,
    [None], lists); it only records the value's truthiness. *)
Inductive value : Type :=
| VStr (s : string)
| VInt (z : Z)
| VDict (d : gmap string value)
| VOther (truthy : bool).

(** Values kept in an event summary: the projector only retains [str] and
    [int] entries, plus the nested [payload] dict of such entries. *)
Inductive scalar : Type :=
| Str (s : string)
| Int (z : Z).

Inductive svalue : Type :=
| SStr (s : string)
| SInt (z : Z)
| SDict (d : gmap string scalar).

(** Modelled from the spec: the declarations of [SnapshotData],
    [SessionRecordingEventSummary], [RecordingSegment], [RecordingMetadata]
    and [WindowId] (module [posthog.models.session_recording.metadata]) are
    not among the source files.  The records below have the fields the
    functions read and write, which are the fields the data model of the
    description gives to RawEvent, EventSummary, Segment and
    RecordingMetadata.

    [SnapshotData] is a raw event; each of its three keys may be absent. *)
Record SnapshotData : Type := mkSnapshotData {
  raw_timestamp : option Z;
  raw_type : option Z;
  raw_data : option (gmap string value)
}.

Record SessionRecordingEventSummary : Type := mkSummary {
  timestamp : Z;
  type : Z;
  data : gmap string svalue
}.

Record RecordingSegment : Type := mkSegment {
  start_time : datetime;
  end_time : datetime;
  window_id : WindowId;
  is_active : bool
}.

#[global] Instance RecordingSegment_eq_dec : EqDecision RecordingSegment.
Proof. solve_decision. Defined.

(** ** Enumerations of rrweb *)

Module RRWEB_MAP_EVENT_TYPE.
Definition DomContentLoaded : Z := 0.
Definition Load : Z := 1.
Definition FullSnapshot : Z := 2.
Definition IncrementalSnapshot : Z := 3.
Definition Meta : Z := 4.
Definition Custom : Z := 5.
Definition Plugin : Z := 6.
End RRWEB_MAP_EVENT_TYPE.

Module RRWEB_MAP_EVENT_DATA_SOURCE.
Definition Mutation : Z := 0.
Definition MouseMove : Z := 1.
Definition MouseInteraction : Z := 2.
Definition Scroll : Z := 3.
Definition ViewportResize : Z := 4.
Definition Input : Z := 5.
Definition TouchMove : Z := 6.
Definition MediaInteraction : Z := 7.
Definition StyleSheetRule : Z := 8.
Definition CanvasMutation : Z := 9.
Definition Font : Z := 1.
Definition Log : Z := 1.
Definition Drag : Z := 1.
Definition StyleDeclaration : Z := 1.
Definition Selection : Z := 1.
End RRWEB_MAP_EVENT_DATA_SOURCE.

Definition EVENT_SUMMARY_DATA_INCLUSIONS : list string :=
  ["type"; "source"; "tag"; "plugin"; "href"; "width"; "height";
   "payload.href"; "payload.level"].

Definition ACTIVITY_THRESHOLD_SECONDS : Z := 10.

(** ** Time helpers *)

(** [datetime.fromtimestamp(timestamp / 1000, timezone.utc)]: the instant
    [ts] milliseconds after the epoch. *)
Definition parse_snapshot_timestamp (ts : Z) : datetime := ts.

(** The timestamps on which the source computes that instant exactly: below
    2^33 seconds the float [timestamp / 1000] lies less than half a
    microsecond from the quotient, so rounding to microseconds gives the
    whole millisecond; from 2^33 seconds on the result can be one microsecond
    off, and past the year 9999 [fromtimestamp] raises [ValueError]. *)
Definition exact_timestamp (ts : Z) : Prop := 0 <= ts < 2 ^ 33 * 1000.

Definition timedelta_seconds (s : Z) : Z := 1000 * s.
Definition timedelta_milliseconds (ms : Z) : Z := ms.

(** [timedelta.seconds]: the seconds field of the normalised
    (days, seconds, microseconds) triple, between 0 and 86399. *)
Definition timedelta_seconds_field (d : Z) : Z := (d / 1000) mod 86400.

(** ** [is_active_event] *)

Definition active_rr_web_sources : list Z := [1; 2; 3; 4; 5; 6; 7; 12].

(** [x in l] for an optional summary value and a list of ints. *)
Definition svalue_in (v : option svalue) (l : list Z) : bool :=
  match v with
  | Some (SInt z) => bool_decide (z ∈ l)
  | _ => false
  end.

Definition is_active_event (event : SessionRecordingEventSummary) : bool :=
  (type event =? 3) && svalue_in (data event !! "source") active_rr_web_sources.

(** ** [get_active_segments_from_event_list] *)

Definition new_active_segment (t : datetime) (wid : WindowId) : RecordingSegment :=
  {| start_time := t; end_time := t; window_id := wid; is_active := true |}.

Definition set_end_time (s : RecordingSegment) (t : datetime) : RecordingSegment :=
  {| start_time := start_time s; end_time := t;
     window_id := window_id s; is_active := is_active s |}.

Definition set_start_time (s : RecordingSegment) (t : datetime) : RecordingSegment :=
  {| start_time := t; end_time := end_time s;
     window_id := window_id s; is_active := is_active s |}.

(** One iteration of the loop over [active_event_timestamps]; the state is
    ([active_recording_segments], [current_active_segment]). *)
Definition active_loop_body (wid : WindowId) (thr : Z)
    (st : list RecordingSegment * option RecordingSegment) (current_timestamp_int : Z)
  : list RecordingSegment * option RecordingSegment :=
  let current_timestamp := parse_snapshot_timestamp current_timestamp_int in
  match snd st with
  | Some cur =>
      if current_timestamp - end_time cur <=? timedelta_seconds thr
      then (fst st, Some (set_end_time cur current_timestamp))
      else (fst st ++ [cur], Some (new_active_segment current_timestamp wid))
  | None => (fst st, Some (new_active_segment current_timestamp wid))
  end.

Definition get_active_segments_from_event_list
    (event_list : list SessionRecordingEventSummary) (wid : WindowId)
    (activity_threshold_seconds : Z) : list RecordingSegment :=
  let active_event_timestamps :=
    map timestamp (List.filter is_active_event event_list) in
  let st := fold_left (active_loop_body wid activity_threshold_seconds)
              active_event_timestamps ([], None) in
  match snd st with
  | Some cur =>
      if (length (fst st) =? 0)%nat || bool_decide (last (fst st) ≠ Some cur)
      then fst st ++ [cur]
      else fst st
  | None => fst st
  end.

(** ** Python built-ins used by the module *)

(** [sorted(xs, key=key)] and [xs.sort(key=key)] are stable: elements with
    equal keys keep their relative order.  The stable sorted permutation of a
    list is unique; it is computed here by insertion from the right, each
    element going in front of the first element whose key is not smaller. *)
Fixpoint insert_by {A : Type} (key : A -> Z) (x : A) (l : list A) : list A :=
  match l with
  | [] => [x]
  | y :: l' => if key x <=? key y then x :: y :: l' else y :: insert_by key x l'
  end.

Definition sorted_by {A : Type} (key : A -> Z) (l : list A) : list A :=
  fold_right (insert_by key) [] l.

(** [enumerate(xs)] *)
Definition enumerate {A : Type} (l : list A) : list (nat * A) :=
  combine (seq 0 (length l)) l.

(** [min(xs)] and [max(xs)]; both raise [ValueError] on an empty list. *)
Definition py_min (l : list Z) : result Z :=
  match l with
  | [] => Raise ValueError
  | x :: l' => Ok (fold_left Z.min l' x)
  end.

Definition py_max (l : list Z) : result Z :=
  match l with
  | [] => Raise ValueError
  | x :: l' => Ok (fold_left Z.max l' x)
  end.

(** [xs[0]] and [xs[-1]] *)
Definition py_first {A : Type} (l : list A) : result A :=
  match l with
  | [] => Raise IndexError
  | x :: _ => Ok x
  end.

Definition py_last {A : Type} (l : list A) : result A :=
  match last l with
  | None => Raise IndexError
  | Some x => Ok x
  end.

(** A [for] loop whose body may raise. *)
Fixpoint for_each {S X : Type} (body : S -> X -> result S) (xs : list X) (st : S)
  : result S :=
  match xs with
  | [] => Ok st
  | x :: xs' => let? st' := body st x in for_each body xs' st'
  end.

(** A dict in insertion order.  [dict_get] is [d[k]]; [dict_set] is
    [d[k] = v], which keeps the position of a key already present. *)
Abbreviation dict V := (list (WindowId * V)).

Fixpoint dict_get {V : Type} (d : dict V) (k : WindowId) : result V :=
  match d with
  | [] => Raise KeyError
  | (k', v) :: d' => if String.eqb k k' then Ok v else dict_get d' k
  end.

Fixpoint dict_set {V : Type} (d : dict V) (k : WindowId) (v : V) : dict V :=
  match d with
  | [] => [(k, v)]
  | (k', v') :: d' =>
      if String.eqb k k' then (k, v) :: d' else (k', v') :: dict_set d' k v
  end.

Definition dict_keys {V : Type} (d : dict V) : list WindowId := map fst d.
Definition dict_values {V : Type} (d : dict V) : list V := map snd d.

(** ** [get_events_summary_from_snapshot_data] *)

(** Python truthiness of a raw value. *)
Definition truthy (v : value) : bool :=
  match v with
  | VStr s => negb (String.eqb s "")
  | VInt z => negb (z =? 0)
  | VDict d => negb (size d =? 0)%nat
  | VOther b => b
  end.

(** The body of the first dict comprehension, for one [key, value] item. *)
Definition top_level_item (key : string) (v : value) : option svalue :=
  match v with
  | VStr s =>
      if bool_decide (key ∈ EVENT_SUMMARY_DATA_INCLUSIONS) then Some (SStr s) else None
  | VInt z =>
      if bool_decide (key ∈ EVENT_SUMMARY_DATA_INCLUSIONS) then Some (SInt z) else None
  | _ => None
  end.

(** The body of the payload comprehension. *)
Definition payload_item (key : string) (v : value) : option scalar :=
  match v with
  | VStr s =>
      if bool_decide (("payload." ++ key)%string ∈ EVENT_SUMMARY_DATA_INCLUSIONS)
      then Some (Str s) else None
  | VInt z =>
      if bool_decide (("payload." ++ key)%string ∈ EVENT_SUMMARY_DATA_INCLUSIONS)
      then Some (Int z) else None
  | _ => None
  end.

Definition summary_data (event : SnapshotData) : gmap string svalue :=
  let event_data : gmap string value := default ∅ (raw_data event) in
  let data := map_imap top_level_item event_data in
  match event_data !! "payload" with
  | Some p =>
      if truthy p then
        match p with
        | VDict payload => <["payload" := SDict (map_imap payload_item payload)]> data
        | _ => data
        end
      else data
  | None => data
  end.

(** One iteration of the loop over [snapshot_data]. *)
Definition summary_loop_body (events_summary : list SessionRecordingEventSummary)
    (event : SnapshotData) : list SessionRecordingEventSummary :=
  match raw_timestamp event, raw_type event with
  | Some ts, Some ty =>
      events_summary ++ [ {| timestamp := ts; type := ty; data := summary_data event |} ]
  | _, _ => events_summary
  end.

Definition get_events_summary_from_snapshot_data (snapshot_data : list SnapshotData)
  : list SessionRecordingEventSummary :=
  let events_summary := fold_left summary_loop_body snapshot_data [] in
  sorted_by timestamp events_summary.

(** ** [generate_inactive_segments_for_range] *)

(** One iteration of the loop over [window_id_priority_list]; the state is
    ([inactive_segments], [current_time]). *)
Definition inactive_loop_body (range_end_time : datetime)
    (start_and_end_times_by_window_id : dict RecordingSegment)
    (st : list RecordingSegment * datetime) (wid : WindowId)
  : result (list RecordingSegment * datetime) :=
  let? w := dict_get start_and_end_times_by_window_id wid in
  let window_start_time := start_time w in
  let window_end_time := end_time w in
  let current_time := snd st in
  if (current_time <? window_end_time) && (current_time <? range_end_time) then
    let segment_start_time := Z.max window_start_time current_time in
    let segment_end_time := Z.min window_end_time range_end_time in
    Ok (fst st ++ [ {| start_time := segment_start_time; end_time := segment_end_time;
                       window_id := wid; is_active := false |} ],
        Z.min segment_end_time window_end_time)
  else Ok st.

(** One iteration of the loop that moves boundaries; the segments are
    updated in place, so the state is the whole list and
    [inactive_segments[index - 1]] is read from it. *)
Definition overlap_loop_body (range_start_time range_end_time : datetime)
    (is_first_segment is_last_segment : bool)
    (inactive_segments : list RecordingSegment) (index : nat) : list RecordingSegment :=
  match inactive_segments !! index with
  | None => inactive_segments
  | Some segment =>
      let moves_start :=
        ((index =? 0)%nat && (start_time segment =? range_start_time)
           && negb is_first_segment)
        || ((0 <? index)%nat &&
              match inactive_segments !! (index - 1)%nat with
              | Some previous => start_time segment =? end_time previous
              | None => false
              end) in
      let segment1 :=
        if moves_start
        then set_start_time segment (start_time segment + timedelta_milliseconds 1)
        else segment in
      let moves_end :=
        (index =? length inactive_segments - 1)%nat
        && (end_time segment1 =? range_end_time) && negb is_last_segment in
      let segment2 :=
        if moves_end
        then set_end_time segment1 (end_time segment1 - timedelta_milliseconds 1)
        else segment1 in
      <[index := segment2]> inactive_segments
  end.

(** [sorted(d, key=lambda x: d[x]["start_time"])] sorts the keys of [d] by
    the start time of their values: here the items are sorted by that key
    and their keys taken, which is the same list as a dict holds each key
    once. *)
Definition generate_inactive_segments_for_range
    (range_start_time range_end_time : datetime) (last_active_window_id : WindowId)
    (start_and_end_times_by_window_id : dict RecordingSegment)
    (is_first_segment is_last_segment : bool) : result (list RecordingSegment) :=
  let window_ids_by_start_time :=
    dict_keys (sorted_by (fun kv => start_time (snd kv)) start_and_end_times_by_window_id) in
  let window_id_priority_list := last_active_window_id :: window_ids_by_start_time in
  let? st := for_each (inactive_loop_body range_end_time start_and_end_times_by_window_id)
               window_id_priority_list ([], range_start_time) in
  let inactive_segments := fst st in
  Ok (fold_left
        (overlap_loop_body range_start_time range_end_time is_first_segment is_last_segment)
        (seq 0 (length inactive_segments)) inactive_segments).

(** ** [get_metadata_from_events_summary] *)

Module RecordingMetadata.
Record t : Type := mk {
  distinct_id : string;
  segments : list RecordingSegment;
  start_and_end_times_by_window_id : dict RecordingSegment;
  start_time : datetime;
  end_time : datetime;
  duration : Z;
  click_count : nat;
  keypress_count : nat;
  urls : list string
}.
End RecordingMetadata.

(** Modelled from the spec: [posthog.utils.flatten] is not among the source
    files; the counts and urls are taken "across all windows", so it
    concatenates the per-window lists in order. *)
Definition flatten {A : Type} (l : list (list A)) : list A := concat l.

(** One iteration of the loop over [events_summary_by_window_id.items()]; the
    state is ([all_active_segments], [start_and_end_times_by_window_id]). *)
Definition window_loop_body
    (st : list RecordingSegment * dict RecordingSegment)
    (item : WindowId * list SessionRecordingEventSummary)
  : result (list RecordingSegment * dict RecordingSegment) :=
  let wid := fst item in
  let events_summary := snd item in
  let active_segments_for_window_id :=
    get_active_segments_from_event_list events_summary wid ACTIVITY_THRESHOLD_SECONDS in
  let? first_event := py_first events_summary in
  let? last_event := py_last events_summary in
  Ok (fst st ++ active_segments_for_window_id,
      dict_set (snd st) wid
        {| start_time := parse_snapshot_timestamp (timestamp first_event);
           end_time := parse_snapshot_timestamp (timestamp last_event);
           window_id := wid; is_active := false |}).

(** State of the loop that fills the gaps between the active segments. *)
Record fill_state : Type := mkFill {
  all_segments : list RecordingSegment;
  current_timestamp : datetime;
  current_window_id : WindowId
}.

Definition fill_loop_body (start_and_end_times_by_window_id : dict RecordingSegment)
    (st : fill_state) (item : nat * RecordingSegment) : result fill_state :=
  let index := fst item in
  let segment := snd item in
  let? filled :=
    if current_timestamp st <? start_time segment then
      let? inactive :=
        generate_inactive_segments_for_range (current_timestamp st) (start_time segment)
          (current_window_id st) start_and_end_times_by_window_id
          (index =? 0)%nat false in
      Ok (all_segments st ++ inactive)
    else Ok (all_segments st) in
  Ok {| all_segments := filled ++ [segment];
        current_window_id := window_id segment;
        current_timestamp := Z.max (end_time segment) (current_timestamp st) |}.

(** The segments of the recording, with the two bounds they span: lines
    281-340 of the function. *)
Definition recording_segments
    (events_summary_by_window_id : dict (list SessionRecordingEventSummary))
  : result (list RecordingSegment * dict RecordingSegment * datetime * datetime) :=
  let? collected := for_each window_loop_body events_summary_by_window_id ([], []) in
  let start_and_end_times_by_window_id := snd collected in
  let all_active_segments := sorted_by start_time (fst collected) in
  let? first_start_time :=
    py_min (map start_time (dict_values start_and_end_times_by_window_id)) in
  let? last_end_time :=
    py_max (map end_time (dict_values start_and_end_times_by_window_id)) in
  let? first_window_id :=
    py_first (dict_keys (sorted_by (fun kv => start_time (snd kv))
                           start_and_end_times_by_window_id)) in
  let? st := for_each (fill_loop_body start_and_end_times_by_window_id)
               (enumerate all_active_segments)
               {| all_segments := []; current_timestamp := first_start_time;
                  current_window_id := first_window_id |} in
  let? final_segments :=
    if current_timestamp st <? last_end_time then
      let? inactive :=
        generate_inactive_segments_for_range (current_timestamp st) last_end_time
          (current_window_id st) start_and_end_times_by_window_id
          (current_timestamp st =? first_start_time) true in
      Ok (all_segments st ++ inactive)
    else Ok (all_segments st) in
  Ok (final_segments, start_and_end_times_by_window_id, first_start_time, last_end_time).

(** [x["type"] == 3 and x["data"]["source"] == n]: the subscript raises
    [KeyError] when the summary has type 3 and no [source]. *)
Definition is_type3_with_source (n : Z) (x : SessionRecordingEventSummary) : result bool :=
  if type x =? 3 then
    match data x !! "source" with
    | None => Raise KeyError
    | Some (SInt z) => Ok (z =? n)
    | Some _ => Ok false
    end
  else Ok false.

(** A list comprehension [[x for x in xs if p(x)]] whose condition may raise. *)
Fixpoint filter_r {A : Type} (p : A -> result bool) (l : list A) : result (list A) :=
  match l with
  | [] => Ok []
  | x :: l' =>
      let? b := p x in
      let? rest := filter_r p l' in
      Ok (if b then x :: rest else rest)
  end.

Definition href_of (x : SessionRecordingEventSummary) : option string :=
  match data x !! "href" with
  | Some (SStr s) => Some s
  | _ => None
  end.

Definition get_metadata_from_events_summary
    (events_summary_by_window_id : dict (list SessionRecordingEventSummary))
  : result RecordingMetadata.t :=
  let? computed := recording_segments events_summary_by_window_id in
  let '(all_segments, start_and_end_times_by_window_id, first_start_time, last_end_time) :=
    computed in
  let all_events_summary := flatten (dict_values events_summary_by_window_id) in
  let? clicks := filter_r (is_type3_with_source 2) all_events_summary in
  let? keypresses := filter_r (is_type3_with_source 5) all_events_summary in
  let urls := omap href_of all_events_summary in
  Ok {| RecordingMetadata.distinct_id := "";
        RecordingMetadata.segments := all_segments;
        RecordingMetadata.start_and_end_times_by_window_id :=
          start_and_end_times_by_window_id;
        RecordingMetadata.start_time := first_start_time;
        RecordingMetadata.end_time := last_end_time;
        RecordingMetadata.duration :=
          timedelta_seconds_field (last_end_time - first_start_time);
        RecordingMetadata.click_count := length clicks;
        RecordingMetadata.keypress_count := length keypresses;
        RecordingMetadata.urls := urls |}.

(** ** [compress_to_string] and [decompress] *)

(** A Python [str] is a sequence of code points, each between 0 and
    0x10FFFF; surrogate code points (0xD800-0xDFFF) may occur on their own.
    [bytes] is a sequence of integers between 0 and 255. *)
Abbreviation pystr := (list Z).
Abbreviation pybytes := (list Z).

Definition is_code_point (c : Z) : Prop := 0 <= c <= 0x10FFFF.
Definition is_high_surrogate (u : Z) : bool := (0xD800 <=? u) && (u <=? 0xDBFF).
Definition is_low_surrogate (u : Z) : bool := (0xDC00 <=? u) && (u <=? 0xDFFF).

(** [gzip.compress], [gzip.decompress], [base64.b64encode(..).decode("utf-8")]
    and [base64.b64decode] belong to the Python standard library; they enter
    through this interface, which states that each decoder inverts its
    encoder.  [gzip.compress] writes the current time into the header of
    its output: the time is the first argument of [gzip_compress], and the
    decoder inverts the encoder whatever the time is. *)
Class StdlibCodecs : Type := {
  gzip_compress : Z -> pybytes -> pybytes;
  gzip_decompress : pybytes -> result pybytes;
  b64encode_str : pybytes -> pystr;
  b64decode : pystr -> result pybytes;
  gzip_decompress_compress :
    forall mtime b, gzip_decompress (gzip_compress mtime b) = Ok b;
  b64decode_b64encode : forall b, b64decode (b64encode_str b) = Ok b
}.

(** The UTF-16 code units of one code point.  With [surrogatepass] a
    surrogate code point is written as the code unit of the same value. *)
Definition utf16_units (c : Z) : list Z :=
  if c <? 0x10000 then [c]
  else [0xD800 + (c - 0x10000) / 0x400; 0xDC00 + (c - 0x10000) mod 0x400].

Definition unit_bytes_le (u : Z) : pybytes := [u mod 256; u / 256].

(** [s.encode("utf-16", "surrogatepass")] on a little-endian host: the byte
    order mark FF FE, then the code units, low byte first. *)
Definition encode_utf16_surrogatepass (s : pystr) : pybytes :=
  [0xFF; 0xFE] ++ flat_map unit_bytes_le (flat_map utf16_units s).

Fixpoint units_of_bytes (big_endian : bool) (b : pybytes) : result (list Z) :=
  match b with
  | [] => Ok []
  | [_] => Raise UnicodeError
  | b0 :: b1 :: rest =>
      let? us := units_of_bytes big_endian rest in
      Ok ((if big_endian then 256 * b0 + b1 else b0 + 256 * b1) :: us)
  end.

(** The UTF-16 decoder: a high surrogate followed by a low surrogate is one
    supplementary code point; any other surrogate is handed to the
    [surrogatepass] handler, which returns it as a code point of its own. *)
Fixpoint decode_units (us : list Z) : pystr :=
  match us with
  | [] => []
  | u :: rest =>
      if is_high_surrogate u then
        match rest with
        | v :: rest' =>
            if is_low_surrogate v
            then (0x10000 + (u - 0xD800) * 0x400 + (v - 0xDC00)) :: decode_units rest'
            else u :: decode_units rest
        | [] => [u]
        end
      else u :: decode_units rest
  end.

(** [b.decode("utf-16", "surrogatepass")]: a leading byte order mark selects
    the byte order and is dropped; without one the host order is used. *)
Definition decode_utf16_surrogatepass (b : pybytes) : result pystr :=
  match b with
  | 0xFF :: 0xFE :: rest => let? us := units_of_bytes false rest in Ok (decode_units us)
  | 0xFE :: 0xFF :: rest => let? us := units_of_bytes true rest in Ok (decode_units us)
  | _ => let? us := units_of_bytes false b in Ok (decode_units us)
  end.

(** [now] is the time at which [gzip.compress] is called. *)
Definition compress_to_string `{StdlibCodecs} (now : Z) (json_string : pystr) : pystr :=
  let compressed_data := gzip_compress now (encode_utf16_surrogatepass json_string) in
  b64encode_str compressed_data.

Definition decompress `{StdlibCodecs} (base64data : pystr) : result pystr :=
  let? compressed_bytes := b64decode base64data in
  let? raw := gzip_decompress compressed_bytes in
  decode_utf16_surrogatepass raw.

(** A string in which no high surrogate is directly followed by a low
    surrogate. *)
Fixpoint no_surrogate_pair (s : pystr) : bool :=
  match s with
  | c :: rest =>
      match rest with
      | d :: _ => negb (is_high_surrogate c && is_low_surrogate d)
      | [] => true
      end && no_surrogate_pair rest
  | [] => true
  end.

(** Codecs that store their input unchanged, behind one header byte that
    holds the time; they satisfy the interface. *)
Definition stored_codecs : StdlibCodecs := {|
  gzip_compress mtime b := mtime mod 256 :: b;
  gzip_decompress b := Ok (tail b);
  b64encode_str b := b;
  b64decode s := Ok s;
  gzip_decompress_compress mtime b := eq_refl;
  b64decode_b64encode b := eq_refl
|}.

(** ** Reference descriptions

    The definitions below follow the prose description of each algorithm;
    the theorems compare them with the functions above.  They build every
    segment field by field and call none of the helpers of the embedded
    code. *)

Definition rmap {A B : Type} (f : A -> B) (r : result A) : result B :=
  match r with
  | Ok a => Ok (f a)
  | Raise e => Raise e
  end.

(** *** Activity classifier: merge-or-open walk over the active timestamps *)

Fixpoint spec_walk_active (wid : WindowId) (thr : Z) (current : RecordingSegment)
    (timestamps : list Z) : list RecordingSegment :=
  match timestamps with
  | [] => [current]
  | t :: rest =>
      if t - end_time current <=? 1000 * thr
      then spec_walk_active wid thr
             {| start_time := start_time current; end_time := t;
                window_id := window_id current; is_active := is_active current |} rest
      else current
             :: spec_walk_active wid thr
                  {| start_time := t; end_time := t; window_id := wid; is_active := true |}
                  rest
  end.

Definition spec_active_segments (event_list : list SessionRecordingEventSummary)
    (wid : WindowId) (thr : Z) : list RecordingSegment :=
  match map timestamp (List.filter is_active_event event_list) with
  | [] => []
  | t :: rest =>
      spec_walk_active wid thr
        {| start_time := t; end_time := t; window_id := wid; is_active := true |} rest
  end.

(** *** Gap filler: walk of the priority list with a cursor *)

Definition priority_list (d : dict RecordingSegment) (preferred : WindowId)
  : list WindowId :=
  preferred :: dict_keys (sorted_by (fun kv => start_time (snd kv)) d).

Fixpoint spec_walk_inactive (range_end : datetime) (d : dict RecordingSegment)
    (t : datetime) (ids : list WindowId) : result (list RecordingSegment) :=
  match ids with
  | [] => Ok []
  | wid :: ids' =>
      let? w := dict_get d wid in
      if (t <? end_time w) && (t <? range_end) then
        let seg := {| start_time := Z.max (start_time w) t;
                      end_time := Z.min (end_time w) range_end;
                      window_id := wid; is_active := false |} in
        rmap (cons seg) (spec_walk_inactive range_end d (end_time seg) ids')
      else spec_walk_inactive range_end d t ids'
  end.

Definition forward_1ms (s : RecordingSegment) : RecordingSegment :=
  {| start_time := start_time s + 1; end_time := end_time s;
     window_id := window_id s; is_active := is_active s |}.

Definition backward_1ms (s : RecordingSegment) : RecordingSegment :=
  {| start_time := start_time s; end_time := end_time s - 1;
     window_id := window_id s; is_active := is_active s |}.

(** The first segment starts one millisecond later when it starts at
    [range_start] and the call is not at the start of the recording. *)
Definition move_first_start (range_start : datetime) (at_global_start : bool)
    (segs : list RecordingSegment) : list RecordingSegment :=
  match segs with
  | [] => []
  | s :: rest =>
      (if (start_time s =? range_start) && negb at_global_start
       then forward_1ms s else s) :: rest
  end.

(** The last segment ends one millisecond earlier when it ends at
    [range_end] and the call is not at the end of the recording. *)
Fixpoint move_last_end (range_end : datetime) (at_global_end : bool)
    (segs : list RecordingSegment) : list RecordingSegment :=
  match segs with
  | [] => []
  | s :: rest =>
      match rest with
      | [] => [if (end_time s =? range_end) && negb at_global_end
               then backward_1ms s else s]
      | _ :: _ => s :: move_last_end range_end at_global_end rest
      end
  end.

(** A segment after the first starts one millisecond later when it starts
    where the segment before it ends. *)
Fixpoint move_later_starts (previous_end : datetime) (segs : list RecordingSegment)
  : list RecordingSegment :=
  match segs with
  | [] => []
  | s :: rest =>
      (if start_time s =? previous_end then forward_1ms s else s)
        :: move_later_starts (end_time s) rest
  end.

Definition keep_first_move_later (segs : list RecordingSegment) : list RecordingSegment :=
  match segs with
  | [] => []
  | s :: rest => s :: move_later_starts (end_time s) rest
  end.

(** The procedure with the first and last adjustments only. *)
Definition spec_inactive_segments (range_start range_end : datetime)
    (preferred : WindowId) (d : dict RecordingSegment)
    (at_global_start at_global_end : bool) : result (list RecordingSegment) :=
  rmap (fun segs =>
          move_last_end range_end at_global_end
            (move_first_start range_start at_global_start segs))
       (spec_walk_inactive range_end d range_start (priority_list d preferred)).

(** The procedure with the adjustment of later segments as well. *)
Definition amended_inactive_segments (range_start range_end : datetime)
    (preferred : WindowId) (d : dict RecordingSegment)
    (at_global_start at_global_end : bool) : result (list RecordingSegment) :=
  rmap (fun segs =>
          move_last_end range_end at_global_end
            (move_first_start range_start at_global_start
               (keep_first_move_later segs)))
       (spec_walk_inactive range_end d range_start (priority_list d preferred)).

(** *** Event projector: retained entries *)

Definition TOP_LEVEL_KEYS : list string :=
  ["type"; "source"; "tag"; "plugin"; "href"; "width"; "height"].

Definition PAYLOAD_KEYS : list string := ["payload.href"; "payload.level"].

Definition svalue_of (v : value) : option svalue :=
  match v with
  | VStr s => Some (SStr s)
  | VInt z => Some (SInt z)
  | _ => None
  end.

Definition scalar_of (v : value) : option scalar :=
  match v with
  | VStr s => Some (Str s)
  | VInt z => Some (Int z)
  | _ => None
  end.

(** The data of a summary as the description has it: the string and integer
    entries under the seven top-level keys, and a [payload] entry whenever
    [data.payload] is a mapping. *)
Definition spec_summary_data (event : SnapshotData) : gmap string svalue :=
  let event_data : gmap string value := default ∅ (raw_data event) in
  let top :=
    map_imap (fun k v => if bool_decide (k ∈ TOP_LEVEL_KEYS) then svalue_of v else None)
      event_data in
  match event_data !! "payload" with
  | Some (VDict payload) =>
      <["payload" :=
          SDict (map_imap
                   (fun k v => if bool_decide (("payload." ++ k)%string ∈ PAYLOAD_KEYS)
                               then scalar_of v else None) payload)]> top
  | _ => top
  end.

(** The summary of one raw event, when it has both keys. *)
Definition summary_of (event : SnapshotData) : option SessionRecordingEventSummary :=
  match raw_timestamp event, raw_type event with
  | Some ts, Some ty => Some {| timestamp := ts; type := ty; data := summary_data event |}
  | _, _ => None
  end.

(** ** Predicates on segment lists *)

Definition covers (s : RecordingSegment) (x : datetime) : Prop :=
  start_time s <= x <= end_time s.

Definition covered (segs : list RecordingSegment) (x : datetime) : Prop :=
  exists s, s ∈ segs /\ covers s x.

(** [x] lies in the half-open timeline of some window. *)
Definition recorded (d : dict RecordingSegment) (x : datetime) : Prop :=
  exists kw, kw ∈ d /\ start_time (snd kw) <= x < end_time (snd kw).

Definition sorted_by_timestamp (l : list SessionRecordingEventSummary) : Prop :=
  Sorted (fun a b => timestamp a <= timestamp b) l.

(** Consecutive segments [s1], [s2] of a list. *)
Definition adjacent (segs : list RecordingSegment) (s1 s2 : RecordingSegment) : Prop :=
  exists i : nat, segs !! i = Some s1 /\ segs !! S i = Some s2.

Definition has_source_when_type3 (x : SessionRecordingEventSummary) : Prop :=
  type x = 3 -> is_Some (data x !! "source").

Definition count_type3_source (n : Z) (l : list SessionRecordingEventSummary) : nat :=
  length (List.filter
            (fun x => (type x =? 3)
                      && match data x !! "source" with
                         | Some (SInt z) => z =? n
                         | _ => false
                         end) l).

(** ** Orders *)

(** Ascending keys, the order [sorted_by] establishes. *)
Definition key_le {A : Type} (key : A -> Z) (a b : A) : Prop := key a <= key b.

(** The segment [b] starts more than the threshold after [a] ends. *)
Definition gap_after (thr : Z) (a b : RecordingSegment) : Prop :=
  timedelta_seconds thr < start_time b - end_time a.

Definition starts_before (a b : RecordingSegment) : Prop := start_time a < start_time b.

(** ** Shapes of the gap filler's output *)

(** The segments of a walk whose cursor starts at [t]: each is inactive,
    starts at or after the cursor and ends at or before [range_end]; the
    cursor then stands at its end. *)
Fixpoint cursor_chain (range_end t : datetime) (segs : list RecordingSegment) : Prop :=
  match segs with
  | [] => True
  | s :: rest =>
      t <= start_time s /\ end_time s <= range_end /\ is_active s = false
      /\ cursor_chain range_end (end_time s) rest
  end.

(** Each segment starts strictly after [p], the end of the one before it. *)
Fixpoint strict_chain (p : datetime) (segs : list RecordingSegment) : Prop :=
  match segs with
  | [] => True
  | s :: rest => p < start_time s /\ strict_chain (end_time s) rest
  end.

(** The result of one call for a range starting at [c]. *)
Definition gap_shape (c : datetime) (is_first : bool) (segs : list RecordingSegment)
  : Prop :=
  match segs with
  | [] => True
  | g :: rest =>
      c <= start_time g /\ (is_first = false -> c < start_time g)
      /\ strict_chain (end_time g) rest
  end.

(** Two consecutive segments, one of them inactive, meet at one instant
    only if that instant is [global_start]. *)
Definition no_shared_instant (global_start : datetime) (s1 s2 : RecordingSegment) : Prop :=
  is_active s1 = false \/ is_active s2 = false ->
  end_time s1 = start_time s2 -> end_time s1 = global_start.

(** The timeline of a window: its first and last timestamps. *)
Definition timeline (wid : WindowId) (events_summary : list SessionRecordingEventSummary)
  : RecordingSegment :=
  {| start_time := default 0 (timestamp <$> head events_summary);
     end_time := default 0 (timestamp <$> last events_summary);
     window_id := wid; is_active := false |}.

(** The active segments of one window, and the timelines of all windows. *)
Definition window_active (item : WindowId * list SessionRecordingEventSummary)
  : list RecordingSegment :=
  get_active_segments_from_event_list (snd item) (fst item) ACTIVITY_THRESHOLD_SECONDS.

Definition timelines (m : dict (list SessionRecordingEventSummary))
    (acc : dict RecordingSegment) : dict RecordingSegment :=
  fold_left (fun d item => dict_set d (fst item) (timeline (fst item) (snd item))) m acc.

(** What the gap-filling loop maintains about consecutive segments, before
    the active segment numbered [k] is handled. *)
Definition boundaries_inv (d : dict RecordingSegment) (global_start : datetime)
    (k : nat) (st : fill_state) : Prop :=
  Sorted (no_shared_instant global_start) (all_segments st)
  /\ (forall x, last (all_segments st) = Some x ->
        is_active x = true /\ end_time x <= current_timestamp st)
  /\ (k = 0%nat -> all_segments st = [])
  /\ current_window_id st ∈ dict_keys d.

(** The start adjustments seen from a cursor [t]: the first segment moves
    when it starts at [t] and [bump] is set, the later ones as in
    [move_later_starts]. *)
Definition adjust_from (bump : bool) (t : datetime) (segs : list RecordingSegment)
  : list RecordingSegment :=
  match segs with
  | [] => []
  | s :: rest =>
      (if (start_time s =? t) && bump then forward_1ms s else s)
        :: move_later_starts (end_time s) rest
  end.

(** What the gap-filling loop maintains about coverage, before the active
    segment numbered [k] is handled. *)
Definition coverage_inv (d : dict RecordingSegment) (global_start : datetime)
    (k : nat) (st : fill_state) : Prop :=
  (forall x, x < current_timestamp st -> recorded d x -> covered (all_segments st) x)
  /\ (k <> 0%nat -> covered (all_segments st) (current_timestamp st))
  /\ (k = 0%nat -> current_timestamp st = global_start)
  /\ (exists p, dict_get d (current_window_id st) = Ok p
                /\ start_time p <= current_timestamp st).

(** An active segment lies within the timeline of its window. *)
Definition within_own_window (d : dict RecordingSegment) (seg : RecordingSegment) : Prop :=
  exists w, dict_get d (window_id seg) = Ok w
            /\ start_time w <= start_time seg
            /\ start_time seg <= end_time seg
            /\ end_time seg <= end_time w.

(** Both ends of a segment lie between [lo] and [hi]. *)
Definition in_range (lo hi : datetime) (s : RecordingSegment) : Prop :=
  lo <= start_time s <= hi /\ lo <= end_time s <= hi.

(** The segments of a walk whose cursor starts at [t], with the bounds that
    keep the adjusted segments in range: a segment starts at or after the
    cursor and not after [hi], and ends after the cursor. *)
Fixpoint ranged_chain (hi range_end t : datetime) (segs : list RecordingSegment) : Prop :=
  match segs with
  | [] => True
  | s :: rest =>
      t <= start_time s <= hi /\ t < range_end /\ t < end_time s <= range_end
      /\ ranged_chain hi range_end (end_time s) rest
  end.

Definition range_inv (d : dict RecordingSegment) (gs ge : datetime)
    (k : nat) (st : fill_state) : Prop :=
  Forall (in_range gs ge) (all_segments st)
  /\ gs <= current_timestamp st <= ge
  /\ current_window_id st ∈ dict_keys d.

(** A segment lies within the timeline of its window, both ends included. *)
Definition inside_own_window (d : dict RecordingSegment) (s : RecordingSegment) : Prop :=
  exists w, dict_get d (window_id s) = Ok w
            /\ start_time w <= start_time s /\ end_time s <= end_time w.

Definition origin_inv (d : dict RecordingSegment) (k : nat) (st : fill_state) : Prop :=
  Forall (inside_own_window d) (all_segments st)
  /\ current_window_id st ∈ dict_keys d.

(** Every timestamp of the events is one that [parse_snapshot_timestamp]
    converts exactly. *)
Definition exact_events (l : list SessionRecordingEventSummary) : Prop :=
  Forall (fun e => exact_timestamp (timestamp e)) l.

Definition exact_timestamps (m : dict (list SessionRecordingEventSummary)) : Prop :=
  Forall (fun item => exact_events (snd item)) m.

(** ** Concrete inputs *)

(** A JSON text written without escapes: a list holding one string of two
    code points, the lone high surrogate U+D800 and the lone low surrogate
    U+DC00. *)
Definition split_pair_json : pystr := [0x5B; 0x22; 0xD800; 0xDC00; 0x22; 0x5D].

(** A raw event whose data has a top-level key spelled [payload.href] and
    an empty [payload] mapping. *)
Definition dotted_key_event : SnapshotData :=
  {| raw_timestamp := Some 7; raw_type := Some 3;
     raw_data := Some (<["payload.href" := VStr "x"]> (<["payload" := VDict ∅]> ∅)) |}.

(** A mouse-move event (type 3, source 1) and an event that is not active
    (a full snapshot). *)
Definition mouse_move (ts : Z) : SessionRecordingEventSummary :=
  {| timestamp := ts; type := 3; data := {["source" := SInt 1]} |}.

Definition full_snapshot (ts : Z) : SessionRecordingEventSummary :=
  {| timestamp := ts; type := 2; data := ∅ |}.

(** One window with activity at 0 s, 5 s and 30 s. *)
Definition three_moves : list SessionRecordingEventSummary :=
  [mouse_move 0; mouse_move 5000; mouse_move 30000].

(** Two windows, both recorded from 0 s to 30 s: A is active at 0 s, B from
    20 s to 25 s. *)
Definition two_windows : dict (list SessionRecordingEventSummary) :=
  [("A", [mouse_move 0; full_snapshot 10000; full_snapshot 30000]);
   ("B", [full_snapshot 0; mouse_move 20000; mouse_move 25000; full_snapshot 30000])].

(** Two windows whose timelines overlap: A spans 0-10 ms, B spans 5-20 ms. *)
Definition overlapping_windows : dict RecordingSegment :=
  [("A", {| start_time := 0; end_time := 10; window_id := "A"; is_active := false |});
   ("B", {| start_time := 5; end_time := 20; window_id := "B"; is_active := false |})].

(** Two tabs that are both active at 5 ms: A from 0 to 5, B from 5 to 9. *)
Definition two_tabs : dict (list SessionRecordingEventSummary) :=
  [("A", [mouse_move 0; mouse_move 5]); ("B", [mouse_move 5; mouse_move 9])].

(** Window A recorded from 0 to 10 ms and window B from 20 to 30 ms; nothing
    was recorded in between, and no event is active. *)
Definition disjoint_tabs : dict (list SessionRecordingEventSummary) :=
  [("A", [full_snapshot 0; full_snapshot 10]);
   ("B", [full_snapshot 20; full_snapshot 30])].

(** Three clicks (source 2) and two key presses (source 5). *)
Definition interaction (source : Z) (ts : Z) : SessionRecordingEventSummary :=
  {| timestamp := ts; type := 3; data := {["source" := SInt source]} |}.

Definition clicks_and_keys : dict (list SessionRecordingEventSummary) :=
  [("w1", [interaction 2 0; interaction 5 1; interaction 2 2; interaction 5 3;
           interaction 2 4])].

(** A raw event carrying a key outside the inclusion list and a payload with
    one retained and one dropped entry. *)
Definition event_with_secret : SnapshotData :=
  {| raw_timestamp := Some 1; raw_type := Some 3;
     raw_data :=
       Some (<["source" := VInt 1]>
               (<["secret" := VStr "x"]>
                  (<["payload" :=
                       VDict (<["href" := VStr "http://a"]> (<["other" := VInt 1]> ∅))]>
                     ∅))) |}.

(** ** Further predicates *)

(** A summary of type 3 whose data has no [source]. *)
Definition lacks_source (x : SessionRecordingEventSummary) : Prop :=
  type x = 3 /\ data x !! "source" = None.

(** The entry of a raw event's data under [k]; an event without [data] has
    none. *)
Definition raw_entry (event : SnapshotData) (k : string) : option value :=
  (default ∅ (raw_data event) : gmap string value) !! k.

(** A raw incremental snapshot whose source is a float. *)
Definition float_source_event : SnapshotData :=
  {| raw_timestamp := Some 2; raw_type := Some 3;
     raw_data := Some {["source" := VOther true]} |}.

(** The segments of a walk whose cursor starts at [t], when every window
    the walk takes starts at or before [range_end]: a segment starts at or
    after the cursor, does not end before it starts, and ends after the
    cursor and at or before [range_end]. *)
Fixpoint tight_chain (range_end t : datetime) (segs : list RecordingSegment) : Prop :=
  match segs with
  | [] => True
  | s :: rest =>
      t <= start_time s /\ start_time s <= end_time s /\ t < end_time s
      /\ end_time s <= range_end /\ tight_chain range_end (end_time s) rest
  end.

(** A segment ends at most one millisecond before it starts, and an active
    one does not end before it starts. *)
Definition well_shaped (s : RecordingSegment) : Prop :=
  start_time s <= end_time s + 1 /\ (is_active s = true -> start_time s <= end_time s).

(** What the gap-filling loop maintains about the order of the segments,
    once the active segments [processed] are handled. *)
Definition order_inv (d : dict RecordingSegment)
    (processed : list RecordingSegment) (st : fill_state) : Prop :=
  Sorted (key_le start_time) (all_segments st)
  /\ Forall well_shaped (all_segments st)
  /\ last (all_segments st) = last processed
  /\ (forall a, last processed = Some a -> start_time a <= current_timestamp st)
  /\ (exists p, dict_get d (current_window_id st) = Ok p
                /\ start_time p <= current_timestamp st).

(** Two windows whose first activity is one millisecond apart. *)
Definition one_ms_apart : dict (list SessionRecordingEventSummary) :=
  [("A", [mouse_move 0; full_snapshot 100]); ("B", [mouse_move 1; full_snapshot 100])].

(** A UTF-16 code unit. *)
Definition is_utf16_unit (u : Z) : Prop := 0 <= u < 0x10000.

(** What the gap-filling loop maintains about the active segments, once the
    active segments [processed] are handled. *)
Definition active_kept_inv (d : dict RecordingSegment)
    (processed : list RecordingSegment) (st : fill_state) : Prop :=
  List.filter is_active (all_segments st) = processed
  /\ current_window_id st ∈ dict_keys d.

(** * Properties *)

(** ** [is_active_event] *)

Lemma svalue_in_true (v : option svalue) (l : list Z) :
  svalue_in v l = true <-> exists z, v = Some (SInt z) /\ z ∈ l.
Proof.
  unfold svalue_in. split.
  - destruct v as [[s|z|d]|]; try discriminate.
    intros H. exists z. split; [reflexivity|]. by apply bool_decide_eq_true in H.
  - intros (z & -> & Hz). by apply bool_decide_eq_true.
Qed.

(** C9: [is_active_event e] holds exactly when [e] has type 3 and its
    [source] is one of the integers 1, 2, 3, 4, 5, 6, 7, 12.  Sources 8
    (StyleSheetRule) and 9 (CanvasMutation) are not active; source 12 is
    active although the enumeration gives [Drag] the value 1; a summary
    without a [source] entry is not active. *)
Theorem is_active_event_spec (e : SessionRecordingEventSummary) :
  (is_active_event e = true <->
     type e = 3 /\
     exists z, data e !! "source" = Some (SInt z) /\ z ∈ [1; 2; 3; 4; 5; 6; 7; 12]) /\
  (data e !! "source" = Some (SInt RRWEB_MAP_EVENT_DATA_SOURCE.StyleSheetRule) ->
     is_active_event e = false) /\
  (data e !! "source" = Some (SInt RRWEB_MAP_EVENT_DATA_SOURCE.CanvasMutation) ->
     is_active_event e = false) /\
  (type e = 3 -> data e !! "source" = Some (SInt 12) -> is_active_event e = true) /\
  RRWEB_MAP_EVENT_DATA_SOURCE.Drag = 1 /\
  (data e !! "source" = None -> is_active_event e = false).
Proof.
  unfold is_active_event.
  split; [|repeat split].
  - rewrite andb_true_iff, Z.eqb_eq, svalue_in_true. reflexivity.
  - intros ->. apply andb_false_r.
  - intros ->. apply andb_false_r.
  - intros -> ->. reflexivity.
  - intros ->. apply andb_false_r.
Qed.

(** ** Counts and duration of [get_metadata_from_events_summary] *)

Lemma filter_r_total (n : Z) (l : list SessionRecordingEventSummary) :
  Forall has_source_when_type3 l ->
  rmap (@length _) (filter_r (is_type3_with_source n) l) = Ok (count_type3_source n l).
Proof.
  unfold count_type3_source.
  induction 1 as [|x l Hx _ IH]; [reflexivity|].
  cbn [filter_r List.filter]. unfold is_type3_with_source at 1.
  destruct (filter_r (is_type3_with_source n) l) as [rest|]; [|discriminate].
  cbn in IH. injection IH as IH.
  destruct (type x =? 3) eqn:Ht; cbn.
  - apply Z.eqb_eq in Ht. destruct (Hx Ht) as [v Hv]. rewrite Hv.
    destruct v as [s|z|d]; cbn; try (by rewrite IH).
    destruct (z =? n); cbn; by rewrite IH.
  - by rewrite IH.
Qed.

(** C6, at the failing input: one window holding one summary of type 3
    whose data has no [source].  The segments are computed, then the click
    count raises [KeyError]. *)
Theorem click_count_raises_without_source :
  let m := [("w1", [ {| timestamp := 0; type := 3; data := ∅ |} ])] in
  recording_segments m
    = Ok ([], [("w1", {| start_time := 0; end_time := 0;
                         window_id := "w1"; is_active := false |})], 0, 0)
  /\ is_active_event {| timestamp := 0; type := 3; data := ∅ |} = false
  /\ get_metadata_from_events_summary m = Raise KeyError.
Proof. repeat split. Qed.

(** C7, at the failing input: one window whose two summaries are exactly one
    day apart.  86400 whole seconds elapse and [duration] is 0. *)
Theorem duration_drops_whole_days :
  let e (ts : Z) := {| timestamp := ts; type := 2; data := ∅ |} in
  let m := [("w1", [e 0; e 86400000])] in
  rmap (fun md => (RecordingMetadata.start_time md, RecordingMetadata.end_time md,
                   RecordingMetadata.duration md))
       (get_metadata_from_events_summary m)
    = Ok (0, 86400000, 0)
  /\ (86400000 - 0) / 1000 = 86400.
Proof. split; reflexivity. Qed.

(** ** Round trip of [compress_to_string] and [decompress] *)

Lemma units_of_bytes_le (us : list Z) :
  units_of_bytes false (flat_map unit_bytes_le us) = Ok us.
Proof.
  induction us as [|u us IH]; [reflexivity|].
  cbn [flat_map unit_bytes_le app units_of_bytes]. rewrite IH. cbn [rbind].
  f_equal. f_equal. pose proof (Z.div_mod u 256). lia.
Qed.

Lemma surrogate_ranges (u : Z) :
  (is_high_surrogate u = true <-> 0xD800 <= u <= 0xDBFF) /\
  (is_low_surrogate u = true <-> 0xDC00 <= u <= 0xDFFF).
Proof. unfold is_high_surrogate, is_low_surrogate. rewrite !andb_true_iff, !Z.leb_le. tauto. Qed.

Lemma first_unit_low (d : Z) (s : pystr) (v : Z) (us : list Z) :
  is_code_point d ->
  flat_map utf16_units (d :: s) = v :: us ->
  is_low_surrogate v = true -> v = d.
Proof.
  intros Hd Heq Hlow. cbn [flat_map] in Heq. unfold utf16_units in Heq.
  destruct (d <? 65536) eqn:Hlt.
  - cbn in Heq. congruence.
  - exfalso. cbn [app] in Heq. injection Heq as Hv _.
    apply Z.ltb_ge in Hlt. apply surrogate_ranges in Hlow.
    unfold is_code_point in Hd.
    assert ((d - 65536) / 1024 < 1024) by (apply Z.div_lt_upper_bound; lia).
    assert (0 <= (d - 65536) / 1024) by (apply Z.div_pos; lia).
    lia.
Qed.

Lemma decode_units_supplementary (c : Z) (us : list Z) :
  0x10000 <= c <= 0x10FFFF ->
  decode_units (utf16_units c ++ us) = c :: decode_units us.
Proof.
  intros Hc. unfold utf16_units.
  destruct (c <? 65536) eqn:Hlt; [apply Z.ltb_lt in Hlt; lia|].
  pose proof (Z.div_mod (c - 65536) 1024).
  pose proof (Z.mod_pos_bound (c - 65536) 1024).
  assert ((c - 65536) / 1024 < 1024) by (apply Z.div_lt_upper_bound; lia).
  assert (0 <= (c - 65536) / 1024) by (apply Z.div_pos; lia).
  cbn [app decode_units].
  replace (is_high_surrogate (55296 + (c - 65536) / 1024)) with true
    by (symmetry; apply surrogate_ranges; lia).
  replace (is_low_surrogate (56320 + (c - 65536) mod 1024)) with true
    by (symmetry; apply surrogate_ranges; lia).
  f_equal. lia.
Qed.

Lemma decode_units_encode (s : pystr) :
  Forall is_code_point s ->
  no_surrogate_pair s = true ->
  decode_units (flat_map utf16_units s) = s.
Proof.
  induction 1 as [|c rest Hc Hrest IH]; [reflexivity|].
  intros Hpair. cbn [no_surrogate_pair] in Hpair.
  apply andb_true_iff in Hpair as [Hhead Htail]. specialize (IH Htail).
  cbn [flat_map].
  destruct (Z.lt_ge_cases c 0x10000) as [Hbmp|Hsup].
  - unfold utf16_units at 1.
    replace (c <? 65536) with true by (symmetry; apply Z.ltb_lt; lia).
    cbn [app decode_units].
    destruct (is_high_surrogate c) eqn:Hhigh; [|by rewrite IH].
    destruct (flat_map utf16_units rest) as [|v us] eqn:Hunits.
    + destruct rest as [|d rest']; [reflexivity|].
      exfalso. cbn [flat_map] in Hunits. unfold utf16_units in Hunits.
      destruct (d <? 65536); discriminate.
    + destruct (is_low_surrogate v) eqn:Hlow; [|by rewrite IH].
      exfalso. destruct rest as [|d rest']; [discriminate|].
      inversion Hrest as [|? ? Hd _]; subst.
      rewrite (first_unit_low d rest' v us Hd Hunits Hlow) in Hlow.
      rewrite Hlow in Hhead. discriminate.
  - rewrite decode_units_supplementary by (unfold is_code_point in Hc; lia).
    by rewrite IH.
Qed.

Lemma decode_encode_utf16 (s : pystr) :
  Forall is_code_point s ->
  no_surrogate_pair s = true ->
  decode_utf16_surrogatepass (encode_utf16_surrogatepass s) = Ok s.
Proof.
  intros Hs Hpair. unfold encode_utf16_surrogatepass, decode_utf16_surrogatepass.
  cbn [app]. rewrite units_of_bytes_le. cbn [rbind].
  by rewrite decode_units_encode.
Qed.

Lemma decompress_compress_to_string `{StdlibCodecs} (now : Z) (s : pystr) :
  decompress (compress_to_string now s)
    = decode_utf16_surrogatepass (encode_utf16_surrogatepass s).
Proof.
  unfold decompress, compress_to_string.
  rewrite b64decode_b64encode. cbn [rbind].
  rewrite gzip_decompress_compress. reflexivity.
Qed.

(** C5, as stated, fails: the two surrogates of [split_pair_json] come back
    as the single code point U+10000, whatever the gzip and base64 codecs
    and the time of the call. *)
Lemma round_trip_joins_surrogates :
  Forall is_code_point split_pair_json /\
  (forall (C : StdlibCodecs) (now : Z),
     @decompress C (@compress_to_string C now split_pair_json)
       = Ok [0x5B; 0x22; 0x10000; 0x22; 0x5D]) /\
  [0x5B; 0x22; 0x10000; 0x22; 0x5D] <> split_pair_json.
Proof.
  split; [|split].
  - unfold split_pair_json, is_code_point. repeat constructor; lia.
  - intros C now. rewrite decompress_compress_to_string. reflexivity.
  - discriminate.
Qed.

(** C5, amended: for a string of code points in which no high surrogate is
    directly followed by a low surrogate, [decompress (compress_to_string s)]
    returns [s], at whatever time the string is compressed; lone surrogates
    are preserved. *)
Theorem decompress_compress_round_trip `{StdlibCodecs} (now : Z) (s : pystr) :
  Forall is_code_point s ->
  no_surrogate_pair s = true ->
  decompress (compress_to_string now s) = Ok s.
Proof.
  intros Hs Hpair. rewrite decompress_compress_to_string.
  by apply decode_encode_utf16.
Qed.

Lemma decompress_compress_round_trip_witness :
  Forall is_code_point [0x5B; 0x22; 0xDC00; 0x41; 0xD800; 0x1F600; 0x22; 0x5D] /\
  no_surrogate_pair [0x5B; 0x22; 0xDC00; 0x41; 0xD800; 0x1F600; 0x22; 0x5D] = true /\
  @decompress stored_codecs
    (@compress_to_string stored_codecs 1700000000
       [0x5B; 0x22; 0xDC00; 0x41; 0xD800; 0x1F600; 0x22; 0x5D])
    = Ok [0x5B; 0x22; 0xDC00; 0x41; 0xD800; 0x1F600; 0x22; 0x5D].
Proof.
  assert (Hs : Forall is_code_point
                 [0x5B; 0x22; 0xDC00; 0x41; 0xD800; 0x1F600; 0x22; 0x5D])
    by (unfold is_code_point; repeat constructor; lia).
  split; [exact Hs|]. split; [reflexivity|].
  exact (@decompress_compress_round_trip stored_codecs 1700000000 _ Hs eq_refl).
Defined.

(** ** The stable sort *)

Section sorted_by.
Context {A : Type} (key : A -> Z).

Lemma sorted_by_cons (x : A) (l : list A) :
  sorted_by key (x :: l) = insert_by key x (sorted_by key l).
Proof. reflexivity. Qed.

Lemma insert_by_perm (x : A) (l : list A) : insert_by key x l ≡ₚ x :: l.
Proof.
  induction l as [|y l IH]; [reflexivity|]. cbn.
  destruct (key x <=? key y); [reflexivity|].
  rewrite IH. apply perm_swap.
Qed.

Lemma sorted_by_perm (l : list A) : sorted_by key l ≡ₚ l.
Proof.
  induction l as [|x l IH]; [reflexivity|].
  rewrite sorted_by_cons, insert_by_perm. by rewrite IH.
Qed.

Lemma sorted_by_elem_of (x : A) (l : list A) : x ∈ sorted_by key l <-> x ∈ l.
Proof. by rewrite sorted_by_perm. Qed.

Lemma insert_by_sorted (x : A) (l : list A) :
  StronglySorted (key_le key) l -> StronglySorted (key_le key) (insert_by key x l).
Proof.
  induction 1 as [|y l Hl IH Hy]; cbn.
  - repeat constructor.
  - destruct (key x <=? key y) eqn:Hxy.
    + apply Z.leb_le in Hxy. constructor; [by constructor|].
      constructor; [exact Hxy|].
      eapply Forall_impl; [exact Hy|]. unfold key_le. intros z. lia.
    + apply Z.leb_gt in Hxy. constructor; [exact IH|].
      rewrite insert_by_perm. constructor; [unfold key_le; lia|exact Hy].
Qed.

Lemma sorted_by_sorted (l : list A) : StronglySorted (key_le key) (sorted_by key l).
Proof.
  induction l as [|x l IH]; [constructor|].
  rewrite sorted_by_cons. by apply insert_by_sorted.
Qed.

Lemma insert_by_already_sorted (x : A) (l : list A) :
  Forall (key_le key x) l -> insert_by key x l = x :: l.
Proof.
  destruct 1 as [|y l Hy _]; [reflexivity|]. cbn.
  unfold key_le in Hy. by replace (key x <=? key y) with true by (symmetry; lia).
Qed.

Lemma sorted_by_already_sorted (l : list A) :
  StronglySorted (key_le key) l -> sorted_by key l = l.
Proof.
  induction 1 as [|x l _ IH Hx]; [reflexivity|].
  rewrite sorted_by_cons, IH. by apply insert_by_already_sorted.
Qed.

End sorted_by.

(** The sort is stable: elements with the same key keep their order. *)
Lemma insert_by_filter_key {A : Type} (key : A -> Z) (t : Z) (x : A) (l : list A) :
  List.filter (fun y => key y =? t) (insert_by key x l)
  = List.filter (fun y => key y =? t) (x :: l).
Proof.
  induction l as [|y l IH]; [reflexivity|]. cbn [insert_by].
  destruct (key x <=? key y) eqn:Hxy; [reflexivity|]. apply Z.leb_gt in Hxy.
  cbn [List.filter] in *. rewrite IH.
  destruct (key y =? t) eqn:Hy, (key x =? t) eqn:Hx; try reflexivity.
  apply Z.eqb_eq in Hy, Hx. lia.
Qed.

Lemma sorted_by_filter_key {A : Type} (key : A -> Z) (t : Z) (l : list A) :
  List.filter (fun y => key y =? t) (sorted_by key l)
  = List.filter (fun y => key y =? t) l.
Proof.
  induction l as [|x l IH]; [reflexivity|].
  rewrite sorted_by_cons, insert_by_filter_key. cbn [List.filter]. by rewrite IH.
Qed.

(** ** Timestamps of the concrete inputs *)

(** Concrete timestamps that [parse_snapshot_timestamp] converts exactly. *)
Ltac exact_ts :=
  unfold exact_timestamps, exact_events, exact_timestamp;
  repeat first [apply List.Forall_nil | apply List.Forall_cons]; cbn; lia.

Lemma two_windows_exact : exact_timestamps two_windows.
Proof. exact_ts. Defined.

(** ** [get_events_summary_from_snapshot_data] *)

Lemma summary_loop_omap (snapshot_data : list SnapshotData)
    (acc : list SessionRecordingEventSummary) :
  fold_left summary_loop_body snapshot_data acc = acc ++ omap summary_of snapshot_data.
Proof.
  revert acc. induction snapshot_data as [|event l IH]; intros acc; cbn [fold_left].
  - by rewrite app_nil_r.
  - rewrite IH. unfold summary_loop_body, summary_of. cbn [omap list_omap].
    destruct (raw_timestamp event), (raw_type event); try reflexivity.
    by rewrite <- app_assoc.
Qed.

Lemma payload_key_included (k : string) :
  ("payload." ++ k)%string ∈ EVENT_SUMMARY_DATA_INCLUSIONS <-> k = "href" \/ k = "level".
Proof.
  unfold EVENT_SUMMARY_DATA_INCLUSIONS. rewrite !elem_of_cons, elem_of_nil.
  split.
  - intros [H|[H|[H|[H|[H|[H|[H|[H|[H|[]]]]]]]]]];
      cbv [String.append String.app] in H; try discriminate H.
    + left. by simplify_eq.
    + right. by simplify_eq.
  - intros [->| ->]; tauto.
Qed.

Lemma payload_not_included : "payload" ∉ EVENT_SUMMARY_DATA_INCLUSIONS.
Proof.
  unfold EVENT_SUMMARY_DATA_INCLUSIONS. rewrite !elem_of_cons, elem_of_nil.
  intros [H|[H|[H|[H|[H|[H|[H|[H|[H|[]]]]]]]]]]; discriminate H.
Qed.

Lemma top_level_item_spec (k : string) (v : value) :
  top_level_item k v
    = if bool_decide (k ∈ EVENT_SUMMARY_DATA_INCLUSIONS) then svalue_of v else None.
Proof. unfold top_level_item, svalue_of. destruct v; by case_bool_decide. Qed.

Lemma payload_item_spec (k : string) (v : value) :
  payload_item k v = if bool_decide (k ∈ ["href"; "level"]) then scalar_of v else None.
Proof.
  unfold payload_item, scalar_of.
  assert (bool_decide (("payload." ++ k)%string ∈ EVENT_SUMMARY_DATA_INCLUSIONS)
          = bool_decide (k ∈ ["href"; "level"])) as ->.
  { apply bool_decide_ext. rewrite payload_key_included.
    rewrite !elem_of_cons, elem_of_nil. tauto. }
  destruct v; by case_bool_decide.
Qed.

Lemma summary_data_top_level (event : SnapshotData) (k : string) :
  k <> "payload" ->
  summary_data event !! k
    = (default ∅ (raw_data event) : gmap string value) !! k
        ≫= (fun v => if bool_decide (k ∈ EVENT_SUMMARY_DATA_INCLUSIONS)
                      then svalue_of v else None).
Proof.
  intros Hk. unfold summary_data.
  set (d := default ∅ (raw_data event)).
  assert (map_imap top_level_item d !! k
          = d !! k ≫= (fun v => if bool_decide (k ∈ EVENT_SUMMARY_DATA_INCLUSIONS)
                                 then svalue_of v else None)) as Htop.
  { rewrite map_lookup_imap. destruct (d !! k); [|reflexivity].
    apply top_level_item_spec. }
  destruct (d !! "payload") as [p|]; [|exact Htop].
  destruct (truthy p); [|exact Htop].
  destruct p; try exact Htop.
  by rewrite lookup_insert_ne.
Qed.

Lemma summary_data_payload (event : SnapshotData) (payload : gmap string value) :
  (default ∅ (raw_data event) : gmap string value) !! "payload" = Some (VDict payload) ->
  payload <> ∅ ->
  summary_data event !! "payload" = Some (SDict (map_imap payload_item payload)).
Proof.
  intros Hp Hne. unfold summary_data. rewrite Hp. cbn [truthy].
  apply map_size_non_empty_iff in Hne.
  replace (size payload =? 0)%nat with false by (symmetry; by apply Nat.eqb_neq).
  cbn [negb]. apply lookup_insert_eq.
Qed.

Lemma summary_data_no_payload (event : SnapshotData) :
  (forall payload,
     (default ∅ (raw_data event) : gmap string value) !! "payload" = Some (VDict payload) ->
     payload = ∅) ->
  summary_data event !! "payload" = None.
Proof.
  intros Hp. unfold summary_data.
  set (d := default ∅ (raw_data event)) in *.
  assert (map_imap top_level_item d !! "payload" = None) as Htop.
  { rewrite map_lookup_imap. destruct (d !! "payload"); [|reflexivity].
    cbn. rewrite top_level_item_spec.
    rewrite bool_decide_eq_false_2; [reflexivity|apply payload_not_included]. }
  destruct (d !! "payload") as [p|] eqn:Hd; [|exact Htop].
  destruct p as [s|z|payload|b]; cbn [truthy].
  - by destruct (negb _).
  - by destruct (negb _).
  - rewrite (Hp payload eq_refl). rewrite map_size_empty. exact Htop.
  - by destruct b.
Qed.

(** C8, as stated, fails on [dotted_key_event]: the summary keeps the
    top-level entry [payload.href], which is not one of the seven top-level
    keys, and has no [payload] entry although [data.payload] is a mapping. *)
Lemma summary_keeps_dotted_key_drops_empty_payload :
  get_events_summary_from_snapshot_data [dotted_key_event]
    = [ {| timestamp := 7; type := 3; data := summary_data dotted_key_event |} ]
  /\ summary_data dotted_key_event !! "payload.href" = Some (SStr "x")
  /\ spec_summary_data dotted_key_event !! "payload.href" = None
  /\ summary_data dotted_key_event !! "payload" = None
  /\ spec_summary_data dotted_key_event !! "payload" = Some (SDict ∅)
  /\ summary_data dotted_key_event <> spec_summary_data dotted_key_event.
Proof.
  assert (summary_data dotted_key_event !! "payload.href" = Some (SStr "x")) as H1
    by (vm_compute; reflexivity).
  assert (spec_summary_data dotted_key_event !! "payload.href" = None) as H2
    by (vm_compute; reflexivity).
  assert (summary_data dotted_key_event <> spec_summary_data dotted_key_event) as H3
    by (intros Heq; rewrite Heq in H1; congruence).
  repeat split; assumption.
Qed.

(** C8, amended: the result is sorted by timestamp and holds exactly the
    summaries of the input events that have both a [timestamp] and a [type];
    a summary's data keeps, under every key other than [payload], the string
    or integer entry of the event's data when the key is in
    [EVENT_SUMMARY_DATA_INCLUSIONS] (the seven top-level names and the two
    dotted names), and has a [payload] entry exactly when [data.payload] is a
    non-empty mapping, holding its string or integer entries under [href]
    and [level]. *)
Theorem get_events_summary_from_snapshot_data_spec (snapshot_data : list SnapshotData) :
  let out := get_events_summary_from_snapshot_data snapshot_data in
  Sorted (fun a b => timestamp a <= timestamp b) out
  /\ out ≡ₚ omap summary_of snapshot_data
  /\ (forall event,
        match summary_of event with
        | Some s =>
            raw_timestamp event = Some (timestamp s) /\ raw_type event = Some (type s)
            /\ data s = summary_data event
        | None => raw_timestamp event = None \/ raw_type event = None
        end)
  /\ (forall event k,
        k <> "payload" ->
        summary_data event !! k
          = (default ∅ (raw_data event) : gmap string value) !! k
              ≫= (fun v => if bool_decide (k ∈ EVENT_SUMMARY_DATA_INCLUSIONS)
                            then svalue_of v else None))
  /\ (forall event payload,
        (default ∅ (raw_data event) : gmap string value) !! "payload"
          = Some (VDict payload) ->
        payload <> ∅ ->
        exists kept,
          summary_data event !! "payload" = Some (SDict kept)
          /\ forall k, kept !! k
                       = payload !! k
                           ≫= (fun v => if bool_decide (k ∈ ["href"; "level"])
                                         then scalar_of v else None))
  /\ (forall event,
        (forall payload,
           (default ∅ (raw_data event) : gmap string value) !! "payload"
             = Some (VDict payload) -> payload = ∅) ->
        summary_data event !! "payload" = None).
Proof.
  cbv zeta. unfold get_events_summary_from_snapshot_data.
  rewrite summary_loop_omap, app_nil_l.
  split; [|split; [|split; [|split; [|split]]]].
  - apply StronglySorted_Sorted. apply (sorted_by_sorted timestamp).
  - apply sorted_by_perm.
  - intros event. unfold summary_of.
    destruct (raw_timestamp event), (raw_type event); cbn; auto.
  - apply summary_data_top_level.
  - intros event payload Hp Hne. eexists. split.
    + by apply summary_data_payload.
    + intros k. rewrite map_lookup_imap.
      destruct (payload !! k); [|reflexivity]. apply payload_item_spec.
  - apply summary_data_no_payload.
Qed.

(** ** [get_active_segments_from_event_list] *)

Lemma StronglySorted_snoc_inv {A : Type} (R : A -> A -> Prop) (l : list A) (x : A) :
  StronglySorted R (l ++ [x]) -> Forall (fun y => R y x) l.
Proof.
  induction l as [|y l IH]; [constructor|].
  cbn [app]. intros H. apply StronglySorted_inv in H as [H Hy].
  constructor; [|by apply IH].
  rewrite Forall_forall in Hy. apply Hy. apply elem_of_app. right. by left.
Qed.

Section active_walk.
Context (wid : WindowId) (thr : Z).

(** The steps of the reference walk are the updates the code makes. *)
Lemma spec_walk_active_cons (cur : RecordingSegment) (t : Z) (ts : list Z) :
  spec_walk_active wid thr cur (t :: ts)
  = if t - end_time cur <=? 1000 * thr
    then spec_walk_active wid thr (set_end_time cur t) ts
    else cur :: spec_walk_active wid thr (new_active_segment t wid) ts.
Proof. reflexivity. Qed.

Lemma spec_active_segments_unfold (event_list : list SessionRecordingEventSummary) :
  spec_active_segments event_list wid thr
  = match map timestamp (List.filter is_active_event event_list) with
    | [] => []
    | t :: rest => spec_walk_active wid thr (new_active_segment t wid) rest
    end.
Proof. reflexivity. Qed.

Lemma spec_walk_active_head (cur : RecordingSegment) (ts : list Z) :
  exists s rest, spec_walk_active wid thr cur ts = s :: rest
                 /\ start_time s = start_time cur.
Proof.
  revert cur. induction ts as [|t ts IH]; intros cur;
    [cbn [spec_walk_active]|rewrite spec_walk_active_cons].
  - by exists cur, [].
  - destruct (t - end_time cur <=? 1000 * thr).
    + destruct (IH (set_end_time cur t)) as (s & rest & -> & Hs). by exists s, rest.
    + by eexists _, _.
Qed.

Lemma spec_walk_active_gaps (cur : RecordingSegment) (ts : list Z) :
  Sorted (gap_after thr) (spec_walk_active wid thr cur ts).
Proof.
  revert cur. induction ts as [|t ts IH]; intros cur;
    [cbn [spec_walk_active]|rewrite spec_walk_active_cons].
  - repeat constructor.
  - destruct (t - end_time cur <=? 1000 * thr) eqn:Hgap; [apply IH|].
    constructor; [apply IH|].
    destruct (spec_walk_active_head (new_active_segment t wid) ts) as (s & rest & -> & Hs).
    constructor. unfold gap_after, timedelta_seconds. rewrite Hs. cbn.
    apply Z.leb_gt in Hgap. lia.
Qed.

Lemma spec_walk_active_members (cur : RecordingSegment) (ts : list Z) :
  is_active cur = true -> window_id cur = wid ->
  start_time cur <= end_time cur ->
  Forall (fun t => end_time cur <= t) ts ->
  StronglySorted Z.le ts ->
  Forall (fun s => is_active s = true /\ window_id s = wid
                   /\ start_time s <= end_time s
                   /\ (start_time s = start_time cur \/ start_time s ∈ ts)
                   /\ (end_time s = end_time cur \/ end_time s ∈ ts))
         (spec_walk_active wid thr cur ts).
Proof.
  revert cur. induction ts as [|t ts IH]; intros cur Hact Hwid Hle Hall Hsorted;
    [cbn [spec_walk_active]|rewrite spec_walk_active_cons].
  - repeat constructor; auto.
  - apply Forall_cons in Hall as [Ht Hall].
    apply StronglySorted_inv in Hsorted as [Hsorted Htl].
    destruct (t - end_time cur <=? 1000 * thr).
    + eapply Forall_impl.
      * apply (IH (set_end_time cur t)); cbn; auto. lia.
      * cbn. intros s (? & ? & ? & Hs & He). repeat split; auto.
        -- destruct Hs; [by left|right; by apply elem_of_cons; right].
        -- right. apply elem_of_cons. destruct He as [->|]; auto.
    + constructor; [repeat split; auto|].
      eapply Forall_impl.
      * apply (IH (new_active_segment t wid)); cbn; auto. lia.
      * cbn. intros s (? & ? & ? & Hs & He). repeat split; auto.
        -- right. apply elem_of_cons. destruct Hs as [->|]; auto.
        -- right. apply elem_of_cons. destruct He as [->|]; auto.
Qed.

Lemma active_loop_from_open (ts : list Z) (acc : list RecordingSegment)
    (cur : RecordingSegment) :
  exists closed final,
    spec_walk_active wid thr cur ts = closed ++ [final]
    /\ fold_left (active_loop_body wid thr) ts (acc, Some cur)
        = (acc ++ closed, Some final).
Proof.
  revert acc cur. induction ts as [|t ts IH]; intros acc cur;
    [cbn [spec_walk_active fold_left]|rewrite spec_walk_active_cons; cbn [fold_left]].
  - exists [], cur. by rewrite app_nil_r.
  - unfold active_loop_body at 2. cbn [fst snd].
    unfold parse_snapshot_timestamp, timedelta_seconds.
    destruct (t - end_time cur <=? 1000 * thr).
    + apply IH.
    + destruct (IH (acc ++ [cur]) (new_active_segment t wid))
        as (closed & final & -> & ->).
      exists (cur :: closed), final. split; [reflexivity|].
      by rewrite <- app_assoc.
Qed.

Lemma gaps_ascending (l : list RecordingSegment) :
  0 <= thr ->
  Sorted (gap_after thr) l ->
  Forall (fun s => start_time s <= end_time s) l ->
  StronglySorted starts_before l.
Proof.
  intros Hthr Hgap Hall.
  apply Sorted_StronglySorted; [intros a b c; unfold starts_before; lia|].
  induction Hgap as [|s l _ IH Hhd]; [constructor|].
  apply Forall_cons in Hall as [Hs Hall].
  constructor; [by apply IH|].
  destruct Hhd as [|s' l Hgap]; constructor.
  unfold gap_after, timedelta_seconds in Hgap. unfold starts_before. lia.
Qed.

End active_walk.

Lemma active_timestamps_sorted (event_list : list SessionRecordingEventSummary) :
  sorted_by_timestamp event_list ->
  StronglySorted Z.le (map timestamp (List.filter is_active_event event_list)).
Proof.
  intros Hsorted. apply Sorted_StronglySorted in Hsorted; [|intros a b c; lia].
  induction Hsorted as [|e l _ IH He]; [constructor|].
  cbn [List.filter]. destruct (is_active_event e); [|exact IH].
  cbn [map]. constructor; [exact IH|].
  apply Forall_forall. intros t Ht. apply list_elem_of_In, in_map_iff in Ht.
  destruct Ht as (e' & <- & He'). apply filter_In in He' as [He' _].
  rewrite Forall_forall in He. apply He. by apply list_elem_of_In.
Qed.

Lemma get_active_segments_eq (event_list : list SessionRecordingEventSummary)
    (wid : WindowId) (thr : Z) :
  sorted_by_timestamp event_list ->
  0 <= thr ->
  get_active_segments_from_event_list event_list wid thr
    = spec_active_segments event_list wid thr.
Proof.
  intros Hsorted Hthr. pose proof (active_timestamps_sorted _ Hsorted) as Hts.
  rewrite spec_active_segments_unfold. unfold get_active_segments_from_event_list.
  destruct (map timestamp (List.filter is_active_event event_list)) as [|t ts];
    [reflexivity|].
  cbn [fold_left].
  change (active_loop_body wid thr ([], None) t)
    with (@nil RecordingSegment, Some (new_active_segment t wid)).
  destruct (active_loop_from_open wid thr ts [] (new_active_segment t wid))
    as (closed & final & Hwalk & ->).
  cbn [fst snd app]. rewrite Hwalk.
  apply StronglySorted_inv in Hts as [Hts Hhd].
  assert (StronglySorted starts_before (closed ++ [final])) as Hasc.
  { rewrite <- Hwalk. apply (gaps_ascending thr); [exact Hthr| |].
    - apply spec_walk_active_gaps.
    - eapply Forall_impl;
        [apply (spec_walk_active_members wid thr (new_active_segment t wid) ts);
         cbn; auto; lia|].
      cbn. tauto. }
  destruct (last closed) as [l|] eqn:Hlast.
  - assert (l <> final) as Hne.
    { intros ->. apply last_Some in Hlast as [closed' ->].
      apply StronglySorted_snoc_inv in Hasc.
      apply Forall_app in Hasc as [_ Hasc].
      apply Forall_cons in Hasc as [Hasc _]. unfold starts_before in Hasc. lia. }
    rewrite bool_decide_eq_true_2 by congruence.
    by rewrite orb_true_r.
  - apply last_None in Hlast as ->. reflexivity.
Qed.

Lemma spec_active_segments_members (event_list : list SessionRecordingEventSummary)
    (wid : WindowId) (thr : Z) :
  sorted_by_timestamp event_list ->
  Forall (fun s => is_active s = true /\ window_id s = wid
                   /\ start_time s <= end_time s
                   /\ start_time s ∈ map timestamp (List.filter is_active_event event_list)
                   /\ end_time s ∈ map timestamp (List.filter is_active_event event_list))
         (spec_active_segments event_list wid thr).
Proof.
  intros Hsorted. pose proof (active_timestamps_sorted _ Hsorted) as Hts.
  unfold spec_active_segments.
  destruct (map timestamp (List.filter is_active_event event_list)) as [|t ts];
    [constructor|].
  apply StronglySorted_inv in Hts as [Hts Hhd].
  eapply Forall_impl;
    [apply (spec_walk_active_members wid thr (new_active_segment t wid) ts);
     cbn; auto; lia|].
  cbn. intros s (? & ? & ? & Hs & He). repeat split; auto.
  - apply elem_of_cons. destruct Hs; auto.
  - apply elem_of_cons. destruct He; auto.
Qed.

Lemma spec_active_segments_gaps (event_list : list SessionRecordingEventSummary)
    (wid : WindowId) (thr : Z) :
  Sorted (gap_after thr) (spec_active_segments event_list wid thr).
Proof.
  unfold spec_active_segments.
  destruct (map timestamp (List.filter is_active_event event_list)) as [|t ts];
    [constructor|apply spec_walk_active_gaps].
Qed.

(** C4: on a list sorted by timestamp whose timestamps are converted
    exactly, and for a threshold that is not negative,
    [get_active_segments_from_event_list] returns the segments of
    the walk over the active timestamps: a timestamp at most the threshold
    after the open segment's end extends it, any other closes it and opens a
    segment starting and ending there, and the last open segment is
    appended.  Without active events the result is empty; with one it is a
    single segment of zero duration. *)
Theorem get_active_segments_from_event_list_walk
    (event_list : list SessionRecordingEventSummary) (wid : WindowId) (thr : Z) :
  sorted_by_timestamp event_list ->
  exact_events event_list ->
  0 <= thr ->
  get_active_segments_from_event_list event_list wid thr
    = spec_active_segments event_list wid thr
  /\ (List.filter is_active_event event_list = [] ->
      get_active_segments_from_event_list event_list wid thr = [])
  /\ (forall e, List.filter is_active_event event_list = [e] ->
      get_active_segments_from_event_list event_list wid thr
        = [ {| start_time := timestamp e; end_time := timestamp e;
               window_id := wid; is_active := true |} ]).
Proof.
  intros Hsorted _ Hthr. rewrite (get_active_segments_eq _ _ _ Hsorted Hthr).
  unfold spec_active_segments. repeat split.
  - by intros ->.
  - by intros e ->.
Qed.

Lemma get_active_segments_from_event_list_walk_witness :
  get_active_segments_from_event_list three_moves "w1" 10
    = spec_active_segments three_moves "w1" 10
  /\ (List.filter is_active_event three_moves = [] ->
      get_active_segments_from_event_list three_moves "w1" 10 = [])
  /\ (forall e, List.filter is_active_event three_moves = [e] ->
      get_active_segments_from_event_list three_moves "w1" 10
        = [ {| start_time := timestamp e; end_time := timestamp e;
               window_id := "w1"; is_active := true |} ]).
Proof.
  apply (get_active_segments_from_event_list_walk three_moves "w1" 10).
  - repeat constructor; cbn; lia.
  - exact_ts.
  - lia.
Defined.

(** The walk on [three_moves]: the first two events merge, the third
    opens a segment of its own. *)
Lemma three_moves_segments :
  get_active_segments_from_event_list three_moves "w1" ACTIVITY_THRESHOLD_SECONDS
    = [ {| start_time := 0; end_time := 5000; window_id := "w1"; is_active := true |};
        {| start_time := 30000; end_time := 30000; window_id := "w1";
           is_active := true |} ].
Proof. reflexivity. Qed.

(** With a negative threshold two events at the same instant open two equal
    segments, and the final comparison with the last appended segment keeps
    the second one out. *)
Lemma negative_threshold_keeps_one_segment :
  get_active_segments_from_event_list [mouse_move 0; mouse_move 0] "w1" (-1)
    = [new_active_segment 0 "w1"]
  /\ spec_active_segments [mouse_move 0; mouse_move 0] "w1" (-1)
    = [new_active_segment 0 "w1"; new_active_segment 0 "w1"].
Proof. split; reflexivity. Qed.

(** C10: on a list sorted by timestamp, and for a threshold that is not
    negative, every returned segment is active and has
    [start_time <= end_time], the start times are strictly ascending, and
    each segment starts more than the threshold after the one before it
    ends. *)
Theorem active_segments_separated
    (event_list : list SessionRecordingEventSummary) (wid : WindowId) (thr : Z) :
  sorted_by_timestamp event_list ->
  0 <= thr ->
  let out := get_active_segments_from_event_list event_list wid thr in
  Forall (fun s => start_time s <= end_time s /\ is_active s = true) out
  /\ Sorted (fun a b => start_time a < start_time b) out
  /\ Sorted (fun a b => end_time a + timedelta_seconds thr < start_time b) out.
Proof.
  intros Hsorted Hthr out. subst out.
  rewrite (get_active_segments_eq _ _ _ Hsorted Hthr).
  pose proof (spec_active_segments_members event_list wid thr Hsorted) as Hmem.
  pose proof (spec_active_segments_gaps event_list wid thr) as Hgaps.
  assert (Forall (fun s => start_time s <= end_time s)
            (spec_active_segments event_list wid thr)) as Hle
    by (eapply Forall_impl; [exact Hmem|]; cbn; tauto).
  split; [|split].
  - eapply Forall_impl; [exact Hmem|]. cbn. tauto.
  - apply StronglySorted_Sorted. by apply (gaps_ascending thr).
  - eapply Sorted_ind with (P := Sorted _); [constructor| |exact Hgaps].
    intros a l _ IH Hhd. constructor; [exact IH|].
    destruct Hhd as [|b l Hab]; constructor. unfold gap_after in Hab. lia.
Qed.

Lemma active_segments_separated_witness :
  let out := get_active_segments_from_event_list three_moves "w1" 10 in
  Forall (fun s => start_time s <= end_time s /\ is_active s = true) out
  /\ Sorted (fun a b => start_time a < start_time b) out
  /\ Sorted (fun a b => end_time a + timedelta_seconds 10 < start_time b) out.
Proof.
  apply (active_segments_separated three_moves "w1" 10).
  - repeat constructor; cbn; lia.
  - lia.
Defined.

(** ** [generate_inactive_segments_for_range] *)

Lemma rmap_rmap {A B C : Type} (f : A -> B) (g : B -> C) (r : result A) :
  rmap g (rmap f r) = rmap (fun a => g (f a)) r.
Proof. by destruct r. Qed.

Lemma rmap_ext {A B : Type} (f g : A -> B) (r : result A) :
  (forall a, f a = g a) -> rmap f r = rmap g r.
Proof. intros Hfg. destruct r; cbn; by rewrite ?Hfg. Qed.

Lemma inactive_loop_walk (range_end : datetime) (d : dict RecordingSegment)
    (ids : list WindowId) (acc : list RecordingSegment) (t : datetime) :
  rmap fst (for_each (inactive_loop_body range_end d) ids (acc, t))
    = rmap (app acc) (spec_walk_inactive range_end d t ids).
Proof.
  revert acc t. induction ids as [|wid ids IH]; intros acc t;
    cbn [for_each spec_walk_inactive].
  - cbn. by rewrite app_nil_r.
  - unfold inactive_loop_body at 1. cbn [fst snd].
    destruct (dict_get d wid) as [w|e]; cbn [rbind]; [|reflexivity].
    destruct ((t <? end_time w) && (t <? range_end)); cbn [rbind]; [|apply IH].
    rewrite IH, rmap_rmap. cbn [end_time].
    replace (Z.min (Z.min (end_time w) range_end) (end_time w))
      with (Z.min (end_time w) range_end) by lia.
    apply rmap_ext. intros segs. by rewrite <- app_assoc.
Qed.

Lemma move_last_end_cons (range_end : datetime) (at_global_end : bool)
    (s : RecordingSegment) (segs : list RecordingSegment) :
  segs <> [] ->
  move_last_end range_end at_global_end (s :: segs)
    = s :: move_last_end range_end at_global_end segs.
Proof. by destruct segs. Qed.

Section overlap_loop.
Context (range_start range_end : datetime) (is_first is_last : bool).

Let body := overlap_loop_body range_start range_end is_first is_last.

Lemma overlap_loop_later (rest done : list RecordingSegment) (p : RecordingSegment) :
  last done = Some p ->
  fold_left body (seq (length done) (length rest)) (done ++ rest)
    = done ++ move_last_end range_end is_last (move_later_starts (end_time p) rest).
Proof.
  revert done p. induction rest as [|s rest IH]; intros done p Hlast.
  - reflexivity.
  - apply last_Some in Hlast as Hdone. destruct Hdone as [done' Hdone].
    assert (length done = S (length done')) as Hlen
      by (rewrite Hdone, length_app; cbn; lia).
    cbn [length seq fold_left].
    assert (body (done ++ s :: rest) (length done)
            = (done ++ [if (length rest =? 0)%nat
                           && (end_time s =? range_end) && negb is_last
                        then backward_1ms
                               (if start_time s =? end_time p then forward_1ms s else s)
                        else if start_time s =? end_time p then forward_1ms s else s])
                ++ rest) as ->.
    { assert ((done ++ s :: rest) !! length done = Some s) as H1
        by (by apply list_lookup_middle).
      assert ((done ++ s :: rest) !! (length done - 1)%nat = Some p) as H2.
      { rewrite Hdone, <- app_assoc. apply list_lookup_middle.
        rewrite length_app. cbn. lia. }
      assert ((length done =? 0)%nat = false) as H3 by (apply Nat.eqb_neq; lia).
      assert ((0 <? length done)%nat = true) as H4 by (apply Nat.ltb_lt; lia).
      assert ((length done =? length (done ++ s :: rest) - 1)%nat
              = (length rest =? 0)%nat) as H5.
      { rewrite length_app. cbn [length].
        destruct (length rest); [apply Nat.eqb_eq|apply Nat.eqb_neq]; lia. }
      unfold body, overlap_loop_body. rewrite H1, H2, H3, H4, H5.
      cbn [andb orb].
      rewrite insert_app_r_alt, Nat.sub_diag by lia.
      cbn [insert list_insert]. rewrite <- app_assoc. cbn [app].
      unfold timedelta_milliseconds, forward_1ms, backward_1ms.
      destruct (start_time s =? end_time p); cbn [end_time set_start_time];
        destruct ((length rest =? 0)%nat && (end_time s =? range_end) && negb is_last);
        reflexivity. }
    set (s2 := if (length rest =? 0)%nat && _ && _ then _ else _).
    replace (S (length done)) with (length (done ++ [s2]))
      by (rewrite length_app; cbn; lia).
    rewrite (IH (done ++ [s2]) s2) by apply last_snoc.
    rewrite <- app_assoc. cbn [app move_later_starts]. f_equal.
    destruct rest as [|s' rest].
    + subst s2. cbn [move_later_starts move_last_end length Nat.eqb andb].
      by destruct (start_time s =? end_time p).
    + rewrite move_last_end_cons by discriminate.
      subst s2. cbn [length Nat.eqb andb].
      by destruct (start_time s =? end_time p).
Qed.

Lemma overlap_loop_eq (segs : list RecordingSegment) :
  fold_left body (seq 0 (length segs)) segs
    = move_last_end range_end is_last
        (move_first_start range_start is_first (keep_first_move_later segs)).
Proof.
  destruct segs as [|s rest]; [reflexivity|].
  cbn [length seq fold_left keep_first_move_later move_first_start].
  assert (body (s :: rest) 0%nat
          = [if (length rest =? 0)%nat && (end_time s =? range_end) && negb is_last
             then backward_1ms
                    (if (start_time s =? range_start) && negb is_first
                     then forward_1ms s else s)
             else if (start_time s =? range_start) && negb is_first
                  then forward_1ms s else s] ++ rest) as ->.
  { unfold body, overlap_loop_body.
    change ((s :: rest) !! 0%nat) with (Some s).
    change (0 =? 0)%nat with true. change (0 <? 0)%nat with false.
    cbn [andb orb length]. rewrite orb_false_r.
    replace (S (length rest) - 1)%nat with (length rest) by lia.
    rewrite (Nat.eqb_sym 0 (length rest)).
    change (<[0%nat := ?x]> (s :: rest)) with (x :: rest). cbn [app].
    unfold timedelta_milliseconds, forward_1ms, backward_1ms.
    destruct ((start_time s =? range_start) && negb is_first);
      cbn [end_time set_start_time];
      destruct ((length rest =? 0)%nat && (end_time s =? range_end) && negb is_last);
      reflexivity. }
  set (s2 := if (length rest =? 0)%nat && _ && _ then _ else _).
  pose proof (overlap_loop_later rest [s2] s2 eq_refl) as Hlater.
  cbn [length] in Hlater. rewrite Hlater. cbn [app].
  destruct rest as [|s' rest].
  - subst s2. cbn [move_later_starts move_last_end length Nat.eqb andb].
    by destruct ((start_time s =? range_start) && negb is_first).
  - rewrite move_last_end_cons by discriminate.
    subst s2. cbn [length Nat.eqb andb].
    by destruct ((start_time s =? range_start) && negb is_first).
Qed.

End overlap_loop.

Lemma generate_inactive_segments_for_range_eq (range_start range_end : datetime)
    (preferred : WindowId) (d : dict RecordingSegment) (is_first is_last : bool) :
  generate_inactive_segments_for_range range_start range_end preferred d is_first is_last
    = amended_inactive_segments range_start range_end preferred d is_first is_last.
Proof.
  unfold generate_inactive_segments_for_range, amended_inactive_segments.
  fold (priority_list d preferred).
  pose proof (inactive_loop_walk range_end d (priority_list d preferred) [] range_start)
    as Hwalk.
  destruct (for_each _ _ _) as [st|e];
    destruct (spec_walk_inactive _ _ _ _) as [segs|e']; cbn in Hwalk; try discriminate.
  - injection Hwalk as <-. cbn [rbind rmap]. f_equal. apply overlap_loop_eq.
  - exact Hwalk.
Qed.

(** C3, as stated, fails on [overlapping_windows]: filling 0-20 ms from
    window A at the start and end of the recording, the segment of B starts
    where the segment of A ends and is moved forward one millisecond, an
    adjustment the first and last rules do not make. *)
Lemma later_segment_is_moved :
  generate_inactive_segments_for_range 0 20 "A" overlapping_windows true true
    = Ok [ {| start_time := 0; end_time := 10; window_id := "A"; is_active := false |};
           {| start_time := 11; end_time := 20; window_id := "B"; is_active := false |} ]
  /\ spec_inactive_segments 0 20 "A" overlapping_windows true true
    = Ok [ {| start_time := 0; end_time := 10; window_id := "A"; is_active := false |};
           {| start_time := 10; end_time := 20; window_id := "B"; is_active := false |} ]
  /\ generate_inactive_segments_for_range 0 20 "A" overlapping_windows true true
     <> spec_inactive_segments 0 20 "A" overlapping_windows true true.
Proof.
  assert (generate_inactive_segments_for_range 0 20 "A" overlapping_windows true true
          = Ok [ {| start_time := 0; end_time := 10; window_id := "A";
                    is_active := false |};
                 {| start_time := 11; end_time := 20; window_id := "B";
                    is_active := false |} ]) as Hcode by reflexivity.
  assert (spec_inactive_segments 0 20 "A" overlapping_windows true true
          = Ok [ {| start_time := 0; end_time := 10; window_id := "A";
                    is_active := false |};
                 {| start_time := 10; end_time := 20; window_id := "B";
                    is_active := false |} ]) as Hspec by reflexivity.
  split; [exact Hcode|]. split; [exact Hspec|].
  rewrite Hcode, Hspec. discriminate.
Qed.

(** C3, amended: [generate_inactive_segments_for_range] walks the priority
    list (the preferred window id, then all window ids by ascending
    start time, those with equal start times in the order of the map) with a
    cursor starting at the range start; each window that
    ends after the cursor, while the cursor is before the range end, yields
    one inactive segment from the later of its start and the cursor to the
    earlier of its end and the range end, and moves the cursor to that end.
    Afterwards the first segment's start moves forward one millisecond when
    it equals the range start and the call is not at the recording start, the
    start of every later segment moves forward one millisecond when it equals
    the end of the segment before it, and the last segment's end moves back
    one millisecond when it equals the range end and the call is not at the
    recording end.  A preferred id that is not in the map raises
    [KeyError]. *)
Theorem generate_inactive_segments_for_range_walk
    (range_start range_end : datetime) (preferred : WindowId)
    (d : dict RecordingSegment) (is_first is_last : bool) :
  exists by_start : list (WindowId * RecordingSegment),
    by_start ≡ₚ d
    /\ Sorted (fun a b => start_time (snd a) <= start_time (snd b)) by_start
    /\ (forall t,
          List.filter (fun kv => start_time (snd kv) =? t) by_start
          = List.filter (fun kv => start_time (snd kv) =? t) d)
    /\ generate_inactive_segments_for_range range_start range_end preferred d
         is_first is_last
       = rmap (fun segs =>
                 move_last_end range_end is_last
                   (move_first_start range_start is_first (keep_first_move_later segs)))
           (spec_walk_inactive range_end d range_start (preferred :: map fst by_start))
    /\ (dict_get d preferred = Raise KeyError ->
        generate_inactive_segments_for_range range_start range_end preferred d
          is_first is_last = Raise KeyError).
Proof.
  exists (sorted_by (fun kv => start_time (snd kv)) d).
  split; [apply sorted_by_perm|].
  split; [apply StronglySorted_Sorted, (sorted_by_sorted (fun kv => start_time (snd kv)))|].
  split; [intros t; apply (sorted_by_filter_key (fun kv => start_time (snd kv)))|].
  split; [apply generate_inactive_segments_for_range_eq|].
  intros Hmissing. rewrite generate_inactive_segments_for_range_eq.
  unfold amended_inactive_segments, priority_list. cbn [spec_walk_inactive].
  by rewrite Hmissing.
Qed.

(** ** Dictionaries *)

Lemma dict_get_elem_of {V : Type} (d : dict V) (k : WindowId) (v : V) :
  dict_get d k = Ok v -> (k, v) ∈ d.
Proof.
  induction d as [|[k' v'] d IH]; cbn [dict_get]; [discriminate|].
  destruct (String.eqb k k') eqn:Hk.
  - apply String.eqb_eq in Hk as ->. intros [= ->]. by left.
  - intros H. right. by apply IH.
Qed.

Lemma dict_get_known {V : Type} (d : dict V) (k : WindowId) :
  k ∈ dict_keys d -> exists v, dict_get d k = Ok v.
Proof.
  unfold dict_keys. induction d as [|[k' v'] d IH]; cbn [map fst dict_get].
  - intros H. by apply elem_of_nil in H.
  - intros H. destruct (String.eqb k k') eqn:Hk; [by eexists|].
    apply String.eqb_neq in Hk. apply elem_of_cons in H as [H|H]; [done|auto].
Qed.

Lemma dict_get_unique {V : Type} (d : dict V) (k : WindowId) (v : V) :
  NoDup (dict_keys d) -> (k, v) ∈ d -> dict_get d k = Ok v.
Proof.
  unfold dict_keys. induction d as [|[k' v'] d IH]; cbn [map fst dict_get].
  - intros _ H. by apply elem_of_nil in H.
  - intros Hnd H. apply NoDup_cons in Hnd as [Hk' Hnd].
    apply elem_of_cons in H as [[= -> ->]|H].
    + by rewrite String.eqb_refl.
    + destruct (String.eqb k k') eqn:Hk; [|by apply IH].
      apply String.eqb_eq in Hk as ->. exfalso. apply Hk'.
      apply list_elem_of_fmap. by exists (k', v).
Qed.

Lemma dict_set_keys {V : Type} (d : dict V) (k : WindowId) (v : V) :
  dict_keys (dict_set d k v)
    = if bool_decide (k ∈ dict_keys d) then dict_keys d else dict_keys d ++ [k].
Proof.
  unfold dict_keys. induction d as [|[k' v'] d IH]; cbn [dict_set map fst].
  - rewrite bool_decide_eq_false_2; [reflexivity|apply not_elem_of_nil].
  - destruct (String.eqb k k') eqn:Hk.
    + apply String.eqb_eq in Hk as ->. cbn [map fst].
      rewrite bool_decide_eq_true_2; [reflexivity|by left].
    + apply String.eqb_neq in Hk. cbn [map fst]. rewrite IH.
      destruct (bool_decide (k ∈ map fst d)) eqn:Hin.
      * apply bool_decide_eq_true in Hin.
        rewrite bool_decide_eq_true_2; [reflexivity|by right].
      * apply bool_decide_eq_false in Hin.
        rewrite bool_decide_eq_false_2; [reflexivity|].
        intros [?|?]%elem_of_cons; done.
Qed.

Lemma dict_set_fresh {V : Type} (d : dict V) (k : WindowId) (v : V) :
  k ∉ dict_keys d -> dict_set d k v = d ++ [(k, v)].
Proof.
  unfold dict_keys. induction d as [|[k' v'] d IH]; cbn [dict_set map fst app];
    [reflexivity|].
  intros Hk. apply not_elem_of_cons in Hk as [Hne Hk].
  apply String.eqb_neq in Hne. rewrite Hne. by rewrite IH.
Qed.

(** ** Loops *)

Lemma for_each_enumerate_inv {S X : Type} (body : S -> nat * X -> result S)
    (Inv : nat -> S -> Prop) (Q : X -> Prop) :
  (forall k st x, Inv k st -> Q x ->
     exists st', body st (k, x) = Ok st' /\ Inv (Datatypes.S k) st') ->
  forall (l : list X) (k : nat) (st : S),
    Forall Q l -> Inv k st ->
    exists st', for_each body (combine (seq k (length l)) l) st = Ok st'
                /\ Inv (k + length l)%nat st'.
Proof.
  intros Hstep l. induction l as [|x l IH]; intros k st Hl Hinv.
  - exists st. cbn. by rewrite Nat.add_0_r.
  - apply Forall_cons in Hl as [Hx Hl].
    destruct (Hstep k st x Hinv Hx) as (st1 & Hbody & Hinv1).
    destruct (IH (Datatypes.S k) st1 Hl Hinv1) as (st' & Hloop & Hinv').
    exists st'. cbn [length seq combine for_each]. rewrite Hbody. cbn [rbind].
    split; [exact Hloop|]. by replace (k + Datatypes.S (length l))%nat
                              with (Datatypes.S k + length l)%nat by lia.
Qed.

Lemma Sorted_app_junction {A : Type} (R : A -> A -> Prop) (l1 l2 : list A) :
  Sorted R l1 -> Sorted R l2 ->
  (forall x y, last l1 = Some x -> head l2 = Some y -> R x y) ->
  Sorted R (l1 ++ l2).
Proof.
  intros H1 H2 Hj. induction H1 as [|x l1 H1 IH Hhd]; [exact H2|].
  cbn [app]. constructor.
  - apply IH. intros x' y Hx' Hy. apply Hj; [|exact Hy].
    destruct l1; [discriminate|exact Hx'].
  - destruct Hhd as [|z l1 Hxz]; cbn [app]; [|by constructor].
    destruct l2 as [|y l2]; constructor. by apply Hj.
Qed.

Lemma Sorted_adjacent {A : Type} (R : A -> A -> Prop) (l : list A) (i : nat) (x y : A) :
  Sorted R l -> l !! i = Some x -> l !! Datatypes.S i = Some y -> R x y.
Proof.
  intros Hl. revert i. induction Hl as [|z l Hl IH Hhd]; intros i Hx Hy.
  - discriminate.
  - destruct i as [|i].
    + cbn in Hx, Hy. injection Hx as ->. destruct Hhd as [|z' l Hzz']; [discriminate|].
      cbn in Hy. by injection Hy as ->.
    + cbn in Hx, Hy. by apply (IH i).
Qed.

(** ** Shape of the gap filler's output *)

Lemma spec_walk_inactive_chain (range_end : datetime) (d : dict RecordingSegment)
    (ids : list WindowId) (t : datetime) (segs : list RecordingSegment) :
  spec_walk_inactive range_end d t ids = Ok segs -> cursor_chain range_end t segs.
Proof.
  revert t segs. induction ids as [|wid ids IH]; intros t segs; cbn [spec_walk_inactive].
  - by intros [= <-].
  - destruct (dict_get d wid) as [w|e]; cbn [rbind]; [|discriminate].
    destruct ((t <? end_time w) && (t <? range_end)); [|apply IH].
    destruct (spec_walk_inactive _ _ _ ids) as [rest|e] eqn:Hrest; [|discriminate].
    intros [= <-]. cbn [cursor_chain start_time end_time is_active].
    repeat split; [lia|lia|]. by apply IH.
Qed.

Lemma spec_walk_inactive_total (range_end : datetime) (d : dict RecordingSegment)
    (ids : list WindowId) (t : datetime) :
  Forall (fun wid => wid ∈ dict_keys d) ids ->
  exists segs, spec_walk_inactive range_end d t ids = Ok segs.
Proof.
  intros Hids. revert t. induction Hids as [|wid ids Hwid _ IH]; intros t;
    cbn [spec_walk_inactive]; [by eexists|].
  destruct (dict_get_known d wid Hwid) as [w ->]. cbn [rbind].
  destruct ((t <? end_time w) && (t <? range_end)); [|apply IH].
  destruct (IH (end_time {| start_time := Z.max (start_time w) t;
                            end_time := Z.min (end_time w) range_end;
                            window_id := wid; is_active := false |})) as [rest ->].
  by eexists.
Qed.

Lemma move_later_starts_strict (range_end p : datetime) (segs : list RecordingSegment) :
  cursor_chain range_end p segs -> strict_chain p (move_later_starts p segs).
Proof.
  revert p. induction segs as [|s segs IH]; intros p; [done|].
  cbn [cursor_chain move_later_starts strict_chain]. intros (Hp & _ & _ & Hrest).
  split.
  - destruct (start_time s =? p) eqn:Heq; cbn; lia.
  - replace (end_time (if start_time s =? p then forward_1ms s else s))
      with (end_time s) by (by destruct (start_time s =? p)).
    by apply IH.
Qed.

Lemma move_last_end_strict (range_end p : datetime) (is_last : bool)
    (segs : list RecordingSegment) :
  strict_chain p segs -> strict_chain p (move_last_end range_end is_last segs).
Proof.
  revert p. induction segs as [|s segs IH]; intros p; [done|].
  destruct segs as [|s' segs].
  - cbn. intros [Hp _]. split; [|done].
    by destruct ((end_time s =? range_end) && negb is_last).
  - rewrite move_last_end_cons by discriminate.
    intros [Hp Hrest]. split; [exact Hp|]. by apply IH.
Qed.

Lemma move_last_end_Forall (P : RecordingSegment -> Prop) (range_end : datetime)
    (is_last : bool) (segs : list RecordingSegment) :
  (forall s, P s -> end_time s = range_end -> is_last = false -> P (backward_1ms s)) ->
  Forall P segs -> Forall P (move_last_end range_end is_last segs).
Proof.
  intros Hback. induction segs as [|s segs IH]; [done|].
  intros [Hs Hsegs]%Forall_cons. destruct segs as [|s' segs].
  - cbn. constructor; [|constructor].
    destruct (end_time s =? range_end) eqn:He; [|exact Hs].
    destruct is_last; [exact Hs|]. cbn. apply Hback; auto. lia.
  - rewrite move_last_end_cons by discriminate. constructor; auto.
Qed.

Lemma move_later_starts_Forall (P : RecordingSegment -> Prop) (p : datetime)
    (segs : list RecordingSegment) :
  (forall s, P s -> P (forward_1ms s)) ->
  Forall P segs -> Forall P (move_later_starts p segs).
Proof.
  intros Hfwd Hsegs. revert p. induction Hsegs as [|s segs Hs _ IH]; intros p; [done|].
  cbn [move_later_starts]. constructor; [|apply IH].
  destruct (start_time s =? p); auto.
Qed.

Lemma move_last_end_last (range_end : datetime) (segs : list RecordingSegment)
    (s : RecordingSegment) :
  Forall (fun s => end_time s <= range_end) segs ->
  last (move_last_end range_end false segs) = Some s ->
  end_time s < range_end.
Proof.
  induction segs as [|s0 segs IH]; [discriminate|].
  intros [Hs0 Hsegs]%Forall_cons. destruct segs as [|s' segs].
  - cbn. intros [= <-]. rewrite andb_true_r.
    destruct (end_time s0 =? range_end) eqn:He; cbn; lia.
  - rewrite move_last_end_cons by discriminate.
    intros Hlast. apply IH; [exact Hsegs|].
    destruct (move_last_end range_end false (s' :: segs)) eqn:Hm; [|exact Hlast].
    destruct segs; discriminate.
Qed.

Lemma cursor_chain_Forall (range_end t : datetime) (segs : list RecordingSegment) :
  cursor_chain range_end t segs ->
  Forall (fun s => end_time s <= range_end /\ is_active s = false) segs.
Proof.
  revert t. induction segs as [|s segs IH]; intros t; [constructor|].
  cbn [cursor_chain]. intros (_ & He & Ha & Hrest). constructor; eauto.
Qed.

(** The three properties of one call that the main loop relies on. *)
Lemma gap_fill_shape (c r : datetime) (preferred : WindowId) (d : dict RecordingSegment)
    (is_first is_last : bool) (segs : list RecordingSegment) :
  generate_inactive_segments_for_range c r preferred d is_first is_last = Ok segs ->
  Forall (fun s => is_active s = false) segs
  /\ gap_shape c is_first segs
  /\ (is_last = false -> forall s, last segs = Some s -> end_time s < r).
Proof.
  rewrite generate_inactive_segments_for_range_eq. unfold amended_inactive_segments.
  destruct (spec_walk_inactive _ _ _ _) as [raw|e] eqn:Hraw; [|discriminate].
  intros [= <-]. apply spec_walk_inactive_chain in Hraw.
  pose proof (cursor_chain_Forall _ _ _ Hraw) as Hall.
  split; [|split].
  - apply move_last_end_Forall; [done|].
    destruct raw as [|s raw]; [constructor|].
    apply Forall_cons in Hall as [[_ Hs] Hall].
    cbn [keep_first_move_later move_first_start]. constructor.
    + by destruct ((start_time s =? c) && negb is_first).
    + apply move_later_starts_Forall; [done|].
      eapply Forall_impl; [exact Hall|]. cbn. tauto.
  - destruct raw as [|s raw]; [done|].
    cbn [cursor_chain] in Hraw. destruct Hraw as (Hc & _ & _ & Hraw).
    apply (move_later_starts_strict r) in Hraw.
    cbn [keep_first_move_later move_first_start].
    set (s1 := if (start_time s =? c) && negb is_first then forward_1ms s else s).
    assert (end_time s1 = end_time s) as Hend
      by (subst s1; by destruct ((start_time s =? c) && negb is_first)).
    assert (c <= start_time s1 /\ (is_first = false -> c < start_time s1)) as [? ?].
    { subst s1. destruct (start_time s =? c) eqn:Heq, is_first; cbn; split; (lia || done). }
    destruct (move_later_starts (end_time s) raw) as [|s' later] eqn:Hlater.
    + cbn. by destruct ((end_time s1 =? r) && negb is_last).
    + rewrite move_last_end_cons by discriminate. cbn [gap_shape].
      repeat split; auto. rewrite Hend. by apply move_last_end_strict.
  - intros -> s Hlast. apply move_last_end_last in Hlast; [exact Hlast|].
    destruct raw as [|s0 raw]; [constructor|].
    apply Forall_cons in Hall as [[Hs0 _] Hall].
    cbn [keep_first_move_later move_first_start]. constructor.
    + by destruct ((start_time s0 =? c) && negb is_first).
    + apply (move_later_starts_Forall (fun s => end_time s <= r)); [done|].
      eapply Forall_impl; [exact Hall|]. cbn. tauto.
Qed.

(** ** The loop over the windows *)

Lemma spec_walk_active_tags (wid : WindowId) (thr : Z) (cur : RecordingSegment)
    (ts : list Z) :
  is_active cur = true -> window_id cur = wid ->
  Forall (fun s => is_active s = true /\ window_id s = wid)
         (spec_walk_active wid thr cur ts).
Proof.
  revert cur. induction ts as [|t ts IH]; intros cur Hact Hwid;
    [cbn [spec_walk_active]|rewrite spec_walk_active_cons].
  - by repeat constructor.
  - destruct (t - end_time cur <=? 1000 * thr).
    + by apply IH.
    + constructor; [done|]. by apply IH.
Qed.

Lemma get_active_segments_tags (event_list : list SessionRecordingEventSummary)
    (wid : WindowId) (thr : Z) :
  Forall (fun s => is_active s = true /\ window_id s = wid)
         (get_active_segments_from_event_list event_list wid thr).
Proof.
  unfold get_active_segments_from_event_list.
  destruct (map timestamp (List.filter is_active_event event_list)) as [|t ts];
    [constructor|].
  cbn [fold_left].
  change (active_loop_body wid thr ([], None) t)
    with (@nil RecordingSegment, Some (new_active_segment t wid)).
  destruct (active_loop_from_open wid thr ts [] (new_active_segment t wid))
    as (closed & final & Hwalk & ->).
  cbn [fst snd app].
  pose proof (spec_walk_active_tags wid thr (new_active_segment t wid) ts eq_refl eq_refl)
    as Htags.
  rewrite Hwalk in Htags.
  destruct (_ || _); [exact Htags|]. by apply Forall_app in Htags as [? _].
Qed.

Lemma window_loop_eq (m : dict (list SessionRecordingEventSummary))
    (acc : list RecordingSegment) (d : dict RecordingSegment) :
  Forall (fun item => snd item <> []) m ->
  for_each window_loop_body m (acc, d)
    = Ok (acc ++ flat_map window_active m, timelines m d).
Proof.
  intros Hm. revert acc d. induction Hm as [|[wid evs] m Hevs _ IH]; intros acc d.
  - cbn. by rewrite app_nil_r.
  - cbn [for_each]. unfold window_loop_body at 1. cbn [fst snd] in *.
    destruct evs as [|e evs]; [done|]. cbn [py_first rbind].
    unfold py_last. destruct (last (e :: evs)) as [e'|] eqn:Hlast;
      [|by apply last_None in Hlast].
    cbn [rbind]. rewrite IH. cbn [flat_map timelines fold_left fst snd].
    unfold timeline at 2, window_active at 2. rewrite Hlast. cbn [fst snd head fmap
      option_fmap option_map default parse_snapshot_timestamp].
    by rewrite <- app_assoc.
Qed.

Lemma timelines_keys (m : dict (list SessionRecordingEventSummary))
    (acc : dict RecordingSegment) (k : WindowId) :
  k ∈ dict_keys (timelines m acc) <-> k ∈ dict_keys acc \/ k ∈ dict_keys m.
Proof.
  revert acc. induction m as [|[wid evs] m IH]; intros acc; cbn [timelines fold_left].
  - change (dict_keys []) with (@nil WindowId). rewrite elem_of_nil. tauto.
  - fold (timelines m (dict_set acc wid (timeline wid evs))).
    change (dict_keys ((wid, evs) :: m)) with (wid :: dict_keys m).
    rewrite IH, dict_set_keys, elem_of_cons.
    case_bool_decide as Hin.
    + split; [tauto|]. intros [?|[->|?]]; tauto.
    + rewrite elem_of_app, list_elem_of_singleton. tauto.
Qed.

Lemma timelines_fresh (m : dict (list SessionRecordingEventSummary))
    (acc : dict RecordingSegment) :
  NoDup (dict_keys acc ++ dict_keys m) ->
  timelines m acc = acc ++ map (fun item => (fst item, timeline (fst item) (snd item))) m.
Proof.
  revert acc. induction m as [|[wid evs] m IH]; intros acc Hnd;
    cbn [timelines fold_left map fst snd].
  - by rewrite app_nil_r.
  - fold (timelines m (dict_set acc wid (timeline wid evs))).
    change (dict_keys ((wid, evs) :: m)) with (wid :: dict_keys m) in Hnd.
    assert (wid ∉ dict_keys acc) as Hfresh.
    { apply NoDup_app in Hnd as (_ & Hdisj & _). intros Hin.
      apply (Hdisj wid Hin). by left. }
    rewrite (dict_set_fresh acc wid _ Hfresh).
    rewrite IH.
    + by rewrite <- app_assoc.
    + unfold dict_keys at 1. rewrite map_app. cbn [map fst]. fold (dict_keys acc).
      rewrite <- app_assoc. exact Hnd.
Qed.

Lemma window_active_tags (m : dict (list SessionRecordingEventSummary)) :
  Forall (fun s => is_active s = true /\ window_id s ∈ dict_keys m)
         (flat_map window_active m).
Proof.
  apply Forall_forall. intros s Hs. apply list_elem_of_In, in_flat_map in Hs.
  destruct Hs as ([wid evs] & Hitem & Hs). apply list_elem_of_In in Hitem, Hs.
  pose proof (get_active_segments_tags evs wid ACTIVITY_THRESHOLD_SECONDS) as Htags.
  rewrite Forall_forall in Htags. destruct (Htags s Hs) as [Hact ->].
  split; [exact Hact|]. apply list_elem_of_fmap. by exists (wid, evs).
Qed.

(** ** The pipeline of [recording_segments] *)

Lemma gap_fill_total (c r : datetime) (preferred : WindowId) (d : dict RecordingSegment)
    (is_first is_last : bool) :
  preferred ∈ dict_keys d ->
  exists segs,
    generate_inactive_segments_for_range c r preferred d is_first is_last = Ok segs.
Proof.
  intros Hpref. rewrite generate_inactive_segments_for_range_eq.
  unfold amended_inactive_segments.
  destruct (spec_walk_inactive_total r d (priority_list d preferred) c) as [raw ->];
    [|by eexists].
  unfold priority_list. constructor; [exact Hpref|].
  apply Forall_forall. intros k Hk. apply list_elem_of_fmap in Hk as (kv & -> & Hkv).
  apply sorted_by_elem_of in Hkv. apply list_elem_of_fmap. by exists kv.
Qed.

Lemma recording_segments_unfold (m : dict (list SessionRecordingEventSummary)) :
  m <> [] ->
  Forall (fun item => snd item <> []) m ->
  exists gs ge k0,
    py_min (map start_time (dict_values (timelines m []))) = Ok gs
    /\ py_max (map end_time (dict_values (timelines m []))) = Ok ge
    /\ head (dict_keys (sorted_by (fun kv => start_time (snd kv)) (timelines m [])))
       = Some k0
    /\ recording_segments m
       = (let? st := for_each (fill_loop_body (timelines m []))
                      (enumerate (sorted_by start_time (flat_map window_active m)))
                      {| all_segments := []; current_timestamp := gs;
                         current_window_id := k0 |} in
          let? final :=
            if current_timestamp st <? ge then
              let? inactive :=
                generate_inactive_segments_for_range (current_timestamp st) ge
                  (current_window_id st) (timelines m [])
                  (current_timestamp st =? gs) true in
              Ok (all_segments st ++ inactive)
            else Ok (all_segments st) in
          Ok (final, timelines m [], gs, ge)).
Proof.
  intros Hne Hm. unfold recording_segments.
  rewrite (window_loop_eq m [] [] Hm). cbn [rbind fst snd app].
  assert (timelines m [] <> []) as Hd.
  { destruct m as [|[wid evs] m]; [done|]. intros Hnil.
    assert (wid ∈ dict_keys (timelines ((wid, evs) :: m) [])) as Hin
      by (apply timelines_keys; right; by left).
    rewrite Hnil in Hin. by apply elem_of_nil in Hin. }
  destruct (timelines m []) as [|[k w] d] eqn:Hdict; [done|].
  assert (sorted_by (fun kv => start_time (snd kv)) ((k, w) :: d) <> []) as Hsorted.
  { intros Hnil. pose proof (sorted_by_perm (fun kv => start_time (snd kv)) ((k, w) :: d))
      as Hperm. rewrite Hnil in Hperm. by apply Permutation_nil_cons in Hperm. }
  destruct (sorted_by _ ((k, w) :: d)) as [|[k0 w0] sorted] eqn:Hs; [done|].
  exists (fold_left Z.min (map start_time (dict_values d)) (start_time w)),
    (fold_left Z.max (map end_time (dict_values d)) (end_time w)), k0.
  repeat split.
Qed.

(** ** Boundaries between consecutive segments *)

Lemma strict_chain_Sorted (gs p : datetime) (segs : list RecordingSegment) :
  strict_chain p segs -> Sorted (no_shared_instant gs) segs.
Proof.
  revert p. induction segs as [|s segs IH]; intros p; [constructor|].
  cbn [strict_chain]. intros [_ Hrest]. constructor; [by apply (IH (end_time s))|].
  destruct segs as [|s' segs]; constructor.
  cbn [strict_chain] in Hrest. unfold no_shared_instant. lia.
Qed.

Lemma gap_shape_Sorted (gs c : datetime) (is_first : bool) (segs : list RecordingSegment) :
  gap_shape c is_first segs -> Sorted (no_shared_instant gs) segs.
Proof.
  destruct segs as [|g segs]; [constructor|].
  cbn [gap_shape]. intros (_ & _ & Hrest).
  constructor; [by apply (strict_chain_Sorted gs (end_time g))|].
  destruct segs as [|s' segs]; constructor.
  cbn [strict_chain] in Hrest. unfold no_shared_instant. lia.
Qed.

Lemma fill_step_boundaries (d : dict RecordingSegment) (gs : datetime) (k : nat)
    (st : fill_state) (seg : RecordingSegment) :
  boundaries_inv d gs k st ->
  is_active seg = true /\ window_id seg ∈ dict_keys d ->
  exists st', fill_loop_body d st (k, seg) = Ok st' /\ boundaries_inv d gs (S k) st'.
Proof.
  intros (Hsorted & Hlast & Hempty & Hwin) [Hact Hseg].
  unfold fill_loop_body. cbn [fst snd].
  destruct (current_timestamp st <? start_time seg) eqn:Hgap.
  - apply Z.ltb_lt in Hgap.
    destruct (gap_fill_total (current_timestamp st) (start_time seg) (current_window_id st)
                d (k =? 0)%nat false Hwin) as [G HG].
    rewrite HG. cbn [rbind]. eexists. split; [reflexivity|].
    destruct (gap_fill_shape _ _ _ _ _ _ _ HG) as (Hinactive & Hshape & Hend).
    specialize (Hend eq_refl).
    unfold boundaries_inv. cbn [all_segments current_timestamp current_window_id].
    split; [|split; [|split]].
    + apply Sorted_app_junction; [apply Sorted_app_junction| |].
      * exact Hsorted.
      * by apply (gap_shape_Sorted gs (current_timestamp st) (k =? 0)%nat).
      * intros x g Hx Hg. destruct (Hlast x Hx) as [_ Hxend].
        destruct G as [|g' G]; [discriminate|]. injection Hg as ->.
        cbn [gap_shape] in Hshape. destruct Hshape as (_ & Hstrict & _).
        destruct k as [|k]; [rewrite Hempty in Hx by reflexivity; discriminate|].
        specialize (Hstrict eq_refl). unfold no_shared_instant. lia.
      * repeat constructor.
      * intros y s Hy [= <-]. rewrite last_app in Hy.
        destruct (last G) as [g|] eqn:HlastG.
        -- injection Hy as <-. specialize (Hend g eq_refl).
           unfold no_shared_instant. lia.
        -- destruct (Hlast y Hy) as [Hyact _].
           unfold no_shared_instant. intros [?|?]; congruence.
    + intros x. rewrite last_snoc. intros [= <-]. split; [exact Hact|lia].
    + discriminate.
    + exact Hseg.
  - apply Z.ltb_ge in Hgap. cbn [rbind]. eexists. split; [reflexivity|].
    unfold boundaries_inv. cbn [all_segments current_timestamp current_window_id].
    split; [|split; [|split]].
    + apply Sorted_app_junction; [exact Hsorted|repeat constructor|].
      intros y s Hy [= <-]. destruct (Hlast y Hy) as [Hyact _].
      unfold no_shared_instant. intros [?|?]; congruence.
    + intros x. rewrite last_snoc. intros [= <-]. split; [exact Hact|lia].
    + discriminate.
    + exact Hseg.
Qed.

Lemma recording_segments_boundaries (m : dict (list SessionRecordingEventSummary)) :
  m <> [] ->
  Forall (fun item => snd item <> []) m ->
  exists segs d gs ge,
    recording_segments m = Ok (segs, d, gs, ge)
    /\ Sorted (no_shared_instant gs) segs.
Proof.
  intros Hne Hm.
  destruct (recording_segments_unfold m Hne Hm) as (gs & ge & k0 & _ & _ & Hk0 & ->).
  set (d := timelines m []) in *.
  assert (k0 ∈ dict_keys d) as Hk0d.
  { destruct (sorted_by _ d) as [|kv sorted] eqn:Hs; [discriminate|].
    injection Hk0 as <-. apply list_elem_of_fmap. exists kv. split; [reflexivity|].
    apply (sorted_by_elem_of (fun kv => start_time (snd kv))). rewrite Hs. by left. }
  destruct (for_each_enumerate_inv (fill_loop_body d) (boundaries_inv d gs)
              (fun seg => is_active seg = true /\ window_id seg ∈ dict_keys d)
              (fill_step_boundaries d gs)
              (sorted_by start_time (flat_map window_active m)) 0%nat
              {| all_segments := []; current_timestamp := gs; current_window_id := k0 |})
    as (st & Hloop & Hsorted & Hlast & _ & Hwin).
  { apply Forall_forall. intros s Hs. apply sorted_by_elem_of in Hs.
    pose proof (window_active_tags m) as Htags. rewrite Forall_forall in Htags.
    destruct (Htags s Hs) as [Hact Hwid]. split; [exact Hact|].
    apply timelines_keys. by right. }
  { unfold boundaries_inv. cbn [all_segments current_timestamp current_window_id].
    split; [constructor|]. split; [discriminate|]. split; [reflexivity|exact Hk0d]. }
  unfold enumerate. rewrite Hloop. cbn [rbind].
  destruct (current_timestamp st <? ge) eqn:Htrail.
  - destruct (gap_fill_total (current_timestamp st) ge (current_window_id st) d
                (current_timestamp st =? gs) true Hwin) as [G HG].
    rewrite HG. cbn [rbind]. eexists _, _, _, _. split; [reflexivity|].
    destruct (gap_fill_shape _ _ _ _ _ _ _ HG) as (Hinactive & Hshape & _).
    apply Sorted_app_junction;
      [exact Hsorted|by apply (gap_shape_Sorted gs _ _ _ Hshape)|].
    intros x g Hx Hg. destruct (Hlast x Hx) as [_ Hxend].
    destruct G as [|g' G]; [discriminate|]. injection Hg as ->.
    cbn [gap_shape] in Hshape. destruct Hshape as (Hle & Hstrict & _).
    unfold no_shared_instant. intros _ Heq.
    destruct (current_timestamp st =? gs) eqn:Hfirst.
    + apply Z.eqb_eq in Hfirst. lia.
    + specialize (Hstrict eq_refl). lia.
  - cbn [rbind]. eexists _, _, _, _. split; [reflexivity|exact Hsorted].
Qed.

Lemma get_metadata_projections (m : dict (list SessionRecordingEventSummary))
    (md : RecordingMetadata.t) (segs : list RecordingSegment)
    (d : dict RecordingSegment) (gs ge : datetime) :
  recording_segments m = Ok (segs, d, gs, ge) ->
  get_metadata_from_events_summary m = Ok md ->
  RecordingMetadata.segments md = segs
  /\ RecordingMetadata.start_and_end_times_by_window_id md = d
  /\ RecordingMetadata.start_time md = gs
  /\ RecordingMetadata.end_time md = ge
  /\ RecordingMetadata.duration md = timedelta_seconds_field (ge - gs).
Proof.
  intros Hsegs. unfold get_metadata_from_events_summary. rewrite Hsegs. cbn [rbind].
  destruct (filter_r (is_type3_with_source 2) _); [|discriminate].
  destruct (filter_r (is_type3_with_source 5) _); [|discriminate].
  cbn [rbind]. by intros [= <-].
Qed.

(** C2, as stated, fails on [two_tabs]: the active segment of A ends at 5 ms
    and the next segment, the active segment of B, starts at 5 ms, which is
    neither the start (0) nor the end (9) of the recording. *)
Lemma active_segments_share_instant :
  let sA := {| start_time := 0; end_time := 5; window_id := "A"; is_active := true |} in
  let sB := {| start_time := 5; end_time := 9; window_id := "B"; is_active := true |} in
  rmap (fun md => (RecordingMetadata.segments md, RecordingMetadata.start_time md,
                   RecordingMetadata.end_time md))
       (get_metadata_from_events_summary two_tabs)
    = Ok ([sA; sB], 0, 9)
  /\ adjacent [sA; sB] sA sB
  /\ end_time sA = start_time sB
  /\ end_time sA <> 0 /\ end_time sA <> 9.
Proof.
  cbv zeta. split; [reflexivity|]. split; [by exists 0%nat|].
  cbn. repeat split; lia.
Qed.

(** C2, amended: for a non-empty mapping of window ids to non-empty lists
    whose timestamps are converted exactly, the segments are computed, and two consecutive segments of which at
    least one is inactive never have the end of the first equal to the start
    of the second, except possibly at [global_start] or [global_end].  (Two
    consecutive active segments may meet at any instant.) *)
Theorem inactive_boundaries_not_shared (m : dict (list SessionRecordingEventSummary)) :
  m <> [] ->
  Forall (fun item => snd item <> []) m ->
  exact_timestamps m ->
  exists segs d gs ge,
    recording_segments m = Ok (segs, d, gs, ge)
    /\ (forall s1 s2,
          adjacent segs s1 s2 ->
          is_active s1 = false \/ is_active s2 = false ->
          end_time s1 = start_time s2 ->
          end_time s1 = gs \/ end_time s1 = ge)
    /\ (forall md,
          get_metadata_from_events_summary m = Ok md ->
          RecordingMetadata.segments md = segs
          /\ RecordingMetadata.start_time md = gs
          /\ RecordingMetadata.end_time md = ge).
Proof.
  intros Hne Hm _.
  destruct (recording_segments_boundaries m Hne Hm) as (segs & d & gs & ge & Hrun & Hsorted).
  exists segs, d, gs, ge. split; [exact Hrun|]. split.
  - intros s1 s2 (i & H1 & H2) Hinactive Hmeet. left.
    exact (Sorted_adjacent _ _ _ _ _ Hsorted H1 H2 Hinactive Hmeet).
  - intros md Hmd.
    destruct (get_metadata_projections _ _ _ _ _ _ Hrun Hmd) as (? & _ & ? & ? & _).
    by repeat split.
Qed.

Lemma inactive_boundaries_not_shared_witness :
  exists segs d gs ge,
    recording_segments [("w1", three_moves)] = Ok (segs, d, gs, ge)
    /\ (forall s1 s2,
          adjacent segs s1 s2 ->
          is_active s1 = false \/ is_active s2 = false ->
          end_time s1 = start_time s2 ->
          end_time s1 = gs \/ end_time s1 = ge)
    /\ (forall md,
          get_metadata_from_events_summary [("w1", three_moves)] = Ok md ->
          RecordingMetadata.segments md = segs
          /\ RecordingMetadata.start_time md = gs
          /\ RecordingMetadata.end_time md = ge).
Proof.
  apply (inactive_boundaries_not_shared [("w1", three_moves)]).
  - discriminate.
  - repeat constructor. discriminate.
  - exact_ts.
Defined.

(** A trailing gap that starts at [global_start] is not moved, so it can
    share that instant with the active segment before it. *)
Example boundary_shared_at_global_start :
  rmap (fun md => RecordingMetadata.segments md)
       (get_metadata_from_events_summary [("w1", [mouse_move 0; full_snapshot 10])])
    = Ok [ {| start_time := 0; end_time := 0; window_id := "w1"; is_active := true |};
           {| start_time := 0; end_time := 10; window_id := "w1"; is_active := false |} ].
Proof. reflexivity. Qed.

(** ** Coverage by the gap filler *)

Lemma covered_app (l1 l2 : list RecordingSegment) (x : datetime) :
  covered (l1 ++ l2) x <-> covered l1 x \/ covered l2 x.
Proof.
  unfold covered. split.
  - intros (s & [Hs|Hs]%elem_of_app & Hx); eauto.
  - intros [(s & Hs & Hx)|(s & Hs & Hx)]; exists s; rewrite elem_of_app; eauto.
Qed.

Lemma covered_cons (s : RecordingSegment) (l : list RecordingSegment) (x : datetime) :
  covered (s :: l) x <-> covers s x \/ covered l x.
Proof.
  unfold covered. split.
  - intros (s' & [->|Hs]%elem_of_cons & Hx); eauto.
  - intros [Hx|(s' & Hs & Hx)]; [exists s|exists s']; rewrite elem_of_cons; eauto.
Qed.

Lemma move_later_starts_adjust (t : datetime) (segs : list RecordingSegment) :
  move_later_starts t segs = adjust_from true t segs.
Proof. destruct segs as [|s rest]; [reflexivity|]. cbn. by rewrite andb_true_r. Qed.

Lemma move_first_start_adjust (c : datetime) (is_first : bool)
    (segs : list RecordingSegment) :
  move_first_start c is_first (keep_first_move_later segs)
    = adjust_from (negb is_first) c segs.
Proof. by destruct segs. Qed.

Section sorted_walk.
Context (d : dict RecordingSegment) (r : datetime).

Lemma sorted_walk_covers (kvs : list (WindowId * RecordingSegment)) (t : datetime)
    (bump : bool) (raw : list RecordingSegment) (x : datetime) :
  StronglySorted (key_le (fun kv => start_time (snd kv))) kvs ->
  Forall (fun kv => dict_get d (fst kv) = Ok (snd kv)) kvs ->
  spec_walk_inactive r d t (map fst kvs) = Ok raw ->
  t <= x < r ->
  (bump = true -> t < x) ->
  (exists kv, kv ∈ kvs /\ start_time (snd kv) <= x < end_time (snd kv)) ->
  covered (adjust_from bump t raw) x.
Proof.
  intros Hsorted. revert t bump raw.
  induction Hsorted as [|[k w] kvs Hsorted IH Hhd]; intros t bump raw Hget Hwalk Hx Hbump Hrec.
  - destruct Hrec as (kv & Hkv & _). by apply elem_of_nil in Hkv.
  - apply Forall_cons in Hget as [Hw Hget]. cbn [fst snd] in Hw.
    cbn [map fst spec_walk_inactive] in Hwalk. rewrite Hw in Hwalk. cbn [rbind] in Hwalk.
    assert (forall kv, kv ∈ kvs -> start_time w <= start_time (snd kv)) as Hstarts.
    { rewrite Forall_forall in Hhd. intros kv Hkv. exact (Hhd kv Hkv). }
    destruct Hrec as (kv & Hkv & Hkvx).
    destruct ((t <? end_time w) && (t <? r)) eqn:Hemit.
    + apply andb_true_iff in Hemit as [Ht1 Ht2]. apply Z.ltb_lt in Ht1, Ht2.
      destruct (spec_walk_inactive r d _ (map fst kvs)) as [rest|e] eqn:Hrest;
        [|discriminate].
      injection Hwalk as <-. cbn [adjust_from start_time end_time].
      assert (start_time w <= x) as Hwx.
      { apply elem_of_cons in Hkv as [->|Hkv]; [cbn in Hkvx; lia|].
        specialize (Hstarts kv Hkv). lia. }
      destruct (Z.le_gt_cases x (Z.min (end_time w) r)) as [Hin|Hout].
      * apply covered_cons. left. unfold covers.
        destruct (Z.max (start_time w) t =? t) eqn:Heq; [|cbn; lia].
        destruct bump; cbn; [specialize (Hbump eq_refl)|]; lia.
      * apply covered_cons. right. rewrite move_later_starts_adjust.
        apply (IH _ true rest Hget Hrest); [cbn; lia|cbn; lia|].
        exists kv. split; [|exact Hkvx].
        apply elem_of_cons in Hkv as [->|Hkv]; [cbn in Hkvx; lia|exact Hkv].
    + apply (IH t bump raw Hget Hwalk Hx Hbump).
      exists kv. split; [|exact Hkvx].
      apply elem_of_cons in Hkv as [->|Hkv]; [|exact Hkv].
      cbn in Hkvx. apply andb_false_iff in Hemit as [Hemit|Hemit];
        apply Z.ltb_ge in Hemit; lia.
Qed.

Lemma move_last_end_covered (is_last : bool) (segs : list RecordingSegment)
    (x : datetime) :
  x < r -> covered segs x -> covered (move_last_end r is_last segs) x.
Proof.
  intros Hx. induction segs as [|s segs IH]; [done|].
  destruct segs as [|s' segs].
  - intros (s0 & Hs0 & Hcov). apply list_elem_of_singleton in Hs0 as ->.
    cbn [move_last_end]. apply covered_cons. left. unfold covers in *.
    destruct (end_time s =? r) eqn:Heq; [|cbn; lia].
    destruct is_last; cbn; lia.
  - rewrite move_last_end_cons by discriminate.
    intros H. apply covered_cons in H as [H|H]; apply covered_cons;
      [by left|right; by apply IH].
Qed.

End sorted_walk.

Lemma gap_fill_covers (c r : datetime) (preferred : WindowId) (d : dict RecordingSegment)
    (is_first is_last : bool) (segs : list RecordingSegment) (p : RecordingSegment)
    (x : datetime) :
  NoDup (dict_keys d) ->
  generate_inactive_segments_for_range c r preferred d is_first is_last = Ok segs ->
  dict_get d preferred = Ok p ->
  start_time p <= c ->
  c <= x < r ->
  (is_first = false -> c < x) ->
  recorded d x ->
  covered segs x.
Proof.
  intros Hnd Hgen Hp Hpc Hx Hfirst Hrec.
  rewrite generate_inactive_segments_for_range_eq in Hgen.
  unfold amended_inactive_segments in Hgen.
  destruct (spec_walk_inactive _ _ _ _) as [raw|e] eqn:Hraw; [|discriminate].
  injection Hgen as <-. apply move_last_end_covered; [lia|].
  rewrite move_first_start_adjust.
  set (kvs := sorted_by (fun kv => start_time (snd kv)) d) in *.
  assert (StronglySorted (key_le (fun kv => start_time (snd kv))) kvs) as Hsorted
    by apply sorted_by_sorted.
  assert (Forall (fun kv => dict_get d (fst kv) = Ok (snd kv)) kvs) as Hget.
  { apply Forall_forall. intros [k w] Hkw. apply sorted_by_elem_of in Hkw.
    by apply dict_get_unique. }
  assert (exists kv, kv ∈ kvs /\ start_time (snd kv) <= x < end_time (snd kv)) as Hrec'.
  { destruct Hrec as (kv & Hkv & Hkvx). exists kv. split; [|exact Hkvx].
    by apply sorted_by_elem_of. }
  unfold priority_list in Hraw. fold kvs in Hraw. unfold dict_keys in Hraw.
  cbn [spec_walk_inactive] in Hraw. rewrite Hp in Hraw. cbn [rbind] in Hraw.
  destruct ((c <? end_time p) && (c <? r)) eqn:Hemit.
  - apply andb_true_iff in Hemit as [Ht1 Ht2]. apply Z.ltb_lt in Ht1, Ht2.
    destruct (spec_walk_inactive r d _ (map fst kvs)) as [rest|e] eqn:Hrest;
      [|discriminate].
    injection Hraw as <-. cbn [adjust_from start_time end_time].
    destruct (Z.le_gt_cases x (Z.min (end_time p) r)) as [Hin|Hout].
    + apply covered_cons. left. unfold covers.
      destruct (Z.max (start_time p) c =? c) eqn:Heq; [|cbn; lia].
      destruct is_first; cbn; [|specialize (Hfirst eq_refl)]; lia.
    + apply covered_cons. right. rewrite move_later_starts_adjust.
      apply (sorted_walk_covers d r kvs _ true rest x Hsorted Hget Hrest);
        [cbn; lia|cbn; lia|exact Hrec'].
  - apply (sorted_walk_covers d r kvs c (negb is_first) raw x Hsorted Hget Hraw Hx);
      [|exact Hrec'].
    destruct is_first; [discriminate|auto].
Qed.

(** ** Coverage by the main loop *)

Lemma dict_get_key {V : Type} (d : dict V) (k : WindowId) (v : V) :
  dict_get d k = Ok v -> k ∈ dict_keys d.
Proof.
  intros H. apply dict_get_elem_of in H. apply list_elem_of_fmap. by exists (k, v).
Qed.

Lemma fill_step_coverage (d : dict RecordingSegment) (gs : datetime) (k : nat)
    (st : fill_state) (seg : RecordingSegment) :
  NoDup (dict_keys d) ->
  coverage_inv d gs k st ->
  within_own_window d seg /\ gs <= start_time seg ->
  exists st', fill_loop_body d st (k, seg) = Ok st' /\ coverage_inv d gs (S k) st'.
Proof.
  intros Hnd (Hbefore & Hat & Hzero & (p & Hp & Hpc)) [(w & Hw & Hws & Hse & Hew) Hgs].
  unfold fill_loop_body. cbn [fst snd].
  destruct (current_timestamp st <? start_time seg) eqn:Hgap.
  - apply Z.ltb_lt in Hgap.
    destruct (gap_fill_total (current_timestamp st) (start_time seg) (current_window_id st)
                d (k =? 0)%nat false (dict_get_key _ _ _ Hp)) as [G HG].
    rewrite HG. cbn [rbind]. eexists. split; [reflexivity|].
    unfold coverage_inv. cbn [all_segments current_timestamp current_window_id].
    replace (Z.max (end_time seg) (current_timestamp st)) with (end_time seg) by lia.
    split; [|split; [|split]].
    + intros x Hx Hrec. rewrite !covered_app.
      destruct (Z.lt_ge_cases x (current_timestamp st)) as [Hlt|Hge]; [left; left; auto|].
      destruct (Z.lt_ge_cases x (start_time seg)) as [Hlt'|Hge'].
      * destruct (Z.eq_dec x (current_timestamp st)) as [->|Hne].
        -- destruct k as [|k].
           ++ left. right.
              by apply (gap_fill_covers _ _ _ _ _ _ _ p (current_timestamp st) Hnd HG Hp).
           ++ left. left. by apply Hat.
        -- left. right.
           apply (gap_fill_covers _ _ _ _ _ _ _ p x Hnd HG Hp Hpc); [lia|lia|exact Hrec].
      * right. exists seg. split; [by left|]. unfold covers. lia.
    + intros _. apply covered_app. right. exists seg. split; [by left|].
      unfold covers. lia.
    + discriminate.
    + exists w. split; [exact Hw|lia].
  - apply Z.ltb_ge in Hgap. cbn [rbind]. eexists. split; [reflexivity|].
    unfold coverage_inv. cbn [all_segments current_timestamp current_window_id].
    split; [|split; [|split]].
    + intros x Hx Hrec. rewrite covered_app.
      destruct (Z.lt_ge_cases x (current_timestamp st)) as [Hlt|Hge]; [left; auto|].
      right. exists seg. split; [by left|]. unfold covers. lia.
    + intros _. apply covered_app.
      destruct (Z.le_gt_cases (current_timestamp st) (end_time seg)) as [Hle|Hgt].
      * right. exists seg. split; [by left|]. unfold covers. lia.
      * left. replace (Z.max (end_time seg) (current_timestamp st))
          with (current_timestamp st) by lia.
        apply Hat. intros ->. specialize (Hzero eq_refl). lia.
    + discriminate.
    + exists w. split; [exact Hw|lia].
Qed.

Lemma fold_left_min_spec (l : list Z) (x : Z) :
  fold_left Z.min l x <= x
  /\ Forall (fun y => fold_left Z.min l x <= y) l
  /\ (fold_left Z.min l x = x \/ fold_left Z.min l x ∈ l).
Proof.
  revert x. induction l as [|y l IH]; intros x; cbn [fold_left].
  - repeat split; [lia|constructor|by left].
  - destruct (IH (Z.min x y)) as (Hle & Hall & Hin). repeat split.
    + lia.
    + constructor; [lia|exact Hall].
    + destruct Hin as [Hin|Hin]; [|right; by right]. rewrite Hin.
      destruct (Z.min_spec x y) as [[_ ->]|[_ ->]]; [by left|right; by left].
Qed.

Lemma fold_left_max_spec (l : list Z) (x : Z) :
  x <= fold_left Z.max l x
  /\ Forall (fun y => y <= fold_left Z.max l x) l
  /\ (fold_left Z.max l x = x \/ fold_left Z.max l x ∈ l).
Proof.
  revert x. induction l as [|y l IH]; intros x; cbn [fold_left].
  - repeat split; [lia|constructor|by left].
  - destruct (IH (Z.max x y)) as (Hle & Hall & Hin). repeat split.
    + lia.
    + constructor; [lia|exact Hall].
    + destruct Hin as [Hin|Hin]; [|right; by right]. rewrite Hin.
      destruct (Z.max_spec x y) as [[_ ->]|[_ ->]]; [right; by left|by left].
Qed.

Lemma py_min_spec (l : list Z) (v : Z) :
  py_min l = Ok v -> Forall (fun y => v <= y) l /\ v ∈ l.
Proof.
  destruct l as [|x l]; [discriminate|]. cbn [py_min]. intros [= <-].
  destruct (fold_left_min_spec l x) as (Hle & Hall & Hin). split.
  - constructor; [exact Hle|exact Hall].
  - destruct Hin as [->|Hin]; [by left|by right].
Qed.

Lemma py_max_spec (l : list Z) (v : Z) :
  py_max l = Ok v -> Forall (fun y => y <= v) l /\ v ∈ l.
Proof.
  destruct l as [|x l]; [discriminate|]. cbn [py_max]. intros [= <-].
  destruct (fold_left_max_spec l x) as (Hle & Hall & Hin). split.
  - constructor; [exact Hle|exact Hall].
  - destruct Hin as [->|Hin]; [by left|by right].
Qed.

Lemma sorted_events_bounds (evs : list SessionRecordingEventSummary)
    (e : SessionRecordingEventSummary) (wid : WindowId) :
  sorted_by_timestamp evs -> e ∈ evs ->
  start_time (timeline wid evs) <= timestamp e <= end_time (timeline wid evs).
Proof.
  intros Hsorted He. apply Sorted_StronglySorted in Hsorted; [|intros a b c; lia].
  cbn [timeline start_time end_time]. split.
  - destruct Hsorted as [|e0 evs _ Hhd]; [by apply elem_of_nil in He|]. cbn.
    apply elem_of_cons in He as [->|He]; [lia|].
    rewrite Forall_forall in Hhd. by apply Hhd.
  - destruct (last evs) as [el|] eqn:Hlast;
      [|apply last_None in Hlast; subst; by apply elem_of_nil in He].
    cbn. apply last_Some in Hlast as [evs' ->].
    apply StronglySorted_snoc_inv in Hsorted.
    apply elem_of_app in He as [He|He].
    + rewrite Forall_forall in Hsorted. by apply Hsorted.
    + apply list_elem_of_singleton in He as ->. lia.
Qed.

Lemma timelines_map (m : dict (list SessionRecordingEventSummary)) :
  NoDup (dict_keys m) ->
  timelines m [] = map (fun item => (fst item, timeline (fst item) (snd item))) m
  /\ dict_keys (timelines m []) = dict_keys m.
Proof.
  intros Hnd. rewrite (timelines_fresh m []) by exact Hnd. cbn [app].
  split; [reflexivity|]. unfold dict_keys. rewrite map_map. reflexivity.
Qed.

Lemma active_within_own_window (m : dict (list SessionRecordingEventSummary)) :
  NoDup (dict_keys m) ->
  Forall (fun item => snd item <> [] /\ sorted_by_timestamp (snd item)) m ->
  Forall (within_own_window (timelines m [])) (flat_map window_active m).
Proof.
  intros Hnd Hm. destruct (timelines_map m Hnd) as [Hmap Hkeys].
  apply Forall_forall. intros seg Hseg. apply list_elem_of_In, in_flat_map in Hseg.
  destruct Hseg as ([wid evs] & Hitem & Hseg). apply list_elem_of_In in Hitem, Hseg.
  rewrite Forall_forall in Hm. destruct (Hm _ Hitem) as [_ Hsorted]. cbn [snd] in Hsorted.
  unfold window_active in Hseg. cbn [fst snd] in Hseg.
  rewrite get_active_segments_eq in Hseg by (done || (unfold ACTIVITY_THRESHOLD_SECONDS; lia)).
  pose proof (spec_active_segments_members evs wid ACTIVITY_THRESHOLD_SECONDS Hsorted)
    as Hmem.
  rewrite Forall_forall in Hmem. destruct (Hmem seg Hseg) as (_ & Hwid & Hle & Hs & He).
  assert (forall t, t ∈ map timestamp (List.filter is_active_event evs) ->
            start_time (timeline wid evs) <= t <= end_time (timeline wid evs)) as Hbounds.
  { intros t Ht. apply list_elem_of_In, in_map_iff in Ht. destruct Ht as (e & <- & Hin).
    apply filter_In in Hin as [Hin _]. apply sorted_events_bounds; [exact Hsorted|].
    by apply list_elem_of_In. }
  exists (timeline wid evs). rewrite Hwid. split.
  - apply dict_get_unique; [by rewrite Hkeys|]. rewrite Hmap.
    apply list_elem_of_fmap. by exists (wid, evs).
  - specialize (Hbounds _ Hs) as Hs'. specialize (Hbounds _ He) as He'. lia.
Qed.

Lemma recording_segments_coverage (m : dict (list SessionRecordingEventSummary)) :
  m <> [] ->
  NoDup (dict_keys m) ->
  Forall (fun item => snd item <> [] /\ sorted_by_timestamp (snd item)) m ->
  exists segs gs ge,
    recording_segments m = Ok (segs, timelines m [], gs, ge)
    /\ py_min (map start_time (dict_values (timelines m []))) = Ok gs
    /\ py_max (map end_time (dict_values (timelines m []))) = Ok ge
    /\ forall x, recorded (timelines m []) x -> covered segs x.
Proof.
  intros Hne Hnd Hm.
  assert (Forall (fun item => snd item <> []) m) as Hm'
    by (eapply Forall_impl; [exact Hm|]; cbn; tauto).
  destruct (recording_segments_unfold m Hne Hm') as (gs & ge & k0 & Hmin & Hmax & Hk0 & ->).
  pose proof (active_within_own_window m Hnd Hm) as Hown.
  destruct (timelines_map m Hnd) as [_ Hkeys].
  set (d := timelines m []) in *.
  assert (NoDup (dict_keys d)) as Hndd by (by rewrite Hkeys).
  destruct (py_min_spec _ _ Hmin) as [Hgs_le Hgs_in].
  destruct (py_max_spec _ _ Hmax) as [Hge_le _].
  assert (forall kw, kw ∈ d -> gs <= start_time (snd kw) /\ end_time (snd kw) <= ge)
    as Hrange.
  { intros kw Hkw. rewrite Forall_forall in Hgs_le, Hge_le. split.
    - apply Hgs_le. apply list_elem_of_fmap. exists (snd kw). split; [reflexivity|].
      apply list_elem_of_fmap. by exists kw.
    - apply Hge_le. apply list_elem_of_fmap. exists (snd kw). split; [reflexivity|].
      apply list_elem_of_fmap. by exists kw. }
  assert (exists p, dict_get d k0 = Ok p /\ start_time p <= gs) as Hfirst.
  { pose proof (sorted_by_sorted (fun kv => start_time (snd kv)) d) as Hsorted.
    destruct (sorted_by _ d) as [|[k0' w0] sorted] eqn:Hs; [discriminate|].
    injection Hk0 as <-. exists w0. split.
    - apply dict_get_unique; [exact Hndd|].
      apply (sorted_by_elem_of (fun kv => start_time (snd kv))). rewrite Hs. by left.
    - apply list_elem_of_fmap in Hgs_in as (w & -> & Hw).
      apply list_elem_of_fmap in Hw as (kw & -> & Hkw).
      apply (sorted_by_elem_of (fun kv => start_time (snd kv))) in Hkw. rewrite Hs in Hkw.
      apply StronglySorted_inv in Hsorted as [_ Hhd].
      apply elem_of_cons in Hkw as [->|Hkw]; [cbn; lia|].
      rewrite Forall_forall in Hhd. exact (Hhd kw Hkw). }
  destruct (for_each_enumerate_inv (fill_loop_body d) (coverage_inv d gs)
              (fun seg => within_own_window d seg /\ gs <= start_time seg)
              (fun k st x => fill_step_coverage d gs k st x Hndd)
              (sorted_by start_time (flat_map window_active m)) 0%nat
              {| all_segments := []; current_timestamp := gs; current_window_id := k0 |})
    as (st & Hloop & Hbefore & Hat & Hzero & (p & Hp & Hpc)).
  { apply Forall_forall. intros s Hs. apply sorted_by_elem_of in Hs.
    rewrite Forall_forall in Hown. specialize (Hown s Hs). split; [exact Hown|].
    destruct Hown as (w & Hw & Hws & _). apply dict_get_elem_of in Hw.
    destruct (Hrange _ Hw) as [Hgs _]. cbn in Hgs. lia. }
  { unfold coverage_inv. cbn [all_segments current_timestamp current_window_id].
    split; [|split; [done|split; [done|exact Hfirst]]].
    intros x Hx (kw & Hkw & Hkwx). destruct (Hrange _ Hkw). lia. }
  unfold enumerate. rewrite Hloop. cbn [rbind].
  cbn [Nat.add] in Hat, Hzero.
  destruct (current_timestamp st <? ge) eqn:Htrail.
  - apply Z.ltb_lt in Htrail.
    destruct (gap_fill_total (current_timestamp st) ge (current_window_id st) d
                (current_timestamp st =? gs) true (dict_get_key _ _ _ Hp)) as [G HG].
    rewrite HG. cbn [rbind]. exists (all_segments st ++ G), gs, ge.
    split; [reflexivity|]. split; [exact Hmin|]. split; [exact Hmax|].
    intros x Hrec. apply covered_app.
    destruct (Z.lt_ge_cases x (current_timestamp st)) as [Hlt|Hge]; [left; auto|].
    assert (x < ge) as Hxge
      by (destruct Hrec as (kw & Hkw & Hkwx); destruct (Hrange _ Hkw); lia).
    destruct (Z.eq_dec x (current_timestamp st)) as [->|Hne'].
    + destruct (current_timestamp st =? gs) eqn:Heq.
      * right. rewrite <- Heq in HG.
        apply (gap_fill_covers _ _ _ _ _ _ _ p (current_timestamp st) Hndd HG Hp Hpc);
          [lia| |exact Hrec].
        rewrite Heq. discriminate.
      * left. apply Hat. intros Hlen. apply Z.eqb_neq in Heq. apply Heq.
        by apply Hzero.
    + right.
      apply (gap_fill_covers _ _ _ _ _ _ _ p x Hndd HG Hp Hpc); [lia|lia|exact Hrec].
  - apply Z.ltb_ge in Htrail. cbn [rbind]. exists (all_segments st), gs, ge.
    split; [reflexivity|]. split; [exact Hmin|]. split; [exact Hmax|].
    intros x Hrec. apply Hbefore; [|exact Hrec].
    destruct Hrec as (kw & Hkw & Hkwx). destruct (Hrange _ Hkw). lia.
Qed.

(** ** Segments stay within the recording *)

Lemma spec_walk_inactive_ranged (hi range_end : datetime) (d : dict RecordingSegment)
    (ids : list WindowId) (t : datetime) (segs : list RecordingSegment) :
  (forall k w, dict_get d k = Ok w -> start_time w <= hi) ->
  range_end <= hi ->
  spec_walk_inactive range_end d t ids = Ok segs -> ranged_chain hi range_end t segs.
Proof.
  intros Hd Hr. revert t segs. induction ids as [|wid ids IH]; intros t segs;
    cbn [spec_walk_inactive].
  - by intros [= <-].
  - destruct (dict_get d wid) as [w|e] eqn:Hw; cbn [rbind]; [|discriminate].
    destruct ((t <? end_time w) && (t <? range_end)) eqn:Hemit; [|by apply IH].
    apply andb_true_iff in Hemit as [Ht1 Ht2]. apply Z.ltb_lt in Ht1, Ht2.
    destruct (spec_walk_inactive _ _ _ ids) as [rest|e] eqn:Hrest; [|discriminate].
    intros [= <-]. cbn [ranged_chain start_time end_time].
    specialize (Hd _ _ Hw).
    split; [lia|]. split; [lia|]. split; [lia|]. by apply IH.
Qed.

Lemma adjust_from_in_range (lo hi range_end : datetime) (bump : bool) (t : datetime)
    (segs : list RecordingSegment) :
  lo <= t -> range_end <= hi ->
  ranged_chain hi range_end t segs ->
  Forall (fun s => lo <= start_time s <= hi /\ lo < end_time s <= range_end)
         (adjust_from bump t segs).
Proof.
  intros Hlo Hhi. revert bump t Hlo. induction segs as [|s segs IH]; intros bump t Hlo;
    [constructor|].
  cbn [ranged_chain adjust_from]. intros (Hs & Ht & He & Hrest). constructor.
  - destruct (start_time s =? t) eqn:Heq; [|cbn; lia].
    destruct bump; cbn; lia.
  - rewrite move_later_starts_adjust. apply IH; [lia|exact Hrest].
Qed.

Lemma move_last_end_in_range (lo hi range_end : datetime) (is_last : bool)
    (segs : list RecordingSegment) :
  range_end <= hi ->
  Forall (fun s => lo <= start_time s <= hi /\ lo < end_time s <= range_end) segs ->
  Forall (in_range lo hi) (move_last_end range_end is_last segs).
Proof.
  intros Hhi. induction segs as [|s segs IH]; [constructor|].
  intros [Hs Hsegs]%Forall_cons. destruct segs as [|s' segs].
  - cbn [move_last_end]. constructor; [|constructor]. unfold in_range.
    destruct ((end_time s =? range_end) && negb is_last); cbn; lia.
  - rewrite move_last_end_cons by discriminate. constructor; [|by apply IH].
    unfold in_range. lia.
Qed.

Lemma gap_fill_in_range (c r : datetime) (preferred : WindowId) (d : dict RecordingSegment)
    (is_first is_last : bool) (segs : list RecordingSegment) (lo hi : datetime) :
  (forall k w, dict_get d k = Ok w -> start_time w <= hi) ->
  lo <= c -> r <= hi ->
  generate_inactive_segments_for_range c r preferred d is_first is_last = Ok segs ->
  Forall (in_range lo hi) segs.
Proof.
  intros Hd Hlo Hhi. rewrite generate_inactive_segments_for_range_eq.
  unfold amended_inactive_segments.
  destruct (spec_walk_inactive _ _ _ _) as [raw|e] eqn:Hraw; [|discriminate].
  intros [= <-]. apply move_last_end_in_range; [exact Hhi|].
  rewrite move_first_start_adjust. apply adjust_from_in_range; [exact Hlo|exact Hhi|].
  exact (spec_walk_inactive_ranged hi r d _ c raw Hd Hhi Hraw).
Qed.

Lemma fill_step_range (d : dict RecordingSegment) (gs ge : datetime) (k : nat)
    (st : fill_state) (seg : RecordingSegment) :
  (forall k w, dict_get d k = Ok w -> start_time w <= ge) ->
  range_inv d gs ge k st ->
  in_range gs ge seg /\ window_id seg ∈ dict_keys d ->
  exists st', fill_loop_body d st (k, seg) = Ok st' /\ range_inv d gs ge (S k) st'.
Proof.
  intros Hd (Hall & Hc & Hwin) [Hseg Hwid].
  unfold fill_loop_body. cbn [fst snd].
  pose proof Hseg as Hseg'. unfold in_range in Hseg'.
  destruct (current_timestamp st <? start_time seg) eqn:Hgap.
  - destruct (gap_fill_total (current_timestamp st) (start_time seg) (current_window_id st)
                d (k =? 0)%nat false Hwin) as [G HG].
    rewrite HG. cbn [rbind]. eexists. split; [reflexivity|].
    unfold range_inv. cbn [all_segments current_timestamp current_window_id].
    split; [|split; [lia|exact Hwid]].
    apply Forall_app.
    split; [apply Forall_app; split; [exact Hall|]|by constructor].
    apply (gap_fill_in_range _ _ _ _ _ _ _ gs ge Hd) in HG; [exact HG|lia|lia].
  - cbn [rbind]. eexists. split; [reflexivity|].
    unfold range_inv. cbn [all_segments current_timestamp current_window_id].
    split; [|split; [lia|exact Hwid]].
    apply Forall_app. split; [exact Hall|by constructor].
Qed.

Lemma timelines_bounds (m : dict (list SessionRecordingEventSummary)) (gs ge : datetime) :
  NoDup (dict_keys m) ->
  Forall (fun item => snd item <> [] /\ sorted_by_timestamp (snd item)) m ->
  py_min (map start_time (dict_values (timelines m []))) = Ok gs ->
  py_max (map end_time (dict_values (timelines m []))) = Ok ge ->
  (forall kw, kw ∈ timelines m [] ->
     gs <= start_time (snd kw) /\ start_time (snd kw) <= end_time (snd kw)
     /\ end_time (snd kw) <= ge)
  /\ gs <= ge.
Proof.
  intros Hnd Hm Hmin Hmax. destruct (timelines_map m Hnd) as [Hmap _].
  destruct (py_min_spec _ _ Hmin) as [Hgs_le Hgs_in].
  destruct (py_max_spec _ _ Hmax) as [Hge_le _].
  assert (forall kw, kw ∈ timelines m [] ->
            gs <= start_time (snd kw) /\ start_time (snd kw) <= end_time (snd kw)
            /\ end_time (snd kw) <= ge) as Hall.
  { intros kw Hkw. rewrite Forall_forall in Hgs_le, Hge_le. split; [|split].
    - apply Hgs_le. apply list_elem_of_fmap. exists (snd kw). split; [reflexivity|].
      apply list_elem_of_fmap. by exists kw.
    - rewrite Hmap in Hkw. apply list_elem_of_fmap in Hkw as ([wid evs] & -> & Hitem).
      rewrite Forall_forall in Hm. destruct (Hm _ Hitem) as [Hne Hsorted].
      cbn [fst snd] in *. destruct evs as [|e evs]; [done|].
      pose proof (sorted_events_bounds (e :: evs) e wid Hsorted) as Hb.
      specialize (Hb ltac:(by left)). lia.
    - apply Hge_le. apply list_elem_of_fmap. exists (snd kw). split; [reflexivity|].
      apply list_elem_of_fmap. by exists kw. }
  split; [exact Hall|].
  apply list_elem_of_fmap in Hgs_in as (w & -> & Hw).
  apply list_elem_of_fmap in Hw as (kw & -> & Hkw).
  destruct (Hall kw Hkw) as (_ & ? & ?). lia.
Qed.

Lemma recording_segments_in_range (m : dict (list SessionRecordingEventSummary))
    (segs : list RecordingSegment) (d : dict RecordingSegment) (gs ge : datetime) :
  m <> [] ->
  NoDup (dict_keys m) ->
  Forall (fun item => snd item <> [] /\ sorted_by_timestamp (snd item)) m ->
  recording_segments m = Ok (segs, d, gs, ge) ->
  Forall (in_range gs ge) segs.
Proof.
  intros Hne Hnd Hm.
  assert (Forall (fun item => snd item <> []) m) as Hm'
    by (eapply Forall_impl; [exact Hm|]; cbn; tauto).
  destruct (recording_segments_unfold m Hne Hm')
    as (gs' & ge' & k0 & Hmin & Hmax & Hk0 & ->).
  pose proof (active_within_own_window m Hnd Hm) as Hown.
  destruct (timelines_bounds m gs' ge' Hnd Hm Hmin Hmax) as [Hrange Hle].
  set (d' := timelines m []) in *.
  assert (forall k w, dict_get d' k = Ok w -> start_time w <= ge') as Hd.
  { intros k w Hw. apply dict_get_elem_of in Hw. destruct (Hrange _ Hw) as (_ & ? & ?).
    cbn in *. lia. }
  assert (k0 ∈ dict_keys d') as Hk0d.
  { destruct (sorted_by _ d') as [|kv sorted] eqn:Hs; [discriminate|].
    injection Hk0 as <-. apply list_elem_of_fmap. exists kv. split; [reflexivity|].
    apply (sorted_by_elem_of (fun kv => start_time (snd kv))). rewrite Hs. by left. }
  destruct (for_each_enumerate_inv (fill_loop_body d') (range_inv d' gs' ge')
              (fun seg => in_range gs' ge' seg /\ window_id seg ∈ dict_keys d')
              (fun k st x => fill_step_range d' gs' ge' k st x Hd)
              (sorted_by start_time (flat_map window_active m)) 0%nat
              {| all_segments := []; current_timestamp := gs'; current_window_id := k0 |})
    as (st & Hloop & Hall & Hc & Hwin).
  { apply Forall_forall. intros s Hs. apply sorted_by_elem_of in Hs.
    rewrite Forall_forall in Hown. destruct (Hown s Hs) as (w & Hw & Hws & Hse & Hew).
    split; [|by apply (dict_get_key _ _ _ Hw)].
    apply dict_get_elem_of in Hw. destruct (Hrange _ Hw) as (? & ? & ?).
    cbn in *. unfold in_range. lia. }
  { unfold range_inv. cbn [all_segments current_timestamp current_window_id].
    split; [constructor|]. split; [lia|exact Hk0d]. }
  unfold enumerate. rewrite Hloop. cbn [rbind].
  destruct (current_timestamp st <? ge') eqn:Htrail.
  - destruct (gap_fill_total (current_timestamp st) ge' (current_window_id st) d'
                (current_timestamp st =? gs') true Hwin) as [G HG].
    rewrite HG. cbn [rbind]. intros [= <- <- <- <-].
    apply Forall_app. split; [exact Hall|].
    apply (gap_fill_in_range _ _ _ _ _ _ _ gs' ge' Hd) in HG; [exact HG|lia|lia].
  - cbn [rbind]. by intros [= <- <- <- <-].
Qed.

(** ** Segments stay within their own windows *)

Lemma spec_walk_inactive_inside (r : datetime) (d : dict RecordingSegment)
    (ids : list WindowId) (t : datetime) (raw : list RecordingSegment) :
  spec_walk_inactive r d t ids = Ok raw -> Forall (inside_own_window d) raw.
Proof.
  revert t raw. induction ids as [|wid ids IH]; intros t raw; cbn [spec_walk_inactive].
  - intros [= <-]. constructor.
  - destruct (dict_get d wid) as [w|e] eqn:Hw; cbn [rbind]; [|discriminate].
    destruct ((t <? end_time w) && (t <? r)); [|apply IH].
    destruct (spec_walk_inactive _ _ _ ids) as [rest|e] eqn:Hrest; [|discriminate].
    intros [= <-]. constructor; [|exact (IH _ _ Hrest)].
    exists w. cbn [window_id start_time end_time]. split; [exact Hw|lia].
Qed.

Lemma inside_own_window_forward (d : dict RecordingSegment) (s : RecordingSegment) :
  inside_own_window d s -> inside_own_window d (forward_1ms s).
Proof. intros (w & Hw & ? & ?). exists w. cbn. split; [exact Hw|lia]. Qed.

Lemma inside_own_window_backward (d : dict RecordingSegment) (s : RecordingSegment) :
  inside_own_window d s -> inside_own_window d (backward_1ms s).
Proof. intros (w & Hw & ? & ?). exists w. cbn. split; [exact Hw|lia]. Qed.

Lemma gap_fill_inside (c r : datetime) (preferred : WindowId) (d : dict RecordingSegment)
    (is_first is_last : bool) (segs : list RecordingSegment) :
  generate_inactive_segments_for_range c r preferred d is_first is_last = Ok segs ->
  Forall (inside_own_window d) segs.
Proof.
  rewrite generate_inactive_segments_for_range_eq. unfold amended_inactive_segments.
  destruct (spec_walk_inactive _ _ _ _) as [raw|e] eqn:Hraw; [|discriminate].
  intros [= <-]. apply spec_walk_inactive_inside in Hraw.
  apply move_last_end_Forall; [intros s Hs _ _; by apply inside_own_window_backward|].
  destruct raw as [|s raw]; [constructor|].
  apply Forall_cons in Hraw as [Hs Hraw]. cbn [keep_first_move_later move_first_start].
  constructor.
  - destruct ((start_time s =? c) && negb is_first);
      [by apply inside_own_window_forward|exact Hs].
  - apply move_later_starts_Forall; [apply inside_own_window_forward|exact Hraw].
Qed.

Lemma fill_step_origin (d : dict RecordingSegment) (k : nat) (st : fill_state)
    (seg : RecordingSegment) :
  origin_inv d k st ->
  within_own_window d seg ->
  exists st', fill_loop_body d st (k, seg) = Ok st' /\ origin_inv d (S k) st'.
Proof.
  intros [Hall Hwin] (w & Hw & Hws & Hse & Hew).
  assert (inside_own_window d seg) as Hseg by (exists w; split; [exact Hw|lia]).
  unfold fill_loop_body. cbn [fst snd].
  destruct (current_timestamp st <? start_time seg).
  - destruct (gap_fill_total (current_timestamp st) (start_time seg) (current_window_id st)
                d (k =? 0)%nat false Hwin) as [G HG].
    rewrite HG. cbn [rbind]. eexists. split; [reflexivity|].
    split; cbn [all_segments current_window_id]; [|exact (dict_get_key _ _ _ Hw)].
    apply Forall_app. split; [|by constructor].
    apply Forall_app. split; [exact Hall|exact (gap_fill_inside _ _ _ _ _ _ _ HG)].
  - cbn [rbind]. eexists. split; [reflexivity|].
    split; cbn [all_segments current_window_id]; [|exact (dict_get_key _ _ _ Hw)].
    apply Forall_app. split; [exact Hall|by constructor].
Qed.

Lemma recording_segments_inside (m : dict (list SessionRecordingEventSummary))
    (segs : list RecordingSegment) (d : dict RecordingSegment) (gs ge : datetime) :
  m <> [] ->
  NoDup (dict_keys m) ->
  Forall (fun item => snd item <> [] /\ sorted_by_timestamp (snd item)) m ->
  recording_segments m = Ok (segs, d, gs, ge) ->
  Forall (inside_own_window d) segs.
Proof.
  intros Hne Hnd Hm.
  assert (Forall (fun item => snd item <> []) m) as Hm'
    by (eapply Forall_impl; [exact Hm|]; cbn; tauto).
  destruct (recording_segments_unfold m Hne Hm')
    as (gs' & ge' & k0 & Hmin & Hmax & Hk0 & ->).
  pose proof (active_within_own_window m Hnd Hm) as Hown.
  set (d' := timelines m []) in *.
  assert (k0 ∈ dict_keys d') as Hk0d.
  { destruct (sorted_by _ d') as [|kv sorted] eqn:Hs; [discriminate|].
    injection Hk0 as <-. apply list_elem_of_fmap. exists kv. split; [reflexivity|].
    apply (sorted_by_elem_of (fun kv => start_time (snd kv))). rewrite Hs. by left. }
  destruct (for_each_enumerate_inv (fill_loop_body d') (origin_inv d')
              (within_own_window d') (fill_step_origin d')
              (sorted_by start_time (flat_map window_active m)) 0%nat
              {| all_segments := []; current_timestamp := gs'; current_window_id := k0 |})
    as (st & Hloop & Hall & Hwin).
  { apply Forall_forall. intros s Hs. apply sorted_by_elem_of in Hs.
    rewrite Forall_forall in Hown. exact (Hown s Hs). }
  { split; [constructor|exact Hk0d]. }
  unfold enumerate. rewrite Hloop. cbn [rbind].
  destruct (current_timestamp st <? ge').
  - destruct (gap_fill_total (current_timestamp st) ge' (current_window_id st) d'
                (current_timestamp st =? gs') true Hwin) as [G HG].
    rewrite HG. cbn [rbind]. intros [= <- <- <- <-].
    apply Forall_app. split; [exact Hall|exact (gap_fill_inside _ _ _ _ _ _ _ HG)].
  - cbn [rbind]. by intros [= <- <- <- <-].
Qed.

(** C1, as stated, fails on [disjoint_tabs]: the recording spans 0-30 ms and
    the instant 15 ms, at which neither window was recording, lies in no
    segment. *)
Lemma unrecorded_instant_not_covered :
  let sA := {| start_time := 0; end_time := 10; window_id := "A"; is_active := false |} in
  let sB := {| start_time := 20; end_time := 30; window_id := "B"; is_active := false |} in
  rmap (fun md => (RecordingMetadata.segments md, RecordingMetadata.start_time md,
                   RecordingMetadata.end_time md))
       (get_metadata_from_events_summary disjoint_tabs)
    = Ok ([sA; sB], 0, 30)
  /\ 0 <= 15 <= 30
  /\ ~ covered [sA; sB] 15.
Proof.
  cbv zeta. split; [reflexivity|]. split; [lia|].
  intros (s & Hs & Hcov). unfold covers in Hcov.
  apply elem_of_cons in Hs as [->|Hs]; [cbn in Hcov; lia|].
  apply list_elem_of_singleton in Hs as ->. cbn in Hcov. lia.
Qed.

(** C1, amended: for a non-empty mapping of distinct window ids to
    non-empty lists sorted by timestamp, the segments are computed, with
    [global_start] the least first timestamp and [global_end] the greatest
    last timestamp of the windows; every segment has both ends within
    [global_start, global_end]; and every millisecond instant at which some
    window was recording (from its first timestamp up to, not including, its
    last) lies within some segment; and every instant that lies within a
    segment lies between the first and the last timestamp of some window, so
    an instant outside every window's timeline lies in no segment.  The
    timestamps are ones that are converted exactly. *)
Theorem segments_cover_recorded_instants (m : dict (list SessionRecordingEventSummary)) :
  m <> [] ->
  NoDup (dict_keys m) ->
  Forall (fun item => snd item <> [] /\ sorted_by_timestamp (snd item)) m ->
  exact_timestamps m ->
  exists segs gs ge,
    recording_segments m = Ok (segs, timelines m [], gs, ge)
    /\ timelines m [] = map (fun item => (fst item, timeline (fst item) (snd item))) m
    /\ py_min (map start_time (dict_values (timelines m []))) = Ok gs
    /\ py_max (map end_time (dict_values (timelines m []))) = Ok ge
    /\ Forall (in_range gs ge) segs
    /\ (forall x, recorded (timelines m []) x -> covered segs x)
    /\ (forall x, covered segs x ->
          exists kw, kw ∈ timelines m []
                     /\ start_time (snd kw) <= x <= end_time (snd kw))
    /\ (forall md,
          get_metadata_from_events_summary m = Ok md ->
          RecordingMetadata.segments md = segs
          /\ RecordingMetadata.start_time md = gs
          /\ RecordingMetadata.end_time md = ge).
Proof.
  intros Hne Hnd Hm _.
  destruct (recording_segments_coverage m Hne Hnd Hm)
    as (segs & gs & ge & Hrun & Hmin & Hmax & Hcov).
  exists segs, gs, ge.
  split; [exact Hrun|]. split; [by apply timelines_map|].
  split; [exact Hmin|]. split; [exact Hmax|].
  split; [exact (recording_segments_in_range m segs _ gs ge Hne Hnd Hm Hrun)|].
  split; [exact Hcov|].
  split.
  { intros x (s0 & Hs0 & Hx). unfold covers in Hx.
    pose proof (recording_segments_inside m segs _ gs ge Hne Hnd Hm Hrun) as Hinside.
    rewrite Forall_forall in Hinside. destruct (Hinside s0 Hs0) as (w & Hw & Hws & Hwe).
    exists (window_id s0, w). split; [by apply dict_get_elem_of|]. cbn [snd]. lia. }
  intros md Hmd.
  destruct (get_metadata_projections _ _ _ _ _ _ Hrun Hmd) as (? & _ & ? & ? & _).
  by repeat split.
Qed.

Lemma two_windows_well_formed :
  two_windows <> []
  /\ NoDup (dict_keys two_windows)
  /\ Forall (fun item => snd item <> [] /\ sorted_by_timestamp (snd item)) two_windows.
Proof.
  split; [discriminate|]. split.
  - constructor; [rewrite list_elem_of_singleton; discriminate|].
    constructor; [apply not_elem_of_nil|constructor].
  - repeat constructor; try discriminate; cbn; lia.
Defined.

Lemma segments_cover_recorded_instants_witness :
  exists segs gs ge,
    recording_segments two_windows = Ok (segs, timelines two_windows [], gs, ge)
    /\ timelines two_windows []
       = map (fun item => (fst item, timeline (fst item) (snd item))) two_windows
    /\ py_min (map start_time (dict_values (timelines two_windows []))) = Ok gs
    /\ py_max (map end_time (dict_values (timelines two_windows []))) = Ok ge
    /\ Forall (in_range gs ge) segs
    /\ (forall x, recorded (timelines two_windows []) x -> covered segs x)
    /\ (forall x, covered segs x ->
          exists kw, kw ∈ timelines two_windows []
                     /\ start_time (snd kw) <= x <= end_time (snd kw))
    /\ (forall md,
          get_metadata_from_events_summary two_windows = Ok md ->
          RecordingMetadata.segments md = segs
          /\ RecordingMetadata.start_time md = gs
          /\ RecordingMetadata.end_time md = ge).
Proof.
  destruct two_windows_well_formed as (Hne & Hnd & Hm).
  exact (segments_cover_recorded_instants two_windows Hne Hnd Hm two_windows_exact).
Defined.

(** The segments of [two_windows]: the gap after A's activity is filled
    from A, the window that was active last, and the tail from B. *)
Lemma two_windows_segments :
  rmap (fun md => RecordingMetadata.segments md)
       (get_metadata_from_events_summary two_windows)
    = Ok [ {| start_time := 0; end_time := 0; window_id := "A"; is_active := true |};
           {| start_time := 1; end_time := 19999; window_id := "A"; is_active := false |};
           {| start_time := 20000; end_time := 25000; window_id := "B";
              is_active := true |};
           {| start_time := 25001; end_time := 30000; window_id := "B";
              is_active := false |} ].
Proof. reflexivity. Qed.

(** The last instant of a window need not be covered: P holds a single
    inactive event at 0 ms and Q spans 5-10 ms, and no segment contains 0. *)
Lemma single_instant_window_not_covered :
  rmap (fun md => RecordingMetadata.segments md)
       (get_metadata_from_events_summary
          [("P", [full_snapshot 0]); ("Q", [full_snapshot 5; full_snapshot 10])])
    = Ok [ {| start_time := 5; end_time := 10; window_id := "Q"; is_active := false |} ].
Proof. reflexivity. Qed.

(** ** Counts and duration when nothing raises *)

Lemma filter_r_length_ok (n : Z) (l : list SessionRecordingEventSummary) :
  Forall has_source_when_type3 l ->
  exists kept, filter_r (is_type3_with_source n) l = Ok kept
               /\ length kept = count_type3_source n l.
Proof.
  intros Hl. pose proof (filter_r_total n l Hl) as Htotal.
  destruct (filter_r (is_type3_with_source n) l) as [kept|e]; [|discriminate].
  exists kept. split; [reflexivity|]. cbn in Htotal. by injection Htotal.
Qed.

(** X1: when every summary of type 3 has a [source] and the timestamps are
    converted exactly, the metadata is returned and the two counts are the numbers of type-3 summaries with source 2 and
    with source 5 across all windows. *)
Theorem counts_when_sources_present (m : dict (list SessionRecordingEventSummary)) :
  m <> [] ->
  Forall (fun item => snd item <> []) m ->
  exact_timestamps m ->
  Forall has_source_when_type3 (flatten (dict_values m)) ->
  exists md,
    get_metadata_from_events_summary m = Ok md
    /\ RecordingMetadata.click_count md = count_type3_source 2 (flatten (dict_values m))
    /\ RecordingMetadata.keypress_count md
       = count_type3_source 5 (flatten (dict_values m)).
Proof.
  intros Hne Hm _ Hsrc.
  destruct (recording_segments_boundaries m Hne Hm) as (segs & d & gs & ge & Hrun & _).
  destruct (filter_r_length_ok 2 _ Hsrc) as (clicks & Hclicks & Hnc).
  destruct (filter_r_length_ok 5 _ Hsrc) as (keys & Hkeys & Hnk).
  unfold get_metadata_from_events_summary. rewrite Hrun. cbn [rbind].
  rewrite Hclicks, Hkeys. cbn [rbind]. eexists. split; [reflexivity|].
  cbn. by split.
Qed.

Lemma counts_when_sources_present_witness :
  exists md,
    get_metadata_from_events_summary two_windows = Ok md
    /\ RecordingMetadata.click_count md
       = count_type3_source 2 (flatten (dict_values two_windows))
    /\ RecordingMetadata.keypress_count md
       = count_type3_source 5 (flatten (dict_values two_windows)).
Proof.
  apply (counts_when_sources_present two_windows).
  - discriminate.
  - repeat constructor; discriminate.
  - exact two_windows_exact.
  - unfold flatten, dict_values, two_windows. cbn [map snd concat app].
    repeat (apply Forall_cons; split;
            [unfold has_source_when_type3, mouse_move, full_snapshot; cbn [type data];
             first [intros H; discriminate H
                   |intros _; rewrite lookup_singleton_eq; by eexists]|]).
    by apply Forall_nil.
Defined.

(** X2: the [duration] returned is the elapsed whole seconds modulo one day; it
    is the elapsed whole seconds when the recording is shorter than a day. *)
Theorem duration_modulo_one_day (m : dict (list SessionRecordingEventSummary))
    (md : RecordingMetadata.t) :
  get_metadata_from_events_summary m = Ok md ->
  let elapsed := RecordingMetadata.end_time md - RecordingMetadata.start_time md in
  RecordingMetadata.duration md = (elapsed / 1000) mod 86400
  /\ (0 <= elapsed < 86400000 -> RecordingMetadata.duration md = elapsed / 1000).
Proof.
  intros Hmd. cbv zeta.
  assert (RecordingMetadata.duration md
          = timedelta_seconds_field
              (RecordingMetadata.end_time md - RecordingMetadata.start_time md)) as ->.
  { unfold get_metadata_from_events_summary in Hmd.
    destruct (recording_segments m) as [[[[segs d] gs] ge]|e]; [|discriminate].
    cbn [rbind] in Hmd.
    destruct (filter_r (is_type3_with_source 2) _); [|discriminate].
    destruct (filter_r (is_type3_with_source 5) _); [|discriminate].
    cbn [rbind] in Hmd. by injection Hmd as <-. }
  unfold timedelta_seconds_field. split; [reflexivity|].
  intros Hrange. apply Z.mod_small. split.
  - apply Z.div_pos; lia.
  - apply Z.div_lt_upper_bound; lia.
Qed.

Lemma two_windows_returns :
  exists md, get_metadata_from_events_summary two_windows = Ok md.
Proof. eexists. reflexivity. Defined.

Lemma duration_modulo_one_day_witness :
  exists md,
    get_metadata_from_events_summary two_windows = Ok md
    /\ let elapsed := RecordingMetadata.end_time md - RecordingMetadata.start_time md in
       RecordingMetadata.duration md = (elapsed / 1000) mod 86400
       /\ (0 <= elapsed < 86400000 -> RecordingMetadata.duration md = elapsed / 1000).
Proof.
  destruct two_windows_returns as [md Hmd]. exists md. split; [exact Hmd|].
  exact (duration_modulo_one_day two_windows md Hmd).
Defined.

(** ** Worked scenarios *)

(** One window, activity at 0 s, 5 s and 30 s: two active segments and the
    gap between them, one millisecond short at either end. *)
Example scenario_single_window :
  rmap (fun md => RecordingMetadata.segments md)
       (get_metadata_from_events_summary [("w1", three_moves)])
    = Ok [ {| start_time := 0; end_time := 5000; window_id := "w1"; is_active := true |};
           {| start_time := 5001; end_time := 29999; window_id := "w1";
              is_active := false |};
           {| start_time := 30000; end_time := 30000; window_id := "w1";
              is_active := true |} ].
Proof. reflexivity. Qed.

Example scenario_counts :
  rmap (fun md => (RecordingMetadata.click_count md, RecordingMetadata.keypress_count md))
       (get_metadata_from_events_summary clicks_and_keys)
    = Ok (3%nat, 2%nat).
Proof. reflexivity. Qed.

Example scenario_inclusion_list :
  map data (get_events_summary_from_snapshot_data [event_with_secret])
    = [ <["source" := SInt 1]>
          (<["payload" := SDict (<["href" := Str "http://a"]> ∅)]> ∅) ].
Proof. vm_compute. reflexivity. Qed.

(** * Further properties *)

(** ** Exceptions of [get_metadata_from_events_summary] *)

Lemma window_loop_empty_list (m : dict (list SessionRecordingEventSummary))
    (st : list RecordingSegment * dict RecordingSegment) :
  Exists (fun item => snd item = []) m ->
  for_each window_loop_body m st = Raise IndexError.
Proof.
  intros Hm. revert st. induction m as [|[wid evs] m IH]; intros st.
  - by apply Exists_nil in Hm.
  - cbn [for_each]. unfold window_loop_body at 1. cbn [fst snd].
    destruct evs as [|e evs]; [reflexivity|].
    cbn [py_first rbind]. unfold py_last.
    destruct (last (e :: evs)) as [e'|] eqn:Hlast; [|by apply last_None in Hlast].
    cbn [rbind]. apply IH.
    apply Exists_cons in Hm as [Hm|Hm]; [discriminate Hm|exact Hm].
Qed.

Lemma is_type3_with_source_raises (n : Z) (x : SessionRecordingEventSummary) (e : exn) :
  is_type3_with_source n x = Raise e -> e = KeyError.
Proof.
  unfold is_type3_with_source. destruct (type x =? 3); [|discriminate].
  destruct (data x !! "source") as [[?|?|?]|]; try discriminate. by intros [= <-].
Qed.

Lemma filter_r_raises (n : Z) (l : list SessionRecordingEventSummary) :
  Exists lacks_source l ->
  filter_r (is_type3_with_source n) l = Raise KeyError.
Proof.
  induction l as [|x l IH]; intros Hl; [by apply Exists_nil in Hl|].
  cbn [filter_r].
  destruct (is_type3_with_source n x) as [b|e] eqn:Hx.
  - cbn [rbind]. apply Exists_cons in Hl as [[Ht Hs]|Hl].
    + unfold is_type3_with_source in Hx. rewrite Hs in Hx.
      replace (type x =? 3) with true in Hx by (symmetry; by apply Z.eqb_eq).
      discriminate.
    + by rewrite IH.
  - cbn [rbind]. by rewrite (is_type3_with_source_raises n x e Hx).
Qed.

(** X3: an empty mapping raises [ValueError] (the minimum of no start
    times), and a mapping in which some window has an empty list, and whose
    timestamps are converted exactly, raises [IndexError]. *)
Theorem get_metadata_empty_inputs (m : dict (list SessionRecordingEventSummary)) :
  (m = [] -> get_metadata_from_events_summary m = Raise ValueError)
  /\ (exact_timestamps m ->
      Exists (fun item => snd item = []) m ->
      get_metadata_from_events_summary m = Raise IndexError).
Proof.
  split.
  - by intros ->.
  - intros _ Hm. unfold get_metadata_from_events_summary, recording_segments.
    by rewrite window_loop_empty_list.
Qed.

(** X4: for a non-empty mapping of non-empty lists whose timestamps are
    converted exactly, a summary of type 3 without a [source] anywhere makes
    the function raise [KeyError]. *)
Theorem get_metadata_missing_source (m : dict (list SessionRecordingEventSummary)) :
  m <> [] ->
  Forall (fun item => snd item <> []) m ->
  exact_timestamps m ->
  Exists lacks_source (flatten (dict_values m)) ->
  get_metadata_from_events_summary m = Raise KeyError.
Proof.
  intros Hne Hm _ Hmissing.
  destruct (recording_segments_boundaries m Hne Hm) as (segs & d & gs & ge & Hrun & _).
  unfold get_metadata_from_events_summary. rewrite Hrun. cbn [rbind].
  by rewrite filter_r_raises.
Qed.

Lemma get_metadata_missing_source_witness :
  get_metadata_from_events_summary
    [("A", [mouse_move 0]); ("B", [full_snapshot 3; {| timestamp := 4; type := 3; data := ∅ |}])]
    = Raise KeyError.
Proof.
  apply get_metadata_missing_source.
  - discriminate.
  - repeat constructor; discriminate.
  - exact_ts.
  - unfold flatten, dict_values. cbn [map snd concat app].
    apply Exists_cons. right. apply Exists_cons. right. apply Exists_cons. left.
    split; reflexivity.
Defined.

(** ** Active segments pass through the gap filler *)

Lemma for_each_enumerate_prefix {S X : Type} (body : S -> nat * X -> result S)
    (Inv : list X -> S -> Prop) (Q : X -> Prop) :
  (forall pre st x, Inv pre st -> Q x ->
     exists st', body st (length pre, x) = Ok st' /\ Inv (pre ++ [x]) st') ->
  forall (l pre : list X) (st : S),
    Forall Q l -> Inv pre st ->
    exists st', for_each body (combine (seq (length pre) (length l)) l) st = Ok st'
                /\ Inv (pre ++ l) st'.
Proof.
  intros Hstep l. induction l as [|x l IH]; intros pre st Hl Hinv.
  - exists st. cbn. by rewrite app_nil_r.
  - apply Forall_cons in Hl as [Hx Hl].
    destruct (Hstep pre st x Hinv Hx) as (st1 & Hbody & Hinv1).
    destruct (IH (pre ++ [x]) st1 Hl Hinv1) as (st' & Hloop & Hinv').
    exists st'. cbn [length seq combine for_each]. rewrite Hbody. cbn [rbind].
    rewrite length_app in Hloop. cbn [length] in Hloop.
    replace (length pre + 1)%nat with (Datatypes.S (length pre)) in Hloop by lia.
    split; [exact Hloop|]. by rewrite <- app_assoc in Hinv'.
Qed.

Lemma filter_inactive_nil (segs : list RecordingSegment) :
  Forall (fun s => is_active s = false) segs -> List.filter is_active segs = [].
Proof.
  induction 1 as [|s segs Hs _ IH]; [reflexivity|]. cbn. by rewrite Hs.
Qed.

Lemma fill_step_active_kept (d : dict RecordingSegment)
    (processed : list RecordingSegment) (st : fill_state) (seg : RecordingSegment) :
  active_kept_inv d processed st ->
  is_active seg = true /\ window_id seg ∈ dict_keys d ->
  exists st', fill_loop_body d st (length processed, seg) = Ok st'
              /\ active_kept_inv d (processed ++ [seg]) st'.
Proof.
  intros [Hkept Hwin] [Hact Hwid]. unfold fill_loop_body. cbn [fst snd].
  destruct (current_timestamp st <? start_time seg).
  - destruct (gap_fill_total (current_timestamp st) (start_time seg) (current_window_id st)
                d (length processed =? 0)%nat false Hwin) as [G HG].
    rewrite HG. cbn [rbind]. eexists. split; [reflexivity|].
    destruct (gap_fill_shape _ _ _ _ _ _ _ HG) as (Hinactive & _ & _).
    split; [|exact Hwid]. cbn [all_segments].
    rewrite !List.filter_app, Hkept, (filter_inactive_nil G Hinactive), app_nil_r.
    cbn. by rewrite Hact.
  - cbn [rbind]. eexists. split; [reflexivity|].
    split; [|exact Hwid]. cbn [all_segments].
    rewrite List.filter_app, Hkept. cbn. by rewrite Hact.
Qed.

(** X5: for a non-empty mapping of non-empty lists whose timestamps are
    converted exactly, the active segments among the returned segments are
    the active segments of all the windows, each once, in ascending order of
    start time, those with the same start time in the order of the windows;
    the gap filler adds inactive segments only. *)
Theorem active_segments_kept (m : dict (list SessionRecordingEventSummary)) :
  m <> [] ->
  Forall (fun item => snd item <> []) m ->
  exact_timestamps m ->
  exists segs d gs ge,
    recording_segments m = Ok (segs, d, gs, ge)
    /\ (let kept := List.filter is_active segs in
        let found :=
          flat_map (fun item =>
                      get_active_segments_from_event_list (snd item) (fst item)
                        ACTIVITY_THRESHOLD_SECONDS) m in
        kept ≡ₚ found
        /\ Sorted (fun a b => start_time a <= start_time b) kept
        /\ forall t,
             List.filter (fun s => start_time s =? t) kept
             = List.filter (fun s => start_time s =? t) found)
    /\ (forall md, get_metadata_from_events_summary m = Ok md ->
                   RecordingMetadata.segments md = segs).
Proof.
  intros Hne Hm _.
  destruct (recording_segments_unfold m Hne Hm) as (gs & ge & k0 & _ & _ & Hk0 & Hrun).
  set (d := timelines m []) in *.
  assert (k0 ∈ dict_keys d) as Hk0d.
  { destruct (sorted_by _ d) as [|kv sorted] eqn:Hs; [discriminate|].
    injection Hk0 as <-. apply list_elem_of_fmap. exists kv. split; [reflexivity|].
    apply (sorted_by_elem_of (fun kv => start_time (snd kv))). rewrite Hs. by left. }
  destruct (for_each_enumerate_prefix (fill_loop_body d) (active_kept_inv d)
              (fun seg => is_active seg = true /\ window_id seg ∈ dict_keys d)
              (fill_step_active_kept d)
              (sorted_by start_time (flat_map window_active m)) []
              {| all_segments := []; current_timestamp := gs; current_window_id := k0 |})
    as (st & Hloop & Hkept & Hwin).
  { apply Forall_forall. intros s Hs. apply sorted_by_elem_of in Hs.
    pose proof (window_active_tags m) as Htags. rewrite Forall_forall in Htags.
    destruct (Htags s Hs) as [Hact Hwid]. split; [exact Hact|].
    apply timelines_keys. by right. }
  { by split. }
  cbn [length app] in Hloop, Hkept. unfold enumerate in Hrun.
  rewrite Hloop in Hrun. cbn [rbind] in Hrun.
  assert (exists segs, recording_segments m = Ok (segs, d, gs, ge)
                       /\ List.filter is_active segs
                          = sorted_by start_time (flat_map window_active m))
    as (segs & Hsegs & Hfilter).
  { destruct (current_timestamp st <? ge).
    - destruct (gap_fill_total (current_timestamp st) ge (current_window_id st) d
                  (current_timestamp st =? gs) true Hwin) as [G HG].
      rewrite HG in Hrun. cbn [rbind] in Hrun. eexists. split; [exact Hrun|].
      destruct (gap_fill_shape _ _ _ _ _ _ _ HG) as (Hinactive & _ & _).
      by rewrite List.filter_app, Hkept, (filter_inactive_nil G Hinactive), app_nil_r.
    - cbn [rbind] in Hrun. eexists. split; [exact Hrun|exact Hkept]. }
  exists segs, d, gs, ge. split; [exact Hsegs|]. split.
  { cbv zeta. rewrite Hfilter. fold window_active.
    split; [apply sorted_by_perm|].
    split; [apply StronglySorted_Sorted, (sorted_by_sorted start_time)|].
    intros t. apply (sorted_by_filter_key start_time). }
  intros md Hmd. by destruct (get_metadata_projections _ _ _ _ _ _ Hsegs Hmd) as (? & _).
Qed.

Lemma active_segments_kept_witness :
  exists segs d gs ge,
    recording_segments two_windows = Ok (segs, d, gs, ge)
    /\ (let kept := List.filter is_active segs in
        let found :=
          flat_map (fun item =>
                      get_active_segments_from_event_list (snd item) (fst item)
                        ACTIVITY_THRESHOLD_SECONDS) two_windows in
        kept ≡ₚ found
        /\ Sorted (fun a b => start_time a <= start_time b) kept
        /\ forall t,
             List.filter (fun s => start_time s =? t) kept
             = List.filter (fun s => start_time s =? t) found)
    /\ (forall md, get_metadata_from_events_summary two_windows = Ok md ->
                   RecordingMetadata.segments md = segs).
Proof.
  apply (active_segments_kept two_windows).
  - discriminate.
  - repeat constructor; discriminate.
  - exact two_windows_exact.
Defined.

(** ** Active events and their segments *)

Lemma spec_walk_active_covers (wid : WindowId) (thr : Z) (cur : RecordingSegment)
    (ts : list Z) (x : Z) :
  start_time cur <= end_time cur ->
  Forall (fun t => end_time cur <= t) ts ->
  StronglySorted Z.le ts ->
  x ∈ ts \/ covers cur x ->
  covered (spec_walk_active wid thr cur ts) x.
Proof.
  revert cur. induction ts as [|t ts IH]; intros cur Hle Hall Hsorted Hx;
    [cbn [spec_walk_active]|rewrite spec_walk_active_cons].
  - destruct Hx as [Hx|Hx]; [by apply elem_of_nil in Hx|].
    exists cur. split; [by left|exact Hx].
  - apply Forall_cons in Hall as [Ht Hall].
    apply StronglySorted_inv in Hsorted as [Hsorted Htl].
    destruct (t - end_time cur <=? 1000 * thr).
    + apply IH; [cbn; lia|exact Htl|exact Hsorted|].
      unfold covers in *. cbn.
      destruct Hx as [[->|Hx]%elem_of_cons|Hx]; [right; lia|by left|right; lia].
    + apply covered_cons.
      destruct Hx as [[->|Hx]%elem_of_cons|Hx]; [right|right|by left].
      * apply IH; [cbn; lia|exact Htl|exact Hsorted|]. right. unfold covers. cbn. lia.
      * apply IH; [cbn; lia|exact Htl|exact Hsorted|]. by left.
Qed.

Lemma spec_walk_active_length (wid : WindowId) (thr : Z) (cur : RecordingSegment)
    (ts : list Z) :
  (length (spec_walk_active wid thr cur ts) <= S (length ts))%nat.
Proof.
  revert cur. induction ts as [|t ts IH]; intros cur; [cbn; lia|].
  rewrite spec_walk_active_cons.
  destruct (t - end_time cur <=? 1000 * thr); cbn [length].
  - specialize (IH (set_end_time cur t)). lia.
  - specialize (IH (new_active_segment t wid)). cbn [length]. lia.
Qed.

Lemma gaps_disjoint (thr : Z) (l : list RecordingSegment) :
  0 <= thr ->
  Sorted (gap_after thr) l ->
  Forall (fun s => start_time s <= end_time s) l ->
  StronglySorted (fun a b => end_time a < start_time b) l.
Proof.
  intros Hthr Hgap Hall. induction Hgap as [|a l _ IH Hhd]; [constructor|].
  apply Forall_cons in Hall as [Ha Hall]. specialize (IH Hall).
  constructor; [exact IH|].
  destruct Hhd as [|b l Hab]; [constructor|].
  unfold gap_after, timedelta_seconds in Hab.
  apply Forall_cons in Hall as [Hb Hall].
  apply StronglySorted_inv in IH as [_ Hbs].
  constructor; [lia|]. eapply Forall_impl; [exact Hbs|]. cbn. intros c Hc. lia.
Qed.

Lemma disjoint_cover_unique (l : list RecordingSegment) (s1 s2 : RecordingSegment)
    (x : Z) :
  StronglySorted (fun a b => end_time a < start_time b) l ->
  s1 ∈ l -> s2 ∈ l -> covers s1 x -> covers s2 x -> s1 = s2.
Proof.
  unfold covers. induction 1 as [|a l _ IH Ha]; intros H1 H2 Hc1 Hc2.
  - by apply elem_of_nil in H1.
  - rewrite Forall_forall in Ha.
    apply elem_of_cons in H1 as [->|H1]; apply elem_of_cons in H2 as [->|H2].
    + reflexivity.
    + specialize (Ha s2 H2). lia.
    + specialize (Ha s1 H1). lia.
    + by apply IH.
Qed.

(** X6: on a list sorted by timestamp and for a threshold that is not
    negative, every active event lies in exactly one returned segment, every
    segment starts and ends at the timestamp of an active event, and there
    are no more segments than active events. *)
Theorem active_events_partitioned
    (event_list : list SessionRecordingEventSummary) (wid : WindowId) (thr : Z) :
  sorted_by_timestamp event_list ->
  0 <= thr ->
  let out := get_active_segments_from_event_list event_list wid thr in
  (forall e, e ∈ event_list -> is_active_event e = true ->
     exists s, s ∈ out /\ covers s (parse_snapshot_timestamp (timestamp e))
               /\ forall s', s' ∈ out ->
                    covers s' (parse_snapshot_timestamp (timestamp e)) -> s' = s)
  /\ (forall s, s ∈ out ->
        (exists e, e ∈ event_list /\ is_active_event e = true
                   /\ parse_snapshot_timestamp (timestamp e) = start_time s)
        /\ (exists e, e ∈ event_list /\ is_active_event e = true
                      /\ parse_snapshot_timestamp (timestamp e) = end_time s))
  /\ (length out <= length (List.filter is_active_event event_list))%nat.
Proof.
  intros Hsorted Hthr out. subst out.
  rewrite (get_active_segments_eq _ _ _ Hsorted Hthr).
  pose proof (spec_active_segments_members event_list wid thr Hsorted) as Hmem.
  pose proof (spec_active_segments_gaps event_list wid thr) as Hgaps.
  pose proof (active_timestamps_sorted _ Hsorted) as Hts.
  assert (forall t, t ∈ map timestamp (List.filter is_active_event event_list) ->
            exists e, e ∈ event_list /\ is_active_event e = true
                      /\ parse_snapshot_timestamp (timestamp e) = t) as Hback.
  { intros t Ht. apply list_elem_of_In, in_map_iff in Ht. destruct Ht as (e & <- & He).
    apply filter_In in He as [He Hact]. exists e. by rewrite <- list_elem_of_In in He. }
  split; [|split].
  - intros e He Hact.
    assert (covered (spec_active_segments event_list wid thr)
              (parse_snapshot_timestamp (timestamp e))) as (s & Hs & Hcov).
    { assert (timestamp e ∈ map timestamp (List.filter is_active_event event_list)) as Hin.
      { apply list_elem_of_In, in_map. apply filter_In. by rewrite <- list_elem_of_In. }
      unfold spec_active_segments, parse_snapshot_timestamp.
      destruct (map timestamp (List.filter is_active_event event_list)) as [|t ts];
        [by apply elem_of_nil in Hin|].
      apply StronglySorted_inv in Hts as [Hts Hhd].
      apply spec_walk_active_covers; [cbn; lia|exact Hhd|exact Hts|].
      apply elem_of_cons in Hin as [->|Hin]; [right|by left].
      unfold covers. cbn. lia. }
    exists s. split; [exact Hs|]. split; [exact Hcov|].
    intros s' Hs' Hcov'.
    apply (disjoint_cover_unique (spec_active_segments event_list wid thr) s' s
             (parse_snapshot_timestamp (timestamp e))); try assumption.
    apply (gaps_disjoint thr); [exact Hthr|exact Hgaps|].
    eapply Forall_impl; [exact Hmem|]. cbn. tauto.
  - intros s Hs. rewrite Forall_forall in Hmem.
    destruct (Hmem s Hs) as (_ & _ & _ & Hstart & Hend). split; by apply Hback.
  - unfold spec_active_segments. rewrite <- (length_map timestamp).
    destruct (map timestamp (List.filter is_active_event event_list)) as [|t ts];
      [reflexivity|].
    cbn [length]. apply spec_walk_active_length.
Qed.

Lemma active_events_partitioned_witness :
  let out := get_active_segments_from_event_list three_moves "w1" 10 in
  (forall e, e ∈ three_moves -> is_active_event e = true ->
     exists s, s ∈ out /\ covers s (parse_snapshot_timestamp (timestamp e))
               /\ forall s', s' ∈ out ->
                    covers s' (parse_snapshot_timestamp (timestamp e)) -> s' = s)
  /\ (forall s, s ∈ out ->
        (exists e, e ∈ three_moves /\ is_active_event e = true
                   /\ parse_snapshot_timestamp (timestamp e) = start_time s)
        /\ (exists e, e ∈ three_moves /\ is_active_event e = true
                      /\ parse_snapshot_timestamp (timestamp e) = end_time s))
  /\ (length out <= length (List.filter is_active_event three_moves))%nat.
Proof.
  apply (active_events_partitioned three_moves "w1" 10).
  - repeat constructor; cbn; lia.
  - lia.
Defined.

(** ** One call of the gap filler *)

Lemma spec_walk_inactive_past_end (r : datetime) (d : dict RecordingSegment)
    (ids : list WindowId) (t : datetime) :
  r <= t ->
  Forall (fun wid => wid ∈ dict_keys d) ids ->
  spec_walk_inactive r d t ids = Ok [].
Proof.
  intros Ht. induction 1 as [|wid ids Hwid _ IH]; cbn [spec_walk_inactive]; [reflexivity|].
  destruct (dict_get_known d wid Hwid) as [w ->]. cbn [rbind].
  replace (t <? r) with false by (symmetry; by apply Z.ltb_ge).
  by rewrite andb_false_r.
Qed.

Lemma priority_list_known (d : dict RecordingSegment) (preferred : WindowId) :
  preferred ∈ dict_keys d ->
  Forall (fun wid => wid ∈ dict_keys d) (priority_list d preferred).
Proof.
  intros Hpref. unfold priority_list. constructor; [exact Hpref|].
  apply Forall_forall. intros k Hk. apply list_elem_of_fmap in Hk as (kv & -> & Hkv).
  apply sorted_by_elem_of in Hkv. apply list_elem_of_fmap. by exists kv.
Qed.

(** X7: when the range is empty ([range_end <= range_start]) and the
    preferred window id is in the map, no segment is returned. *)
Theorem generate_inactive_segments_empty_range
    (range_start range_end : datetime) (preferred : WindowId)
    (d : dict RecordingSegment) (is_first is_last : bool) :
  range_end <= range_start ->
  preferred ∈ dict_keys d ->
  generate_inactive_segments_for_range range_start range_end preferred d is_first is_last
    = Ok [].
Proof.
  intros Hrange Hpref. rewrite generate_inactive_segments_for_range_eq.
  unfold amended_inactive_segments.
  by rewrite (spec_walk_inactive_past_end _ _ _ _ Hrange (priority_list_known d _ Hpref)).
Qed.

Lemma generate_inactive_segments_empty_range_witness :
  generate_inactive_segments_for_range 20 20 "A" overlapping_windows false false = Ok [].
Proof.
  apply generate_inactive_segments_empty_range.
  - lia.
  - by left.
Defined.

Lemma spec_walk_inactive_not_again (r : datetime) (d : dict RecordingSegment)
    (ids : list WindowId) (t : datetime) (raw : list RecordingSegment)
    (wid : WindowId) (w : RecordingSegment) :
  dict_get d wid = Ok w ->
  end_time w <= t \/ r <= t ->
  spec_walk_inactive r d t ids = Ok raw ->
  wid ∉ map window_id raw.
Proof.
  intros Hw. revert t raw. induction ids as [|wid' ids IH]; intros t raw Ht;
    cbn [spec_walk_inactive].
  - intros [= <-]. apply not_elem_of_nil.
  - destruct (dict_get d wid') as [w'|e] eqn:Hw'; cbn [rbind]; [|discriminate].
    destruct ((t <? end_time w') && (t <? r)) eqn:Hemit; [|by apply IH].
    apply andb_true_iff in Hemit as [Ht1 Ht2]. apply Z.ltb_lt in Ht1, Ht2.
    destruct (spec_walk_inactive _ _ _ ids) as [rest|e] eqn:Hrest; [|discriminate].
    intros [= <-]. cbn [map window_id]. apply not_elem_of_cons. split.
    + intros ->. rewrite Hw in Hw'. injection Hw' as ->. lia.
    + eapply IH; [|exact Hrest]. cbn. lia.
Qed.

Lemma spec_walk_inactive_window_ids (r : datetime) (d : dict RecordingSegment)
    (ids : list WindowId) (t : datetime) (raw : list RecordingSegment) :
  spec_walk_inactive r d t ids = Ok raw ->
  NoDup (map window_id raw) /\ Forall (fun s => window_id s ∈ dict_keys d) raw.
Proof.
  revert t raw. induction ids as [|wid ids IH]; intros t raw; cbn [spec_walk_inactive].
  - intros [= <-]. split; constructor.
  - destruct (dict_get d wid) as [w|e] eqn:Hw; cbn [rbind]; [|discriminate].
    destruct ((t <? end_time w) && (t <? r)) eqn:Hemit; [|by apply IH].
    destruct (spec_walk_inactive _ _ _ ids) as [rest|e] eqn:Hrest; [|discriminate].
    intros [= <-]. destruct (IH _ _ Hrest) as [Hnd Hkeys]. split.
    + cbn [map window_id]. apply NoDup_cons. split; [|exact Hnd].
      eapply (spec_walk_inactive_not_again r d ids); [exact Hw| |exact Hrest].
      apply andb_true_iff in Hemit as [Ht1 Ht2]. apply Z.ltb_lt in Ht1, Ht2.
      cbn. lia.
    + constructor; [|exact Hkeys]. cbn. by apply (dict_get_key _ _ _ Hw).
Qed.

Lemma move_last_end_window_ids (r : datetime) (is_last : bool)
    (segs : list RecordingSegment) :
  map window_id (move_last_end r is_last segs) = map window_id segs.
Proof.
  induction segs as [|s segs IH]; [reflexivity|]. destruct segs as [|s' segs].
  - cbn. by destruct ((end_time s =? r) && negb is_last).
  - rewrite move_last_end_cons by discriminate. cbn [map]. by rewrite IH.
Qed.

Lemma adjust_from_window_ids (bump : bool) (t : datetime) (segs : list RecordingSegment) :
  map window_id (adjust_from bump t segs) = map window_id segs.
Proof.
  revert bump t. induction segs as [|s segs IH]; intros bump t; [reflexivity|].
  cbn [adjust_from map]. rewrite move_later_starts_adjust, IH.
  by destruct ((start_time s =? t) && bump).
Qed.

Lemma strict_chain_adjacent (p : datetime) (segs : list RecordingSegment)
    (s1 s2 : RecordingSegment) :
  strict_chain p segs -> adjacent segs s1 s2 -> end_time s1 < start_time s2.
Proof.
  intros Hchain (i & H1 & H2). revert p i Hchain H1 H2.
  induction segs as [|s segs IH]; intros p i Hchain H1 H2; [discriminate|].
  cbn [strict_chain] in Hchain. destruct Hchain as [_ Hrest].
  destruct i as [|i].
  - cbn in H1, H2. injection H1 as ->.
    destruct segs as [|s' segs]; [discriminate|]. cbn in H2. injection H2 as ->.
    cbn [strict_chain] in Hrest. lia.
  - cbn in H1, H2. by apply (IH (end_time s) i).
Qed.

Lemma gap_fill_ends (c r : datetime) (preferred : WindowId) (d : dict RecordingSegment)
    (is_first is_last : bool) (segs : list RecordingSegment) :
  generate_inactive_segments_for_range c r preferred d is_first is_last = Ok segs ->
  Forall (fun s => end_time s <= r) segs
  /\ NoDup (map window_id segs)
  /\ Forall (fun s => window_id s ∈ dict_keys d) segs.
Proof.
  rewrite generate_inactive_segments_for_range_eq. unfold amended_inactive_segments.
  destruct (spec_walk_inactive _ _ _ _) as [raw|e] eqn:Hraw; [|discriminate].
  intros [= <-]. destruct (spec_walk_inactive_window_ids _ _ _ _ _ Hraw) as [Hnd Hkeys].
  apply spec_walk_inactive_chain, cursor_chain_Forall in Hraw.
  assert (map window_id
            (move_last_end r is_last
               (move_first_start c is_first (keep_first_move_later raw)))
          = map window_id raw) as Hids
    by (by rewrite move_last_end_window_ids, move_first_start_adjust,
          adjust_from_window_ids).
  split; [|split].
  - apply move_last_end_Forall; [cbn; intros; lia|].
    rewrite move_first_start_adjust. destruct raw as [|s raw]; [constructor|].
    apply Forall_cons in Hraw as [[Hs _] Hraw]. cbn [adjust_from]. constructor.
    + by destruct ((start_time s =? c) && negb is_first).
    + apply (move_later_starts_Forall (fun s => end_time s <= r)); [done|].
      eapply Forall_impl; [exact Hraw|]. cbn. tauto.
  - by rewrite Hids.
  - apply Forall_forall. intros s Hs.
    assert (window_id s ∈ map window_id raw) as Hin
      by (rewrite <- Hids; apply list_elem_of_fmap; by exists s).
    apply list_elem_of_fmap in Hin as (s0 & -> & Hs0).
    rewrite Forall_forall in Hkeys. by apply Hkeys.
Qed.

(** X8: the segments one call returns are inactive, belong to windows of
    the map, at most one to each window, and follow each other in time
    without touching: each starts strictly after the one before it ends.
    The first starts at or after the range start (strictly after, unless the
    call is at the recording start) and the last ends at or before the range
    end (strictly before, unless the call is at the recording end). *)
Theorem generate_inactive_segments_shape
    (range_start range_end : datetime) (preferred : WindowId)
    (d : dict RecordingSegment) (is_first is_last : bool)
    (segs : list RecordingSegment) :
  generate_inactive_segments_for_range range_start range_end preferred d is_first is_last
    = Ok segs ->
  Forall (fun s => is_active s = false /\ window_id s ∈ dict_keys d) segs
  /\ NoDup (map window_id segs)
  /\ (forall s1 s2, adjacent segs s1 s2 -> end_time s1 < start_time s2)
  /\ (forall s, head segs = Some s ->
        range_start <= start_time s /\ (is_first = false -> range_start < start_time s))
  /\ (forall s, last segs = Some s ->
        end_time s <= range_end /\ (is_last = false -> end_time s < range_end)).
Proof.
  intros Hgen.
  destruct (gap_fill_shape _ _ _ _ _ _ _ Hgen) as (Hinactive & Hshape & Hlast).
  destruct (gap_fill_ends _ _ _ _ _ _ _ Hgen) as (Hends & Hnd & Hkeys).
  split; [|split; [exact Hnd|split; [|split]]].
  - apply Forall_forall. intros s Hs. rewrite Forall_forall in Hinactive, Hkeys. auto.
  - intros s1 s2 Hadj. destruct segs as [|g segs]; [by destruct Hadj as (i & ? & _)|].
    cbn [gap_shape] in Hshape. destruct Hshape as (_ & _ & Hchain).
    apply (strict_chain_adjacent (start_time g - 1) (g :: segs)); [|exact Hadj].
    cbn [strict_chain]. split; [lia|exact Hchain].
  - intros s Hs. destruct segs as [|g segs]; [discriminate|].
    cbn in Hs. injection Hs as ->. cbn [gap_shape] in Hshape. tauto.
  - intros s Hs. split; [|intros ->; by apply Hlast].
    rewrite Forall_forall in Hends. apply Hends.
    apply last_Some in Hs as [l' ->]. apply elem_of_app. right. by left.
Qed.

Lemma generate_inactive_segments_shape_witness :
  exists segs,
    generate_inactive_segments_for_range 0 20 "A" overlapping_windows false false
      = Ok segs
    /\ length segs = 2%nat
    /\ NoDup (map window_id segs)
    /\ forall s1 s2, adjacent segs s1 s2 -> end_time s1 < start_time s2.
Proof.
  eexists. split; [vm_compute; reflexivity|]. split; [reflexivity|].
  edestruct (generate_inactive_segments_shape 0 20 "A" overlapping_windows false false)
    as (_ & Hnd & Hadj & _); [vm_compute; reflexivity|].
  split; [exact Hnd|exact Hadj].
Defined.

(** ** The round trip on arbitrary strings *)

Lemma decode_units_length_step (u : Z) (us : list Z) :
  (length (decode_units (u :: us)) <= S (length (decode_units us)))%nat.
Proof.
  cbn [decode_units]. destruct (is_high_surrogate u); [|cbn; lia].
  destruct us as [|v us]; [cbn; lia|].
  destruct (is_low_surrogate v) eqn:Hlow; [|cbn [length]; lia].
  cbn [decode_units length].
  destruct (is_high_surrogate v) eqn:Hhigh; [|cbn; lia].
  exfalso. apply surrogate_ranges in Hlow, Hhigh. lia.
Qed.

Lemma decode_units_encode_length (s : pystr) :
  Forall is_code_point s ->
  (length (decode_units (flat_map utf16_units s)) <= length s)%nat.
Proof.
  induction 1 as [|c s Hc _ IH]; [reflexivity|]. cbn [flat_map length].
  destruct (c <? 65536) eqn:Hlt.
  - unfold utf16_units at 1. rewrite Hlt. cbn [app].
    pose proof (decode_units_length_step c (flat_map utf16_units s)). lia.
  - apply Z.ltb_ge in Hlt. unfold is_code_point in Hc.
    rewrite decode_units_supplementary by lia. cbn [length]. lia.
Qed.

Lemma utf16_units_in_range (s : pystr) :
  Forall is_code_point s -> Forall is_utf16_unit (flat_map utf16_units s).
Proof.
  induction 1 as [|c s Hc _ IH]; [constructor|]. cbn [flat_map].
  apply Forall_app. split; [|exact IH].
  unfold utf16_units, is_code_point, is_utf16_unit in *.
  destruct (c <? 65536) eqn:Hlt.
  - apply Z.ltb_lt in Hlt. repeat constructor; lia.
  - apply Z.ltb_ge in Hlt.
    pose proof (Z.mod_pos_bound (c - 65536) 1024).
    assert (0 <= (c - 65536) / 1024 < 1024)
      by (split; [apply Z.div_pos; lia|apply Z.div_lt_upper_bound; lia]).
    repeat constructor; lia.
Qed.

(** Decoding joins or passes code units; the claims below go by induction on
    a bound of the length, the decoder taking one or two units at a time. *)
Lemma decode_units_facts (n : nat) (us : list Z) :
  (length us <= n)%nat ->
  Forall is_utf16_unit us ->
  flat_map utf16_units (decode_units us) = us
  /\ Forall is_code_point (decode_units us)
  /\ no_surrogate_pair (decode_units us) = true
  /\ (forall c, head (decode_units us) = Some c -> is_low_surrogate c = true ->
        head us = Some c).
Proof.
  revert us. induction n as [|n IH]; intros us Hlen Hus.
  - destruct us; [|cbn in Hlen; lia]. cbn. repeat split; [constructor|discriminate].
  - destruct us as [|u rest]; [cbn; repeat split; [constructor|discriminate]|].
    apply Forall_cons in Hus as [Hu Hrest]. cbn [length] in Hlen.
    assert (utf16_units u = [u]) as Hunit.
    { unfold utf16_units, is_utf16_unit in *.
      replace (u <? 65536) with true by (symmetry; apply Z.ltb_lt; lia). reflexivity. }
    assert (is_code_point u) as Hcp by (unfold is_code_point, is_utf16_unit in *; lia).
    destruct (IH rest ltac:(lia) Hrest) as (Hrt & Hrcp & Hrnp & Hrhd).
    assert (is_high_surrogate u = false ->
            no_surrogate_pair (u :: decode_units rest) = true) as Hnothigh.
    { intros Hhigh. cbn [no_surrogate_pair]. rewrite Hhigh, Hrnp.
      by destruct (decode_units rest). }
    cbn [decode_units]. destruct (is_high_surrogate u) eqn:Hhigh.
    + destruct rest as [|v rest'].
      * cbn [flat_map app]. rewrite Hunit. repeat split.
        -- by constructor.
        -- intros c [= <-]. reflexivity.
      * destruct (is_low_surrogate v) eqn:Hlow.
        -- apply Forall_cons in Hrest as [Hv Hrest']. cbn [length] in Hlen.
           destruct (IH rest' ltac:(lia) Hrest') as (Hrt' & Hrcp' & Hrnp' & _).
           apply surrogate_ranges in Hhigh, Hlow.
           set (c := 65536 + (u - 55296) * 1024 + (v - 56320)).
           assert (65536 <= c <= 1114111) as Hc by (subst c; lia).
           assert (utf16_units c = [u; v]) as Hcu.
           { unfold utf16_units.
             replace (c <? 65536) with false by (symmetry; apply Z.ltb_ge; lia).
             replace (c - 65536) with ((u - 55296) * 1024 + (v - 56320)) by (subst c; lia).
             rewrite Z.div_add_l, Z.div_small, Zplus_mod, Z.mod_mul, Z.add_0_l,
               Z.mod_mod, (Z.mod_small (v - 56320)) by lia.
             f_equal; [lia|f_equal; lia]. }
           split; [|split; [|split]].
           ++ cbn [flat_map]. rewrite Hcu, Hrt'. reflexivity.
           ++ constructor; [unfold is_code_point; lia|exact Hrcp'].
           ++ cbn [no_surrogate_pair]. rewrite Hrnp'.
              assert (is_high_surrogate c = false) as ->.
              { destruct (is_high_surrogate c) eqn:E; [|reflexivity].
                apply surrogate_ranges in E. lia. }
              by destruct (decode_units rest').
           ++ intros c' [= <-] Hc'. apply surrogate_ranges in Hc'. lia.
        -- split; [|split; [|split]].
           ++ cbn [flat_map]. rewrite Hunit, Hrt. reflexivity.
           ++ by constructor.
           ++ cbn [no_surrogate_pair]. rewrite Hrnp, andb_true_r.
              destruct (decode_units (v :: rest')) as [|c' tl] eqn:Hd; [reflexivity|].
              destruct (is_low_surrogate c') eqn:Hc'; [|by rewrite andb_false_r].
              specialize (Hrhd c' eq_refl Hc'). cbn in Hrhd. injection Hrhd as ->.
              congruence.
           ++ intros c [= <-]. reflexivity.
    + split; [|split; [|split]].
      * cbn [flat_map]. rewrite Hunit, Hrt. reflexivity.
      * by constructor.
      * by apply Hnothigh.
      * intros c [= <-]. reflexivity.
Qed.

(** X9: on every string of code points the round trip returns, at whatever
    time the string is compressed; the string it returns is a string of code
    points in which no high surrogate is directly followed by a low
    surrogate, it is not longer than the input, it has the same UTF-16
    encoding as the input, and a second round trip, at any time, returns it
    unchanged. *)
Theorem round_trip_normalises `{StdlibCodecs} (now : Z) (s : pystr) :
  Forall is_code_point s ->
  exists s',
    decompress (compress_to_string now s) = Ok s'
    /\ Forall is_code_point s'
    /\ no_surrogate_pair s' = true
    /\ (length s' <= length s)%nat
    /\ encode_utf16_surrogatepass s' = encode_utf16_surrogatepass s
    /\ (forall later, decompress (compress_to_string later s') = Ok s').
Proof.
  intros Hs. exists (decode_units (flat_map utf16_units s)).
  destruct (decode_units_facts (length (flat_map utf16_units s)) (flat_map utf16_units s)
              (le_n _) (utf16_units_in_range s Hs)) as (Hsame & Hcp & Hnp & _).
  assert (forall t, decompress (compress_to_string t s)
                    = Ok (decode_units (flat_map utf16_units s))) as Hround.
  { intros t. rewrite decompress_compress_to_string.
    unfold encode_utf16_surrogatepass, decode_utf16_surrogatepass.
    cbn [app]. by rewrite units_of_bytes_le. }
  assert (encode_utf16_surrogatepass (decode_units (flat_map utf16_units s))
          = encode_utf16_surrogatepass s) as Hencode
    by (unfold encode_utf16_surrogatepass; by rewrite Hsame).
  split; [apply Hround|]. split; [exact Hcp|]. split; [exact Hnp|].
  split; [by apply decode_units_encode_length|]. split; [exact Hencode|].
  intros later. rewrite !decompress_compress_to_string, Hencode.
  rewrite <- (decompress_compress_to_string later s). apply Hround.
Qed.

Lemma round_trip_normalises_witness :
  exists s',
    @decompress stored_codecs
      (@compress_to_string stored_codecs 1700000000 split_pair_json) = Ok s'
    /\ Forall is_code_point s'
    /\ no_surrogate_pair s' = true
    /\ (length s' <= length split_pair_json)%nat
    /\ encode_utf16_surrogatepass s' = encode_utf16_surrogatepass split_pair_json
    /\ (forall later,
          @decompress stored_codecs (@compress_to_string stored_codecs later s') = Ok s').
Proof.
  apply (@round_trip_normalises stored_codecs 1700000000 split_pair_json).
  unfold split_pair_json, is_code_point. repeat constructor; lia.
Defined.

(** ** The projector keeps the input order among equal timestamps *)

(** X10: the summaries that share a timestamp come out in the order of their
    events in the input (the sort is stable), and an input whose events with
    both keys already have ascending timestamps is summarised in place. *)
Theorem get_events_summary_stable (snapshot_data : list SnapshotData) :
  let out := get_events_summary_from_snapshot_data snapshot_data in
  (forall t,
     List.filter (fun s => timestamp s =? t) out
     = List.filter (fun s => timestamp s =? t) (omap summary_of snapshot_data))
  /\ (sorted_by_timestamp (omap summary_of snapshot_data) ->
      out = omap summary_of snapshot_data).
Proof.
  cbv zeta. unfold get_events_summary_from_snapshot_data.
  rewrite summary_loop_omap. cbn [app]. split.
  - intros t. apply sorted_by_filter_key.
  - intros Hsorted. apply sorted_by_already_sorted.
    apply Sorted_StronglySorted in Hsorted; [exact Hsorted|].
    intros a b c. unfold key_le. lia.
Qed.

(** ** What the summaries keep for the later stages *)

Lemma summary_entry (event : SnapshotData) (k : string) :
  k ∈ ["source"; "href"] ->
  summary_data event !! k = raw_entry event k ≫= svalue_of.
Proof.
  intros Hk.
  assert (k ∈ EVENT_SUMMARY_DATA_INCLUSIONS /\ k <> "payload") as [Hin Hne].
  { apply elem_of_cons in Hk as [->|Hk];
      [|apply list_elem_of_singleton in Hk as ->];
      (split; [unfold EVENT_SUMMARY_DATA_INCLUSIONS; set_solver|discriminate]). }
  rewrite summary_data_top_level by exact Hne.
  unfold raw_entry. destruct (_ !! k); [|reflexivity]. cbn.
  by rewrite bool_decide_eq_true_2.
Qed.

(** X11: every summary comes from an input event with its timestamp and
    type, and keeps what the later stages read from it: it is classified
    active exactly when its type is 3 and the event's [source] is one of the
    eight integers; its [href] is a string exactly when the event's is; the
    count of interactions raises [KeyError] on it exactly when its type is 3
    and the event's [source] is absent or neither a string nor an integer,
    and counts it exactly when its type is 3 and the event's [source] is the
    integer asked for. *)
Theorem summary_keeps_later_reads
    (snapshot_data : list SnapshotData) (s : SessionRecordingEventSummary) :
  s ∈ get_events_summary_from_snapshot_data snapshot_data ->
  exists event,
    event ∈ snapshot_data
    /\ raw_timestamp event = Some (timestamp s)
    /\ raw_type event = Some (type s)
    /\ (is_active_event s = true <->
        type s = 3 /\ exists z, raw_entry event "source" = Some (VInt z)
                                /\ z ∈ active_rr_web_sources)
    /\ (forall h, href_of s = Some h <-> raw_entry event "href" = Some (VStr h))
    /\ (forall n, is_type3_with_source n s = Raise KeyError <->
          type s = 3 /\ raw_entry event "source" ≫= svalue_of = None)
    /\ (forall n, is_type3_with_source n s = Ok true <->
          type s = 3 /\ raw_entry event "source" = Some (VInt n)).
Proof.
  unfold get_events_summary_from_snapshot_data. rewrite summary_loop_omap. cbn [app].
  intros Hs. apply sorted_by_elem_of in Hs.
  apply list_elem_of_omap in Hs as (event & Hevent & Hsum).
  exists event. split; [exact Hevent|].
  unfold summary_of in Hsum.
  destruct (raw_timestamp event) as [ts|]; [|discriminate].
  destruct (raw_type event) as [ty|]; [|discriminate].
  injection Hsum as <-. cbn [timestamp type data].
  split; [reflexivity|]. split; [reflexivity|].
  assert (summary_data event !! "source" = raw_entry event "source" ≫= svalue_of)
    as Hsource by (apply summary_entry; set_solver).
  assert (summary_data event !! "href" = raw_entry event "href" ≫= svalue_of)
    as Hhref by (apply summary_entry; set_solver).
  split; [|split; [|split]].
  - unfold is_active_event. cbn [type data]. rewrite Hsource, andb_true_iff, Z.eqb_eq.
    split.
    + intros [Hty Hin]. split; [exact Hty|].
      destruct (raw_entry event "source") as [[x|z|x|x]|]; try discriminate.
      exists z. split; [reflexivity|]. cbn in Hin. by apply bool_decide_eq_true in Hin.
    + intros [Hty (z & -> & Hz)]. split; [exact Hty|]. cbn.
      by apply bool_decide_eq_true.
  - intros h. unfold href_of. cbn [data]. rewrite Hhref.
    destruct (raw_entry event "href") as [[x|z|x|x]|]; cbn; split; congruence.
  - intros n. unfold is_type3_with_source. cbn [type data]. rewrite Hsource.
    destruct (ty =? 3) eqn:Hty.
    + apply Z.eqb_eq in Hty.
      destruct (raw_entry event "source") as [[x|z|x|x]|]; cbn;
        split; (congruence || tauto || (intros [_ ?]; congruence)).
    + apply Z.eqb_neq in Hty. split; [discriminate|tauto].
  - intros n. unfold is_type3_with_source. cbn [type data]. rewrite Hsource.
    destruct (ty =? 3) eqn:Hty.
    + apply Z.eqb_eq in Hty.
      destruct (raw_entry event "source") as [[x|z|x|x]|]; cbn;
        try (split; [discriminate|intros [_ ?]; congruence]).
      split.
      * intros [= Hz]. apply Z.eqb_eq in Hz. by subst.
      * intros [_ [= ->]]. by rewrite Z.eqb_refl.
    + apply Z.eqb_neq in Hty. split; [discriminate|tauto].
Qed.

Lemma summary_keeps_later_reads_witness :
  let s := {| timestamp := 2; type := 3; data := ∅ |} in
  s ∈ get_events_summary_from_snapshot_data [event_with_secret; float_source_event]
  /\ is_type3_with_source 2 s = Raise KeyError
  /\ exists event,
       event ∈ [event_with_secret; float_source_event]
       /\ raw_timestamp event = Some 2
       /\ raw_entry event "source" ≫= svalue_of = None.
Proof.
  cbv zeta.
  assert ({| timestamp := 2; type := 3; data := ∅ |}
          ∈ get_events_summary_from_snapshot_data [event_with_secret; float_source_event])
    as Hin by (vm_compute; right; left).
  split; [exact Hin|]. split; [reflexivity|].
  destruct (summary_keeps_later_reads _ _ Hin)
    as (event & Hevent & Hts & _ & _ & _ & Hraise & _).
  exists event. split; [exact Hevent|]. split; [exact Hts|].
  by apply (Hraise 2).
Defined.

(** ** The last instant of the recording *)

Lemma move_last_end_at_end (r : datetime) (segs : list RecordingSegment) :
  move_last_end r true segs = segs.
Proof.
  induction segs as [|s segs IH]; [reflexivity|]. destruct segs as [|s' segs].
  - cbn. by rewrite andb_false_r.
  - rewrite move_last_end_cons by discriminate. by rewrite IH.
Qed.

Lemma spec_walk_inactive_reaches_end (r : datetime) (d : dict RecordingSegment)
    (ids : list WindowId) (t : datetime) (bump : bool) (raw : list RecordingSegment) :
  (forall k w, dict_get d k = Ok w -> start_time w <= r) ->
  spec_walk_inactive r d t ids = Ok raw ->
  t < r ->
  Exists (fun k => exists w, dict_get d k = Ok w /\ r <= end_time w) ids ->
  covered (adjust_from bump t raw) r.
Proof.
  intros Hd. revert t bump raw.
  induction ids as [|k ids IH]; intros t bump raw Hwalk Ht Hex.
  - by apply Exists_nil in Hex.
  - cbn [spec_walk_inactive] in Hwalk.
    destruct (dict_get d k) as [w|e] eqn:Hw; cbn [rbind] in Hwalk; [|discriminate].
    pose proof (Hd k w Hw) as Hstart.
    assert (end_time w < r ->
            Exists (fun k => exists w, dict_get d k = Ok w /\ r <= end_time w) ids)
      as Htail.
    { intros Hend. apply Exists_cons in Hex as [(w' & Hw' & Hr)|Hex]; [|exact Hex].
      rewrite Hw in Hw'. injection Hw' as <-. lia. }
    destruct ((t <? end_time w) && (t <? r)) eqn:Hemit.
    + apply andb_true_iff in Hemit as [Ht1 _]. apply Z.ltb_lt in Ht1.
      destruct (spec_walk_inactive r d _ ids) as [rest|e] eqn:Hrest; [|discriminate].
      injection Hwalk as <-. cbn [adjust_from start_time end_time].
      apply covered_cons. destruct (Z.le_gt_cases r (end_time w)) as [Hr|Hr].
      * left. unfold covers.
        destruct ((Z.max (start_time w) t =? t) && bump) eqn:Hb;
          unfold forward_1ms, set_start_time; cbn [start_time end_time]; [|lia].
        apply andb_true_iff in Hb as [Hb _]. apply Z.eqb_eq in Hb. lia.
      * right. rewrite move_later_starts_adjust.
        apply (IH _ true rest Hrest); [cbn; lia|apply Htail; lia].
    + apply (IH t bump raw Hwalk Ht). apply Htail.
      apply andb_false_iff in Hemit as [Hemit|Hemit]; apply Z.ltb_ge in Hemit; lia.
Qed.

Lemma gap_fill_reaches_end (c r : datetime) (preferred : WindowId)
    (d : dict RecordingSegment) (is_first : bool) (segs : list RecordingSegment) :
  (forall k w, dict_get d k = Ok w -> start_time w <= r) ->
  (exists kw, kw ∈ d /\ dict_get d (fst kw) = Ok (snd kw) /\ r <= end_time (snd kw)) ->
  c < r ->
  generate_inactive_segments_for_range c r preferred d is_first true = Ok segs ->
  covered segs r.
Proof.
  intros Hd (kw & Hkw & Hget & Hend) Hc.
  rewrite generate_inactive_segments_for_range_eq. unfold amended_inactive_segments.
  destruct (spec_walk_inactive _ _ _ _) as [raw|e] eqn:Hraw; [|discriminate].
  intros [= <-]. rewrite move_last_end_at_end, move_first_start_adjust.
  apply (spec_walk_inactive_reaches_end r d _ c _ raw Hd Hraw Hc).
  unfold priority_list. apply Exists_cons. right.
  apply Exists_exists. exists (fst kw). split; [|by exists (snd kw)].
  apply list_elem_of_fmap. exists kw. split; [reflexivity|].
  by apply (sorted_by_elem_of (fun kv => start_time (snd kv))).
Qed.

(** X12: for a non-empty mapping of distinct window ids to non-empty lists
    sorted by timestamp, with timestamps that are converted exactly, the
    recording does not end before it starts, and
    when it ends after it starts its last instant lies in a segment. *)
Theorem recording_end_covered (m : dict (list SessionRecordingEventSummary)) :
  m <> [] ->
  NoDup (dict_keys m) ->
  Forall (fun item => snd item <> [] /\ sorted_by_timestamp (snd item)) m ->
  exact_timestamps m ->
  exists segs d gs ge,
    recording_segments m = Ok (segs, d, gs, ge)
    /\ gs <= ge
    /\ (gs < ge -> covered segs ge)
    /\ (forall md,
          get_metadata_from_events_summary m = Ok md ->
          RecordingMetadata.segments md = segs
          /\ RecordingMetadata.start_time md = gs
          /\ RecordingMetadata.end_time md = ge).
Proof.
  intros Hne Hnd Hm _.
  assert (Forall (fun item => snd item <> []) m) as Hm'
    by (eapply Forall_impl; [exact Hm|]; cbn; tauto).
  destruct (recording_segments_unfold m Hne Hm') as (gs & ge & k0 & Hmin & Hmax & Hk0 & Hrun).
  pose proof (active_within_own_window m Hnd Hm) as Hown.
  destruct (timelines_bounds m gs ge Hnd Hm Hmin Hmax) as [Hrange Hle].
  destruct (timelines_map m Hnd) as [_ Hkeys].
  set (d := timelines m []) in *.
  assert (NoDup (dict_keys d)) as Hndd by (by rewrite Hkeys).
  destruct (py_min_spec _ _ Hmin) as [_ Hgs_in].
  destruct (py_max_spec _ _ Hmax) as [_ Hge_in].
  assert (forall k w, dict_get d k = Ok w -> start_time w <= ge) as Hd.
  { intros k w Hw. apply dict_get_elem_of in Hw. destruct (Hrange _ Hw) as (_ & ? & ?).
    cbn in *. lia. }
  assert (exists kw, kw ∈ d /\ dict_get d (fst kw) = Ok (snd kw) /\ ge <= end_time (snd kw))
    as Hlast.
  { apply list_elem_of_fmap in Hge_in as (w & -> & Hw).
    apply list_elem_of_fmap in Hw as ([k w'] & -> & Hkw).
    exists (k, w'). split; [exact Hkw|]. split; [by apply dict_get_unique|cbn; lia]. }
  assert (exists p, dict_get d k0 = Ok p /\ start_time p <= gs) as Hfirst.
  { pose proof (sorted_by_sorted (fun kv => start_time (snd kv)) d) as Hsorted.
    destruct (sorted_by _ d) as [|[k0' w0] sorted] eqn:Hs; [discriminate|].
    injection Hk0 as <-. exists w0. split.
    - apply dict_get_unique; [exact Hndd|].
      apply (sorted_by_elem_of (fun kv => start_time (snd kv))). rewrite Hs. by left.
    - apply list_elem_of_fmap in Hgs_in as (w & -> & Hw).
      apply list_elem_of_fmap in Hw as (kw & -> & Hkw).
      apply (sorted_by_elem_of (fun kv => start_time (snd kv))) in Hkw. rewrite Hs in Hkw.
      apply StronglySorted_inv in Hsorted as [_ Hhd].
      apply elem_of_cons in Hkw as [->|Hkw]; [cbn; lia|].
      rewrite Forall_forall in Hhd. exact (Hhd kw Hkw). }
  destruct (for_each_enumerate_inv (fill_loop_body d) (coverage_inv d gs)
              (fun seg => within_own_window d seg /\ gs <= start_time seg)
              (fun k st x => fill_step_coverage d gs k st x Hndd)
              (sorted_by start_time (flat_map window_active m)) 0%nat
              {| all_segments := []; current_timestamp := gs; current_window_id := k0 |})
    as (st & Hloop & _ & Hat & Hzero & (p & Hp & _)).
  { apply Forall_forall. intros s Hs. apply sorted_by_elem_of in Hs.
    rewrite Forall_forall in Hown. specialize (Hown s Hs). split; [exact Hown|].
    destruct Hown as (w & Hw & Hws & _). apply dict_get_elem_of in Hw.
    destruct (Hrange _ Hw) as [Hgs _]. cbn in Hgs. lia. }
  { unfold coverage_inv. cbn [all_segments current_timestamp current_window_id].
    split; [|split; [done|split; [done|exact Hfirst]]].
    intros x Hx (kw & Hkw & Hkwx). destruct (Hrange _ Hkw). lia. }
  destruct (for_each_enumerate_inv (fill_loop_body d) (range_inv d gs ge)
              (fun seg => in_range gs ge seg /\ window_id seg ∈ dict_keys d)
              (fun k st x => fill_step_range d gs ge k st x Hd)
              (sorted_by start_time (flat_map window_active m)) 0%nat
              {| all_segments := []; current_timestamp := gs; current_window_id := k0 |})
    as (st' & Hloop' & _ & Hcur & _).
  { apply Forall_forall. intros s Hs. apply sorted_by_elem_of in Hs.
    rewrite Forall_forall in Hown. destruct (Hown s Hs) as (w & Hw & Hws & Hse & Hew).
    split; [|by apply (dict_get_key _ _ _ Hw)].
    apply dict_get_elem_of in Hw. destruct (Hrange _ Hw) as (? & ? & ?).
    cbn in *. unfold in_range. lia. }
  { unfold range_inv. cbn [all_segments current_timestamp current_window_id].
    split; [constructor|]. split; [lia|].
    destruct Hfirst as (q & Hq & _). exact (dict_get_key _ _ _ Hq). }
  rewrite Hloop in Hloop'. injection Hloop' as <-.
  unfold enumerate in Hrun. rewrite Hloop in Hrun. cbn [rbind] in Hrun.
  cbn [Nat.add] in Hat, Hzero.
  assert (exists segs,
            recording_segments m = Ok (segs, d, gs, ge) /\ (gs < ge -> covered segs ge))
    as (segs & Hsegs & Hcov).
  { destruct (current_timestamp st <? ge) eqn:Htrail.
    - apply Z.ltb_lt in Htrail.
      destruct (gap_fill_total (current_timestamp st) ge (current_window_id st) d
                  (current_timestamp st =? gs) true (dict_get_key _ _ _ Hp)) as [G HG].
      rewrite HG in Hrun. cbn [rbind] in Hrun. exists (all_segments st ++ G).
      split; [exact Hrun|]. intros _. apply covered_app. right.
      exact (gap_fill_reaches_end _ _ _ _ _ _ Hd Hlast Htrail HG).
    - apply Z.ltb_ge in Htrail. cbn [rbind] in Hrun. exists (all_segments st).
      split; [exact Hrun|]. intros Hlt.
      assert (current_timestamp st = ge) as Heq by lia. rewrite <- Heq. apply Hat.
      intros Hlen. specialize (Hzero Hlen). lia. }
  exists segs, d, gs, ge. split; [exact Hsegs|]. split; [exact Hle|].
  split; [exact Hcov|]. intros md Hmd.
  destruct (get_metadata_projections _ _ _ _ _ _ Hsegs Hmd) as (? & _ & ? & ? & _).
  auto.
Qed.

Lemma recording_end_covered_witness :
  exists segs d gs ge,
    recording_segments two_windows = Ok (segs, d, gs, ge)
    /\ gs <= ge
    /\ (gs < ge -> covered segs ge)
    /\ (forall md,
          get_metadata_from_events_summary two_windows = Ok md ->
          RecordingMetadata.segments md = segs
          /\ RecordingMetadata.start_time md = gs
          /\ RecordingMetadata.end_time md = ge).
Proof.
  destruct two_windows_well_formed as (Hne & Hnd & Hm).
  exact (recording_end_covered two_windows Hne Hnd Hm two_windows_exact).
Defined.

(** ** Order and shape of the segments *)

Lemma sorted_walk_tight (d : dict RecordingSegment) (r : datetime)
    (kvs : list (WindowId * RecordingSegment)) (t : datetime)
    (raw : list RecordingSegment) :
  StronglySorted (key_le (fun kv => start_time (snd kv))) kvs ->
  Forall (fun kv => dict_get d (fst kv) = Ok (snd kv)
                    /\ start_time (snd kv) <= end_time (snd kv)) kvs ->
  (t < r -> exists kv, kv ∈ kvs /\ start_time (snd kv) <= r <= end_time (snd kv)) ->
  spec_walk_inactive r d t (map fst kvs) = Ok raw ->
  tight_chain r t raw.
Proof.
  intros Hsorted. revert t raw.
  induction Hsorted as [|[k w] kvs Hsorted IH Hhd]; intros t raw Hget Hex Hwalk.
  - cbn in Hwalk. by injection Hwalk as <-.
  - apply Forall_cons in Hget as [[Hw Hwle] Hget]. cbn [fst snd] in Hw, Hwle.
    cbn [map fst spec_walk_inactive] in Hwalk. rewrite Hw in Hwalk. cbn [rbind] in Hwalk.
    rewrite Forall_forall in Hhd. unfold key_le in Hhd. cbn [snd] in Hhd.
    destruct ((t <? end_time w) && (t <? r)) eqn:Hemit.
    + apply andb_true_iff in Hemit as [Ht1 Ht2]. apply Z.ltb_lt in Ht1, Ht2.
      destruct (Hex Ht2) as (kv & Hkv & Hkvr).
      assert (start_time w <= r) as Hwr.
      { apply elem_of_cons in Hkv as [->|Hkv]; [cbn in Hkvr; lia|].
        specialize (Hhd kv Hkv). lia. }
      destruct (spec_walk_inactive r d _ (map fst kvs)) as [rest|e] eqn:Hrest;
        [|discriminate].
      injection Hwalk as <-. cbn [tight_chain start_time end_time].
      split; [lia|]. split; [lia|]. split; [lia|]. split; [lia|].
      apply IH; [exact Hget| |exact Hrest]. cbn [end_time]. intros Hlt.
      exists kv. split; [|exact Hkvr].
      apply elem_of_cons in Hkv as [->|Hkv]; [cbn in Hkvr; lia|exact Hkv].
    + apply IH; [exact Hget| |exact Hwalk]. intros Hlt.
      destruct (Hex Hlt) as (kv & Hkv & Hkvr). exists kv. split; [|exact Hkvr].
      apply elem_of_cons in Hkv as [->|Hkv]; [|exact Hkv]. cbn in Hkvr.
      apply andb_false_iff in Hemit as [Hemit|Hemit]; apply Z.ltb_ge in Hemit; lia.
Qed.

Lemma adjust_from_ordered (r t : datetime) (bump : bool) (raw : list RecordingSegment) :
  tight_chain r t raw ->
  Forall (fun g => t <= start_time g /\ start_time g <= end_time g /\ end_time g <= r)
    (adjust_from bump t raw)
  /\ Sorted (key_le start_time) (adjust_from bump t raw).
Proof.
  revert t bump. induction raw as [|s rest IH]; intros t bump Hchain.
  - cbn. split; constructor.
  - cbn [tight_chain] in Hchain. destruct Hchain as (Hts & Hse & Hte & Her & Hrest).
    cbn [adjust_from]. rewrite move_later_starts_adjust.
    destruct (IH (end_time s) true Hrest) as [Hall Hsorted].
    set (s' := if (start_time s =? t) && bump then forward_1ms s else s).
    assert (t <= start_time s' /\ start_time s' <= end_time s'
            /\ end_time s' = end_time s) as (H1 & H2 & H3).
    { subst s'. destruct ((start_time s =? t) && bump) eqn:Hb; [|lia].
      apply andb_true_iff in Hb as [Hb _]. apply Z.eqb_eq in Hb.
      unfold forward_1ms, set_start_time. cbn [start_time end_time]. lia. }
    split.
    + constructor; [lia|]. eapply Forall_impl; [exact Hall|]. cbn. intros g. lia.
    + constructor; [exact Hsorted|].
      destruct (adjust_from true (end_time s) rest) as [|g l]; constructor.
      apply Forall_cons in Hall as [Hg _]. unfold key_le. lia.
Qed.

Lemma move_last_end_sorted (r : datetime) (is_last : bool)
    (segs : list RecordingSegment) :
  Sorted (key_le start_time) segs ->
  Sorted (key_le start_time) (move_last_end r is_last segs).
Proof.
  induction segs as [|s segs IH]; [done|]. intros Hs.
  apply Sorted_inv in Hs as [Hsegs Hhd]. destruct segs as [|s' segs].
  - cbn. repeat constructor.
  - rewrite move_last_end_cons by discriminate. constructor; [by apply IH|].
    apply HdRel_inv in Hhd. destruct segs as [|s'' segs].
    + cbn. constructor. unfold key_le in *.
      by destruct ((end_time s' =? r) && negb is_last).
    + rewrite move_last_end_cons by discriminate. by constructor.
Qed.

Lemma move_last_end_weaken (P Q : RecordingSegment -> Prop) (r : datetime)
    (is_last : bool) (segs : list RecordingSegment) :
  (forall s, P s -> Q s) ->
  (forall s, P s -> Q (backward_1ms s)) ->
  Forall P segs -> Forall Q (move_last_end r is_last segs).
Proof.
  intros Hkeep Hback. induction segs as [|s segs IH]; [done|].
  intros [Hs Hsegs]%Forall_cons. destruct segs as [|s' segs].
  - cbn. constructor; [|constructor].
    destruct ((end_time s =? r) && negb is_last); auto.
  - rewrite move_last_end_cons by discriminate. constructor; auto.
Qed.

Lemma gap_fill_ordered (c r : datetime) (preferred : WindowId) (d : dict RecordingSegment)
    (is_first is_last : bool) (segs : list RecordingSegment) (p : RecordingSegment) :
  NoDup (dict_keys d) ->
  (forall kw, kw ∈ d -> start_time (snd kw) <= end_time (snd kw)) ->
  dict_get d preferred = Ok p ->
  start_time p <= c ->
  c < r ->
  (exists kw, kw ∈ d /\ start_time (snd kw) <= r <= end_time (snd kw)) ->
  generate_inactive_segments_for_range c r preferred d is_first is_last = Ok segs ->
  Sorted (key_le start_time) segs
  /\ Forall (fun g => c <= start_time g <= r /\ start_time g <= end_time g + 1) segs.
Proof.
  intros Hnd Hle Hp Hpc Hcr (kw & Hkw & Hkwr).
  rewrite generate_inactive_segments_for_range_eq. unfold amended_inactive_segments.
  destruct (spec_walk_inactive _ _ _ _) as [raw|e] eqn:Hraw; [|discriminate].
  intros [= <-]. rewrite move_first_start_adjust.
  set (kvs := sorted_by (fun kv => start_time (snd kv)) d) in *.
  assert (StronglySorted (key_le (fun kv => start_time (snd kv))) kvs) as Hsorted
    by apply sorted_by_sorted.
  assert (Forall (fun kv => dict_get d (fst kv) = Ok (snd kv)
                            /\ start_time (snd kv) <= end_time (snd kv)) kvs) as Hget.
  { apply Forall_forall. intros [k w] Hin. apply sorted_by_elem_of in Hin.
    split; [by apply dict_get_unique|by apply Hle]. }
  assert (forall t, t < r ->
            exists kv, kv ∈ kvs /\ start_time (snd kv) <= r <= end_time (snd kv)) as Hex.
  { intros t _. exists kw. split; [|exact Hkwr].
    by apply (sorted_by_elem_of (fun kv => start_time (snd kv))). }
  assert (tight_chain r c raw) as Hchain.
  { unfold priority_list in Hraw. fold kvs in Hraw. unfold dict_keys in Hraw.
    cbn [spec_walk_inactive] in Hraw. rewrite Hp in Hraw. cbn [rbind] in Hraw.
    pose proof (Hle _ (dict_get_elem_of _ _ _ Hp)) as Hple. cbn [snd] in Hple.
    destruct ((c <? end_time p) && (c <? r)) eqn:Hemit.
    - apply andb_true_iff in Hemit as [Ht1 _]. apply Z.ltb_lt in Ht1.
      destruct (spec_walk_inactive r d _ (map fst kvs)) as [rest|e] eqn:Hrest;
        [|discriminate].
      injection Hraw as <-. cbn [tight_chain start_time end_time].
      split; [lia|]. split; [lia|]. split; [lia|]. split; [lia|].
      exact (sorted_walk_tight d r kvs _ rest Hsorted Hget (Hex _) Hrest).
    - exact (sorted_walk_tight d r kvs c raw Hsorted Hget (Hex _) Hraw). }
  destruct (adjust_from_ordered r c (negb is_first) raw Hchain) as [Hall Hord].
  split; [by apply move_last_end_sorted|].
  eapply move_last_end_weaken; [| |exact Hall].
  - cbn. intros g. lia.
  - intros g. unfold backward_1ms, set_end_time. cbn [start_time end_time]. lia.
Qed.

Lemma StronglySorted_before {A : Type} (R : A -> A -> Prop) (pre : list A) (x : A)
    (l : list A) :
  StronglySorted R (pre ++ x :: l) -> Forall (fun y => R y x) pre.
Proof.
  induction pre as [|y pre IH]; [constructor|]. cbn [app]. intros H.
  apply StronglySorted_inv in H as [Hrest Hy]. constructor; [|by apply IH].
  rewrite Forall_forall in Hy. apply Hy. apply elem_of_app. right. by left.
Qed.

Lemma for_each_enumerate_sorted {S X : Type} (body : S -> nat * X -> result S)
    (Inv : list X -> S -> Prop) (R : X -> X -> Prop) (Q : X -> Prop) :
  (forall pre st x, Inv pre st -> Q x -> Forall (fun y => R y x) pre ->
     exists st', body st (length pre, x) = Ok st' /\ Inv (pre ++ [x]) st') ->
  forall (l pre : list X) (st : S),
    Forall Q l -> StronglySorted R (pre ++ l) -> Inv pre st ->
    exists st', for_each body (combine (seq (length pre) (length l)) l) st = Ok st'
                /\ Inv (pre ++ l) st'.
Proof.
  intros Hstep l. induction l as [|x l IH]; intros pre st Hl Hsorted Hinv.
  - exists st. cbn. by rewrite app_nil_r.
  - apply Forall_cons in Hl as [Hx Hl].
    destruct (Hstep pre st x Hinv Hx (StronglySorted_before R pre x l Hsorted))
      as (st1 & Hbody & Hinv1).
    destruct (IH (pre ++ [x]) st1 Hl) as (st' & Hloop & Hinv').
    { by rewrite <- app_assoc. }
    { exact Hinv1. }
    exists st'. cbn [length seq combine for_each]. rewrite Hbody. cbn [rbind].
    rewrite length_app in Hloop. cbn [length] in Hloop.
    replace (length pre + 1)%nat with (Datatypes.S (length pre)) in Hloop by lia.
    split; [exact Hloop|]. by rewrite <- app_assoc in Hinv'.
Qed.

Lemma last_elem_of {A : Type} (l : list A) (x : A) : last l = Some x -> x ∈ l.
Proof.
  intros H. apply last_Some in H as [l' ->]. apply elem_of_app. right. by left.
Qed.

Lemma fill_step_order (d : dict RecordingSegment) (processed : list RecordingSegment)
    (st : fill_state) (seg : RecordingSegment) :
  NoDup (dict_keys d) ->
  (forall kw, kw ∈ d -> start_time (snd kw) <= end_time (snd kw)) ->
  order_inv d processed st ->
  within_own_window d seg ->
  Forall (fun a => key_le start_time a seg) processed ->
  exists st', fill_loop_body d st (length processed, seg) = Ok st'
              /\ order_inv d (processed ++ [seg]) st'.
Proof.
  intros Hnd Hle (Hsorted & Hshape & Hlast & Hcur & (p & Hp & Hpc))
    (w & Hw & Hws & Hse & Hew) Hbefore.
  assert (forall x, last (all_segments st) = Some x -> start_time x <= start_time seg)
    as Hjoin.
  { intros x Hx. rewrite Hlast in Hx. apply last_elem_of in Hx.
    rewrite Forall_forall in Hbefore. exact (Hbefore x Hx). }
  assert (well_shaped seg) as Hseg by (unfold well_shaped; lia).
  unfold fill_loop_body. cbn [fst snd].
  destruct (current_timestamp st <? start_time seg) eqn:Hgap.
  - apply Z.ltb_lt in Hgap.
    destruct (gap_fill_total (current_timestamp st) (start_time seg) (current_window_id st)
                d (length processed =? 0)%nat false (dict_get_key _ _ _ Hp)) as [G HG].
    rewrite HG. cbn [rbind]. eexists. split; [reflexivity|].
    destruct (gap_fill_shape _ _ _ _ _ _ _ HG) as (Hinactive & _ & _).
    assert (exists kw, kw ∈ d /\ start_time (snd kw) <= start_time seg <= end_time (snd kw))
      as Hcover.
    { exists (window_id seg, w). split; [by apply dict_get_elem_of|]. cbn. lia. }
    destruct (gap_fill_ordered _ _ _ _ _ _ _ p Hnd Hle Hp Hpc Hgap Hcover HG)
      as [HGsorted HGall].
    rewrite Forall_forall in HGall.
    unfold order_inv. cbn [all_segments current_timestamp current_window_id].
    split; [|split; [|split; [|split]]].
    + apply Sorted_app_junction; [apply Sorted_app_junction| |].
      * exact Hsorted.
      * exact HGsorted.
      * intros x y Hx Hy. unfold key_le.
        rewrite Hlast in Hx. specialize (Hcur x Hx).
        destruct G as [|g G]; [discriminate|]. injection Hy as <-.
        destruct (HGall g ltac:(by left)) as [? _]. lia.
      * repeat constructor.
      * intros x y Hx [= <-]. unfold key_le. rewrite last_app in Hx.
        destruct (last G) as [g|] eqn:HlastG.
        -- injection Hx as <-. apply last_elem_of in HlastG.
           destruct (HGall g HlastG) as [? _]. lia.
        -- by apply Hjoin.
    + apply Forall_app. split; [apply Forall_app; split|by constructor].
      * exact Hshape.
      * apply Forall_forall. intros g Hg. destruct (HGall g Hg) as [_ Hg'].
        rewrite Forall_forall in Hinactive. specialize (Hinactive g Hg).
        unfold well_shaped. split; [exact Hg'|]. rewrite Hinactive. discriminate.
    + by rewrite !last_snoc.
    + intros a. rewrite last_snoc. intros [= <-]. lia.
    + exists w. split; [exact Hw|]. lia.
  - cbn [rbind]. eexists. split; [reflexivity|].
    unfold order_inv. cbn [all_segments current_timestamp current_window_id].
    split; [|split; [|split; [|split]]].
    + apply Sorted_app_junction; [exact Hsorted|repeat constructor|].
      intros x y Hx [= <-]. by apply Hjoin.
    + apply Forall_app. split; [exact Hshape|by constructor].
    + by rewrite !last_snoc.
    + intros a. rewrite last_snoc. intros [= <-]. lia.
    + exists w. split; [exact Hw|]. lia.
Qed.

(** X13: for a non-empty mapping of distinct window ids to non-empty lists
    sorted by timestamp, with timestamps that are converted exactly, the
    segments are computed and come in ascending order of start time;
    an active segment does not end before it starts, and an inactive one
    ends at most one millisecond before it starts. *)
Theorem segments_ordered_by_start (m : dict (list SessionRecordingEventSummary)) :
  m <> [] ->
  NoDup (dict_keys m) ->
  Forall (fun item => snd item <> [] /\ sorted_by_timestamp (snd item)) m ->
  exact_timestamps m ->
  exists segs d gs ge,
    recording_segments m = Ok (segs, d, gs, ge)
    /\ Sorted (key_le start_time) segs
    /\ Forall well_shaped segs
    /\ (forall md,
          get_metadata_from_events_summary m = Ok md ->
          RecordingMetadata.segments md = segs).
Proof.
  intros Hne Hnd Hm _.
  assert (Forall (fun item => snd item <> []) m) as Hm'
    by (eapply Forall_impl; [exact Hm|]; cbn; tauto).
  destruct (recording_segments_unfold m Hne Hm') as (gs & ge & k0 & Hmin & Hmax & Hk0 & Hrun).
  pose proof (active_within_own_window m Hnd Hm) as Hown.
  destruct (timelines_bounds m gs ge Hnd Hm Hmin Hmax) as [Hrange _].
  destruct (timelines_map m Hnd) as [_ Hkeys].
  set (d := timelines m []) in *.
  assert (NoDup (dict_keys d)) as Hndd by (by rewrite Hkeys).
  destruct (py_min_spec _ _ Hmin) as [_ Hgs_in].
  destruct (py_max_spec _ _ Hmax) as [_ Hge_in].
  assert (forall kw, kw ∈ d -> start_time (snd kw) <= end_time (snd kw)) as Hle
    by (intros kw Hkw; destruct (Hrange _ Hkw) as (_ & ? & _); done).
  assert (exists kw, kw ∈ d /\ start_time (snd kw) <= ge <= end_time (snd kw)) as Hlast.
  { apply list_elem_of_fmap in Hge_in as (w & -> & Hw).
    apply list_elem_of_fmap in Hw as (kw & -> & Hkw).
    exists kw. split; [exact Hkw|]. specialize (Hle _ Hkw). lia. }
  assert (exists p, dict_get d k0 = Ok p /\ start_time p <= gs) as Hfirst.
  { pose proof (sorted_by_sorted (fun kv => start_time (snd kv)) d) as Hsorted.
    destruct (sorted_by _ d) as [|[k0' w0] sorted] eqn:Hs; [discriminate|].
    injection Hk0 as <-. exists w0. split.
    - apply dict_get_unique; [exact Hndd|].
      apply (sorted_by_elem_of (fun kv => start_time (snd kv))). rewrite Hs. by left.
    - apply list_elem_of_fmap in Hgs_in as (w & -> & Hw).
      apply list_elem_of_fmap in Hw as (kw & -> & Hkw).
      apply (sorted_by_elem_of (fun kv => start_time (snd kv))) in Hkw. rewrite Hs in Hkw.
      apply StronglySorted_inv in Hsorted as [_ Hhd].
      apply elem_of_cons in Hkw as [->|Hkw]; [cbn; lia|].
      rewrite Forall_forall in Hhd. exact (Hhd kw Hkw). }
  destruct (for_each_enumerate_sorted (fill_loop_body d) (order_inv d)
              (key_le start_time) (within_own_window d)
              (fun pre st x => fill_step_order d pre st x Hndd Hle)
              (sorted_by start_time (flat_map window_active m)) []
              {| all_segments := []; current_timestamp := gs; current_window_id := k0 |})
    as (st & Hloop & Hsorted & Hshape & Hlastseg & Hcur & (p & Hp & Hpc)).
  { apply Forall_forall. intros s Hs. apply sorted_by_elem_of in Hs.
    rewrite Forall_forall in Hown. exact (Hown s Hs). }
  { cbn [app]. apply sorted_by_sorted. }
  { unfold order_inv. cbn [all_segments current_timestamp current_window_id].
    split; [constructor|]. split; [constructor|]. split; [reflexivity|].
    split; [discriminate|exact Hfirst]. }
  cbn [length app] in Hloop, Hlastseg, Hcur.
  unfold enumerate in Hrun. rewrite Hloop in Hrun. cbn [rbind] in Hrun.
  assert (exists segs,
            recording_segments m = Ok (segs, d, gs, ge)
            /\ Sorted (key_le start_time) segs /\ Forall well_shaped segs)
    as (segs & Hsegs & Hord & Hws).
  { destruct (current_timestamp st <? ge) eqn:Htrail.
    - apply Z.ltb_lt in Htrail.
      destruct (gap_fill_total (current_timestamp st) ge (current_window_id st) d
                  (current_timestamp st =? gs) true (dict_get_key _ _ _ Hp)) as [G HG].
      rewrite HG in Hrun. cbn [rbind] in Hrun. exists (all_segments st ++ G).
      split; [exact Hrun|].
      destruct (gap_fill_shape _ _ _ _ _ _ _ HG) as (Hinactive & _ & _).
      destruct (gap_fill_ordered _ _ _ _ _ _ _ p Hndd Hle Hp Hpc Htrail Hlast HG)
        as [HGsorted HGall].
      rewrite Forall_forall in HGall. split.
      + apply Sorted_app_junction; [exact Hsorted|exact HGsorted|].
        intros x y Hx Hy. unfold key_le. rewrite Hlastseg in Hx. specialize (Hcur x Hx).
        destruct G as [|g G]; [discriminate|]. injection Hy as <-.
        destruct (HGall g ltac:(by left)) as [? _]. lia.
      + apply Forall_app. split; [exact Hshape|].
        apply Forall_forall. intros g Hg. destruct (HGall g Hg) as [_ Hg'].
        rewrite Forall_forall in Hinactive. specialize (Hinactive g Hg).
        unfold well_shaped. split; [exact Hg'|]. rewrite Hinactive. discriminate.
    - cbn [rbind] in Hrun. exists (all_segments st). auto. }
  exists segs, d, gs, ge. split; [exact Hsegs|]. split; [exact Hord|].
  split; [exact Hws|]. intros md Hmd.
  by destruct (get_metadata_projections _ _ _ _ _ _ Hsegs Hmd) as (? & _).
Qed.

Lemma segments_ordered_by_start_witness :
  exists segs d gs ge,
    recording_segments one_ms_apart = Ok (segs, d, gs, ge)
    /\ Sorted (key_le start_time) segs
    /\ Forall well_shaped segs
    /\ (forall md,
          get_metadata_from_events_summary one_ms_apart = Ok md ->
          RecordingMetadata.segments md = segs).
Proof.
  apply segments_ordered_by_start.
  - discriminate.
  - constructor; [rewrite list_elem_of_singleton; discriminate|].
    constructor; [apply not_elem_of_nil|constructor].
  - repeat constructor; try discriminate; cbn; lia.
  - exact_ts.
Defined.

(** The bound of one millisecond is met: on [one_ms_apart] the gap between
    the activity of A at 0 ms and that of B at 1 ms is filled by a segment
    of A that starts at 1 ms and ends at 0 ms. *)
Lemma one_ms_gap_segment :
  rmap (fun md => RecordingMetadata.segments md)
       (get_metadata_from_events_summary one_ms_apart)
    = Ok [ {| start_time := 0; end_time := 0; window_id := "A"; is_active := true |};
           {| start_time := 1; end_time := 0; window_id := "A"; is_active := false |};
           {| start_time := 1; end_time := 1; window_id := "B"; is_active := true |};
           {| start_time := 2; end_time := 100; window_id := "B"; is_active := false |} ].
Proof. vm_compute. reflexivity. Qed.

(** ** A gap inside the preferred window *)

(** X14: when the preferred window was recording over the whole range
    ([start <= range_start < range_end <= end]), the gap is filled by one
    segment of that window; it starts one millisecond after the range start
    unless the call is at the recording start, and ends one millisecond
    before the range end unless the call is at the recording end. *)
Theorem gap_within_preferred_window
    (range_start range_end : datetime) (preferred : WindowId)
    (d : dict RecordingSegment) (is_first is_last : bool) (p : RecordingSegment) :
  dict_get d preferred = Ok p ->
  start_time p <= range_start ->
  range_start < range_end ->
  range_end <= end_time p ->
  generate_inactive_segments_for_range range_start range_end preferred d is_first is_last
    = Ok [ {| start_time := if is_first then range_start else range_start + 1;
              end_time := if is_last then range_end else range_end - 1;
              window_id := preferred; is_active := false |} ].
Proof.
  intros Hp Hstart Hrange Hend.
  rewrite generate_inactive_segments_for_range_eq. unfold amended_inactive_segments.
  pose proof (priority_list_known d preferred (dict_get_key _ _ _ Hp)) as Hknown.
  unfold priority_list in *. apply Forall_cons in Hknown as [_ Hknown].
  cbn [spec_walk_inactive]. rewrite Hp. cbn [rbind].
  replace (range_start <? end_time p) with true by (symmetry; apply Z.ltb_lt; lia).
  replace (range_start <? range_end) with true by (symmetry; apply Z.ltb_lt; lia).
  cbn [andb end_time].
  rewrite (spec_walk_inactive_past_end range_end d _ (Z.min (end_time p) range_end))
    by (lia || exact Hknown).
  cbn [rmap keep_first_move_later move_later_starts move_first_start move_last_end
         start_time end_time].
  replace (Z.max (start_time p) range_start) with range_start by lia.
  replace (Z.min (end_time p) range_end) with range_end by lia.
  rewrite Z.eqb_refl. destruct is_first; cbn [negb andb].
  - rewrite Z.eqb_refl. by destruct is_last.
  - unfold forward_1ms, set_start_time. cbn [start_time end_time window_id is_active].
    rewrite Z.eqb_refl. by destruct is_last.
Qed.

Lemma gap_within_preferred_window_witness :
  generate_inactive_segments_for_range 6 9 "B" overlapping_windows false false
    = Ok [ {| start_time := 7; end_time := 8; window_id := "B"; is_active := false |} ].
Proof.
  apply (gap_within_preferred_window 6 9 "B" overlapping_windows false false
           {| start_time := 5; end_time := 20; window_id := "B"; is_active := false |});
    [reflexivity|cbn; lia|lia|cbn; lia].
Defined.

(** ** The bounds of the recording and the events *)

(** X15: when the function returns on distinct window ids and lists sorted
    by timestamp, every event's timestamp lies between the recording's start
    and end; the start is the timestamp of the first event of some window
    and the end that of the last event of some window; and the map of
    start and end times has the windows of the input, in the input's order. *)
Theorem recording_bounds_events (m : dict (list SessionRecordingEventSummary))
    (md : RecordingMetadata.t) :
  NoDup (dict_keys m) ->
  Forall (fun item => snd item <> [] /\ sorted_by_timestamp (snd item)) m ->
  get_metadata_from_events_summary m = Ok md ->
  (forall item e, item ∈ m -> e ∈ snd item ->
     RecordingMetadata.start_time md <= timestamp e <= RecordingMetadata.end_time md)
  /\ (exists item e, item ∈ m /\ head (snd item) = Some e
                     /\ timestamp e = RecordingMetadata.start_time md)
  /\ (exists item e, item ∈ m /\ last (snd item) = Some e
                     /\ timestamp e = RecordingMetadata.end_time md)
  /\ dict_keys (RecordingMetadata.start_and_end_times_by_window_id md) = dict_keys m.
Proof.
  intros Hnd Hm Hmd.
  assert (m <> []) as Hne by (intros ->; discriminate Hmd).
  destruct (recording_segments_coverage m Hne Hnd Hm)
    as (segs & gs & ge & Hrun & Hmin & Hmax & _).
  destruct (get_metadata_projections _ _ _ _ _ _ Hrun Hmd) as (_ & -> & -> & -> & _).
  destruct (timelines_bounds m gs ge Hnd Hm Hmin Hmax) as [Hrange _].
  destruct (timelines_map m Hnd) as [Hmap Hkeys].
  destruct (py_min_spec _ _ Hmin) as [_ Hgs_in].
  destruct (py_max_spec _ _ Hmax) as [_ Hge_in].
  rewrite Hmap in Hrange, Hgs_in, Hge_in.
  rewrite Forall_forall in Hm.
  split; [|split; [|split; [|exact Hkeys]]].
  - intros [wid evs] e Hitem He. cbn [snd] in He.
    destruct (Hm _ Hitem) as [_ Hsorted]. cbn [snd] in Hsorted.
    pose proof (sorted_events_bounds evs e wid Hsorted He) as Hbounds.
    destruct (Hrange (wid, timeline wid evs)) as (Hlo & _ & Hhi).
    { apply list_elem_of_fmap. by exists (wid, evs). }
    cbn [snd] in Hlo, Hhi. lia.
  - apply list_elem_of_fmap in Hgs_in as (w & -> & Hw).
    apply list_elem_of_fmap in Hw as (kw & -> & Hkw).
    apply list_elem_of_fmap in Hkw as ([wid evs] & -> & Hitem).
    destruct (Hm _ Hitem) as [Hevs _]. cbn [snd] in Hevs.
    destruct evs as [|e evs]; [done|]. exists (wid, e :: evs), e. by repeat split.
  - apply list_elem_of_fmap in Hge_in as (w & -> & Hw).
    apply list_elem_of_fmap in Hw as (kw & -> & Hkw).
    apply list_elem_of_fmap in Hkw as ([wid evs] & -> & Hitem).
    destruct (Hm _ Hitem) as [Hevs _]. cbn [snd] in Hevs.
    destruct (last evs) as [e|] eqn:Hlast; [|by apply last_None in Hlast].
    exists (wid, evs), e. split; [exact Hitem|]. split; [exact Hlast|].
    cbn [snd fst timeline end_time]. by rewrite Hlast.
Qed.

Lemma recording_bounds_events_witness :
  exists md,
    get_metadata_from_events_summary two_windows = Ok md
    /\ (forall item e, item ∈ two_windows -> e ∈ snd item ->
          RecordingMetadata.start_time md <= timestamp e <= RecordingMetadata.end_time md)
    /\ dict_keys (RecordingMetadata.start_and_end_times_by_window_id md)
       = dict_keys two_windows.
Proof.
  destruct two_windows_well_formed as (_ & Hnd & Hm).
  destruct two_windows_returns as [md Hmd]. exists md. split; [exact Hmd|].
  destruct (recording_bounds_events two_windows md Hnd Hm Hmd) as (Hall & _ & _ & Hkeys).
  split; [exact Hall|exact Hkeys].
Defined.
